(** * seutils: storage-element utilities

    A shallow embedding of [seutils/__init__.py] and of the chunked merge of
    [seutils/rootutils.py], with the properties of the address model, the
    command runner, the metadata cache, the traversal engine and the
    merge-reduce engine stated over it. *)

From Stdlib Require Import ZArith Ascii String Lia.
From stdpp Require Import base option list strings gmap pretty.

Local Open Scope Z_scope.
Local Open Scope stdpp_scope.
Local Arguments String.append !_ _ / : simpl nomatch.
Local Arguments Ascii.eqb : simpl never.
Local Arguments String.eqb : simpl never.

(** ** Python strings

    The [str] methods the module calls, over [string]. *)
Module Py.

(** [removeprefix pre s] is what is left of [s] behind [pre], when [s]
    starts with [pre]. *)
Fixpoint removeprefix (pre s : string) : option string :=
  match pre with
  | EmptyString => Some s
  | String a pre' =>
      match s with
      | EmptyString => None
      | String b s' => if Ascii.eqb a b then removeprefix pre' s' else None
      end
  end.

(** [s.startswith(pre)] *)
Definition startswith (s pre : string) : bool :=
  match removeprefix pre s with Some _ => true | None => false end.

(** [s.endswith(suf)] *)
Fixpoint endswith (s suf : string) : bool :=
  String.eqb s suf ||
  match s with
  | EmptyString => false
  | String _ s' => endswith s' suf
  end.

(** The text before and after the leftmost occurrence of [sep] in [s]. *)
Fixpoint partition (sep s : string) : option (string * string) :=
  match removeprefix sep s with
  | Some rest => Some (EmptyString, rest)
  | None =>
      match s with
      | EmptyString => None
      | String c s' =>
          match partition sep s' with
          | Some (a, b) => Some (String c a, b)
          | None => None
          end
      end
  end.

(** The text before and after the rightmost occurrence of [sep] in [s]. *)
Fixpoint rpartition (sep s : string) : option (string * string) :=
  match s with
  | EmptyString =>
      match removeprefix sep s with
      | Some rest => Some (EmptyString, rest)
      | None => None
      end
  | String c s' =>
      match rpartition sep s' with
      | Some (a, b) => Some (String c a, b)
      | None =>
          match removeprefix sep s with
          | Some rest => Some (EmptyString, rest)
          | None => None
          end
      end
  end.

(** [sep in s] *)
Definition contains (sep s : string) : bool :=
  match partition sep s with Some _ => true | None => false end.

(** [s.split(sep, 1)]: one or two pieces. *)
Definition split1 (sep s : string) : list string :=
  match partition sep s with
  | Some (a, b) => [a; b]
  | None => [s]
  end.

(** [s.rsplit(sep, 1)] *)
Definition rsplit1 (sep s : string) : list string :=
  match rpartition sep s with
  | Some (a, b) => [a; b]
  | None => [s]
  end.

End Py.

(** ** Exceptions and results *)

Inductive exn : Type :=
| ValueError (msg : string)
| RuntimeError (msg : string)
| NameError (name : string)
| TypeError (msg : string)
| AttributeError (name : string)
| IndexError (msg : string)
| ZeroDivisionError (msg : string)
| CalledProcessError (cmd : list string) (returncode : Z)
| OSError (errno : Z)
| ReError (msg : string)
| OutOfFuel.

Inductive result (A : Type) : Type :=
| Ok (a : A)
| Raise (e : exn).
Arguments Ok {A} a.
Arguments Raise {A} e.

Definition is_ok {A} (r : result A) : bool :=
  match r with Ok _ => true | Raise _ => false end.

(** The messages of the exceptions the path functions raise; the text that
    depends on the arguments is left out. *)
Definition NoDefaultServer : exn :=
  RuntimeError "A request relied on the default mgm to be set.".
Definition NoProtocol : exn :=
  ValueError "Attempted to get protocol, but there does not seem to be any.".
Definition MalformedAddress : exn :=
  ValueError "Could not determine server and logical file name".
Definition ConflictingServer : exn :=
  ValueError "Conflicting mgms determined from path and passed argument".
Definition LfnNoSlash : exn :=
  ValueError "LFN does not start with /; something is wrong".
Definition JoinNoSlash : exn :=
  ValueError "This function expects filenames that start with /".
Definition UnpackError : exn :=
  ValueError "not enough values to unpack".

(** ** Path management *)

Definition get_default_mgm (DEFAULT_MGM : option string) : result string :=
  match DEFAULT_MGM with
  | None => Raise NoDefaultServer
  | Some mgm => Ok mgm
  end.

Definition has_protocol (filename : string) : bool :=
  Py.contains "://" filename.

Definition split_protocol_pfn (filename : string)
  : result (string * string * string) :=
  if negb (has_protocol filename) then Raise NoProtocol
  else
    match Py.split1 "://" filename with
    | [protocol; rest] =>
        if negb (Py.contains "//" rest) then Raise MalformedAddress
        else
          match Py.split1 "//" rest with
          | [server; lfn] =>
              let lfn := "/" +:+ lfn in
              Ok (protocol, server, lfn)
          | _ => Raise UnpackError
          end
    | _ => Raise UnpackError
    end.

Definition _split_mgm_pfn (filename : string) : result (string * string) :=
  match split_protocol_pfn filename with
  | Ok (protocol, server, lfn) => Ok (protocol +:+ "://" +:+ server, lfn)
  | Raise e => Raise e
  end.

Definition split_mgm (DEFAULT_MGM : option string)
    (path : string) (mgm : option string) : result (string * string) :=
  let checked (r : string * string) :=
    let '(mgm, lfn) := r in
    if negb (Py.startswith lfn "/") then Raise LfnNoSlash else Ok (mgm, lfn) in
  if has_protocol path then
    match _split_mgm_pfn path with
    | Raise e => Raise e
    | Ok (mgm_from_path, lfn) =>
        if match mgm with
           | Some m => negb (String.eqb mgm_from_path m)
           | None => false
           end
        then Raise ConflictingServer
        else checked (mgm_from_path, lfn)
    end
  else
    match mgm with
    | None =>
        match get_default_mgm DEFAULT_MGM with
        | Raise e => Raise e
        | Ok mgm => checked (mgm, path)
        end
    | Some mgm => checked (mgm, path)
    end.

Definition _join_mgm_lfn (mgm lfn : string) : result string :=
  if negb (Py.startswith lfn "/") then Raise JoinNoSlash
  else
    let mgm := if negb (Py.endswith mgm "/") then mgm +:+ "/" else mgm in
    Ok (mgm +:+ lfn).

Definition format (DEFAULT_MGM : option string)
    (path : string) (mgm : option string) : result string :=
  match split_mgm DEFAULT_MGM path mgm with
  | Raise e => Raise e
  | Ok (mgm, lfn) => _join_mgm_lfn mgm lfn
  end.

(** ** More of Python

    Whitespace is the ASCII whitespace that [str.strip] and [str.split]
    remove. *)
Module PyText.

Definition is_space (c : ascii) : bool :=
  let n := N_of_ascii c in
  (N.eqb n 32 || (N.leb 9 n && N.leb n 13) || (N.leb 28 n && N.leb n 31))%N.

Fixpoint lstrip (s : string) : string :=
  match s with
  | EmptyString => EmptyString
  | String c s' => if is_space c then lstrip s' else s
  end.

Fixpoint rstrip (s : string) : string :=
  match s with
  | EmptyString => EmptyString
  | String c s' =>
      match rstrip s' with
      | EmptyString => if is_space c then EmptyString else String c EmptyString
      | r => String c r
      end
  end.

(** [s.strip()] *)
Definition strip (s : string) : string := rstrip (lstrip s).

(** The word that starts [s], if [s] starts inside one, and the words
    behind it. *)
Fixpoint split_words (s : string) : string * list string :=
  match s with
  | EmptyString => (EmptyString, [])
  | String c s' =>
      let '(w, ws) := split_words s' in
      if is_space c
      then (EmptyString, match w with EmptyString => ws | _ => w :: ws end)
      else (String c w, ws)
  end.

(** [s.split()] *)
Definition split (s : string) : list string :=
  let '(w, ws) := split_words s in
  match w with EmptyString => ws | _ => w :: ws end.

(** [s.split(sep)], for a separator of one character. *)
Fixpoint split_on (sep : ascii) (s : string) : list string :=
  match s with
  | EmptyString => [EmptyString]
  | String c s' =>
      match split_on sep s' with
      | [] => [EmptyString]
      | w :: ws => if Ascii.eqb c sep then EmptyString :: w :: ws
                   else String c w :: ws
      end
  end.

(** [sep.join(l)] *)
Fixpoint join (sep : string) (l : list string) : string :=
  match l with
  | [] => EmptyString
  | [x] => x
  | x :: l' => x +:+ sep +:+ join sep l'
  end.

(** [s.count(c)], for one character. *)
Fixpoint count (c : ascii) (s : string) : nat :=
  match s with
  | EmptyString => O
  | String d s' => ((if Ascii.eqb c d then 1 else 0) + count c s')%nat
  end.

(** [s.replace(old, new)] for a non-empty [old]; the calls of the module
    all pass one. *)
Fixpoint replace_fuel (fuel : nat) (old new s : string) : string :=
  match fuel with
  | O => s
  | S fuel' =>
      match old, Py.removeprefix old s with
      | String _ _, Some rest => new +:+ replace_fuel fuel' old new rest
      | _, _ =>
          match s with
          | EmptyString => EmptyString
          | String c s' => String c (replace_fuel fuel' old new s')
          end
      end
  end.
Definition replace (old new s : string) : string :=
  replace_fuel (S (String.length s)) old new s.

(** [os.path.join(a, b)] *)
Definition osp_join (a b : string) : string :=
  if Py.startswith b "/" then b
  else if String.eqb a "" || Py.endswith a "/" then a +:+ b
  else a +:+ "/" +:+ b.

(** [os.path.basename(p)] *)
Definition osp_basename (p : string) : string :=
  match Py.rpartition "/" p with
  | Some (_, b) => b
  | None => p
  end.

(** [l[i:j]] for [0 <= i <= j] *)
Definition slice {A} (l : list A) (i j : nat) : list A :=
  take (j - i) (drop i l).

(** Stable insertion sort by a string key, as [list.sort(key=...)]. *)
Fixpoint insert_by {A} (key : A -> string) (x : A) (l : list A) : list A :=
  match l with
  | [] => [x]
  | y :: l' =>
      if String.leb (key x) (key y) then x :: y :: l'
      else y :: insert_by key x l'
  end.
Definition sort_by {A} (key : A -> string) (l : list A) : list A :=
  foldr (insert_by key) [] l.

(** *** Regular expressions

    The fragment of [re] that the wildcard patterns reach: a character
    stands for itself, a dot for any character but a newline, and a star
    repeats the item in front of it.  [re_compile] gives [None] on a pattern
    with any other metacharacter. *)
Inductive atom : Type := Lit (c : ascii) | AnyChar.
Inductive item : Type := One (a : atom) | Star (a : atom).

Definition is_meta (c : ascii) : bool :=
  existsb (Ascii.eqb c)
    ["\"; "^"; "$"; "+"; "?"; "{"; "}"; "["; "]"; "("; ")"; "|"]%char.

Definition atom_of (c : ascii) : option atom :=
  if Ascii.eqb c "." then Some AnyChar
  else if Ascii.eqb c "*" then None
  else if is_meta c then None
  else Some (Lit c).

Fixpoint re_compile (p : string) : option (list item) :=
  match p with
  | EmptyString => Some []
  | String c p' =>
      match atom_of c with
      | None => None
      | Some a =>
          match p' with
          | String "*"%char p'' => option_map (cons (Star a)) (re_compile p'')
          | _ => option_map (cons (One a)) (re_compile p')
          end
      end
  end.

Definition match_atom (a : atom) (c : ascii) : bool :=
  match a with
  | Lit d => Ascii.eqb c d
  | AnyChar => negb (Ascii.eqb c "010")
  end.

(** [regex.match(s)]: the pattern matches a prefix of [s]. *)
Fixpoint re_match (r : list item) (s : string) : bool :=
  match r with
  | [] => true
  | One a :: r' =>
      match s with
      | EmptyString => false
      | String c s' => match_atom a c && re_match r' s'
      end
  | Star a :: r' =>
      (fix star (s : string) : bool :=
         re_match r' s ||
         match s with
         | EmptyString => false
         | String c s' => match_atom a c && star s'
         end) s
  end.

(** [s.strip(c)], for one character [c] *)
Fixpoint lstrip_char (c : ascii) (s : string) : string :=
  match s with
  | EmptyString => EmptyString
  | String d s' => if Ascii.eqb d c then lstrip_char c s' else s
  end.

Fixpoint rstrip_char (c : ascii) (s : string) : string :=
  match s with
  | EmptyString => EmptyString
  | String d s' =>
      match rstrip_char c s' with
      | EmptyString => if Ascii.eqb d c then EmptyString else String d EmptyString
      | r => String d r
      end
  end.

Definition strip_char (c : ascii) (s : string) : string :=
  rstrip_char c (lstrip_char c s).

(** [s.replace(c, '')], for one character [c] *)
Fixpoint remove_char (c : ascii) (s : string) : string :=
  match s with
  | EmptyString => EmptyString
  | String d s' =>
      if Ascii.eqb d c then remove_char c s' else String d (remove_char c s')
  end.

(** [l.insert(1, x)] *)
Definition insert1 {A} (x : A) (l : list A) : list A :=
  match l with
  | [] => [x]
  | y :: l' => y :: x :: l'
  end.

(** [l.insert(-1, x)] *)
Fixpoint insert_before_last {A} (x : A) (l : list A) : list A :=
  match l with
  | [] => [x]
  | [y] => [x; y]
  | y :: l' => y :: insert_before_last x l'
  end.

End PyText.

(** ** Values and the state of the process *)

(** [datetime.datetime] *)
Record datetime : Type := Datetime {
  year : Z; month : Z; day : Z; hour : Z; minute : Z; second : Z
}.

(** The class [Inode]; [isfile] and [basename] are derived in [__init__]. *)
Module Inode.
Record t : Type := mk {
  path : string;
  modtime : datetime;
  isdir : bool;
  size : Z
}.
Definition isfile (i : t) : bool := negb (isdir i).
Definition basename (i : t) : string := PyText.osp_basename (path i).
End Inode.

(** What the read queries return and the caches hold. *)
#[local] Set Warnings "-register-all".
Inductive value : Type :=
| VNone
| VBool (b : bool)
| VInt (n : Z)
| VStr (s : string)
| VInode (i : Inode.t)
| VList (l : list value).

(** [not v] *)
Definition falsy (v : value) : bool :=
  match v with
  | VNone => true
  | VBool b => negb b
  | VInt n => Z.eqb n 0
  | VStr s => String.eqb s ""
  | VInode _ => false
  | VList l => match l with [] => true | _ => false end
  end.

(** [v == n] for an integer literal [n] *)
Definition eq_int (v : value) (n : Z) : bool :=
  match v with
  | VInt m => Z.eqb m n
  | VBool b => Z.eqb (if b then 1 else 0) n
  | _ => false
  end.

(** What a spawned command did: it ran, printed and exited, or
    [subprocess.Popen] raised [OSError]. *)
Inductive process : Type :=
| Exited (output : list string) (returncode : Z)
| NotSpawned (errno : Z).

(** What [run_command] returns: the empty string of a dry run, the captured
    lines, or an exit code. *)
Inductive cmd_output : Type :=
| DryRun
| Output (lines : list string)
| ExitCode (returncode : Z).

(** Modelled from the spec: the class [FileCache] of [seutils/cache.py],
    which is not part of the sources at hand.  The spec describes it as a
    durable key to value mapping per namespace, backed by a directory of
    persisted entries, that supports synchronize-to-disk: a [FileCache] is
    the map of its entries, a new one starts from what the cache directory
    holds for its name, and [sync] stores the entries there. *)
Module FileCache.
Abbreviation t := (gmap string value).
Definition open (subcache_name : string)
    (app_cache_dir : gmap string (gmap string value)) : t :=
  default ∅ (app_cache_dir !! subcache_name).
Definition get (c : t) (key : string) (dflt : value) : value :=
  default dflt (c !! key).
Definition setitem (c : t) (key : string) (v : value) : t := <[key := v]> c.
End FileCache.

(** The module globals, the commands spawned so far (oldest first), the
    number of [time.sleep] calls, and the local directories that exist,
    with the number of UUIDs drawn. *)
Record world : Type := World {
  DEFAULT_MGM : option string;
  DRYMODE : bool;
  USE_CACHE : bool;
  CACHES : gmap string (gmap string value);
  CACHEDIR : gmap string (gmap string value);
  spawned : list (list string);
  slept : nat;
  dirs : gset string;
  uuids : nat
}.

Definition set_CACHES (f : gmap string (gmap string value) ->
                           gmap string (gmap string value)) (w : world) :=
  World (DEFAULT_MGM w) (DRYMODE w) (USE_CACHE w) (f (CACHES w)) (CACHEDIR w)
        (spawned w) (slept w) (dirs w) (uuids w).
Definition set_CACHEDIR (f : gmap string (gmap string value) ->
                             gmap string (gmap string value)) (w : world) :=
  World (DEFAULT_MGM w) (DRYMODE w) (USE_CACHE w) (CACHES w) (f (CACHEDIR w))
        (spawned w) (slept w) (dirs w) (uuids w).
Definition set_spawned (f : list (list string) -> list (list string))
    (w : world) :=
  World (DEFAULT_MGM w) (DRYMODE w) (USE_CACHE w) (CACHES w) (CACHEDIR w)
        (f (spawned w)) (slept w) (dirs w) (uuids w).
Definition set_slept (f : nat -> nat) (w : world) :=
  World (DEFAULT_MGM w) (DRYMODE w) (USE_CACHE w) (CACHES w) (CACHEDIR w)
        (spawned w) (f (slept w)) (dirs w) (uuids w).
Definition set_dirs (f : gset string -> gset string) (w : world) :=
  World (DEFAULT_MGM w) (DRYMODE w) (USE_CACHE w) (CACHES w) (CACHEDIR w)
        (spawned w) (slept w) (f (dirs w)) (uuids w).
Definition set_uuids (f : nat -> nat) (w : world) :=
  World (DEFAULT_MGM w) (DRYMODE w) (USE_CACHE w) (CACHES w) (CACHEDIR w)
        (spawned w) (slept w) (dirs w) (f (uuids w)).

(** The module as imported: no default mgm, no dry mode, no cache. *)
Definition initial_world : world :=
  World None false false ∅ ∅ [] 0 ∅ 0.

(** ** Computations: state passing with exceptions *)

Definition M (A : Type) : Type := world -> result A * world.

Definition ret {A} (a : A) : M A := fun w => (Ok a, w).
Definition raise {A} (e : exn) : M A := fun w => (Raise e, w).
Definition lift {A} (r : result A) : M A := fun w => (r, w).
Definition bind {A B} (m : M A) (k : A -> M B) : M B :=
  fun w =>
    match m w with
    | (Ok a, w') => k a w'
    | (Raise e, w') => (Raise e, w')
    end.
Definition get_world : M world := fun w => (Ok w, w).
Definition modify (f : world -> world) : M unit := fun w => (Ok tt, f w).

(** [try: m finally: h] *)
Definition finally {A} (m : M A) (h : M unit) : M A :=
  fun w =>
    let '(r, w') := m w in
    match h w' with
    | (Ok _, w'') => (r, w'')
    | (Raise e, w'') => (Raise e, w'')
    end.

Declare Scope comp_scope.
Delimit Scope comp_scope with comp.
Notation "x <- m ;; k" := (bind m (fun x => k))
  (at level 100, m at next level, right associativity) : comp_scope.
Notation "m ;;; k" := (bind m (fun _ => k))
  (at level 100, right associativity) : comp_scope.
Local Open Scope comp_scope.

(** [for x in l: body x], threading the state. *)
Fixpoint for_each {A} (l : list A) (body : A -> M unit) : M unit :=
  match l with
  | [] => ret tt
  | x :: l' => body x ;;; for_each l' body
  end.

(** [[f x for x in l]] for an [f] that may raise. *)
Fixpoint map_result {A B} (f : A -> result B) (l : list A) : result (list B) :=
  match l with
  | [] => Ok []
  | x :: l' =>
      match f x with
      | Raise e => Raise e
      | Ok y =>
          match map_result f l' with
          | Raise e => Raise e
          | Ok ys => Ok (y :: ys)
          end
      end
  end.

(** ** A storage element to test against

    An xrootd server with a handful of nodes, answering the commands of the
    module the way [xrdfs] does; [hadd] always succeeds. *)
Module Fake.

Definition mgm : string := "root://se.example.org".

(** The nodes: logical path, and whether it is a directory. *)
Definition nodes : list (string * bool) :=
  [("/a", true); ("/a/b", true); ("/a/b/x.txt", false);
   ("/a/b/y.root", false); ("/a/b/c", true); ("/a/b/c/z.txt", false);
   ("/empty", true)].

Definition node (lfn : string) : option bool :=
  snd <$> List.find (fun n => String.eqb (fst n) lfn) nodes.

Definition is_child (directory lfn : string) : bool :=
  match Py.removeprefix (directory +:+ "/") lfn with
  | Some name => negb (String.eqb name "") && negb (Py.contains "/" name)
  | None => false
  end.

Definition children (directory : string) : list (string * bool) :=
  List.filter (fun n => is_child directory (fst n)) nodes.

Definition statline (n : string * bool) : string :=
  (if snd n then "drwx" else "-rw-") +:+ " 2020-01-01 00:00:00 4096 " +:+ fst n.

Definition popen (history : list (list string)) (cmd : list string)
  : process :=
  match cmd with
  | ["xrdfs"; _; "stat"; "-q"; "IsDir"; lfn] =>
      match node lfn with
      | Some true => Exited [] 0
      | Some false => Exited [] 55
      | None => Exited [] 54
      end
  | ["xrdfs"; _; "stat"; lfn] =>
      match node lfn with
      | Some d =>
          Exited ["Path:   " +:+ lfn; "Size:   4096";
                  "MTime:  2020-01-01 00:00:00";
                  if d then "Flags:  51 (IsDir|IsReadable)"
                  else "Flags:  16 (IsReadable)"] 0
      | None => Exited ["[ERROR] Query response negative: No such file"] 54
      end
  | ["xrdfs"; _; "ls"; lfn] =>
      match node lfn with
      | Some true => Exited (map fst (children lfn)) 0
      | _ => Exited ["[ERROR] Server responded with an error"] 54
      end
  | ["xrdfs"; _; "ls"; lfn; "-l"] =>
      match node lfn with
      | Some true => Exited (map statline (children lfn)) 0
      | _ => Exited ["[ERROR] Server responded with an error"] 54
      end
  | "hadd" :: _ => Exited [] 0
  | _ => NotSpawned 2
  end.

Definition strptime (date_string fmt : string) : option datetime :=
  if String.eqb date_string "2020-01-01 00:00:00"
  then Some (Datetime 2020 1 1 0 0 0) else None.

Definition py_int (s : string) : option Z :=
  if String.eqb s "4096" then Some 4096 else None.

Definition uuid4 (n : nat) : string := "uuid-" +:+ pretty n.

(** The names of 450 files to merge. *)
Definition root_files : list string :=
  map (fun i => "f" +:+ pretty i +:+ ".root") (seq 0 450).

(** A process that set the default mgm to this server. *)
Definition world0 : world :=
  World (Some mgm) false false ∅ ∅ [] 0 ∅ 0.

(** The same, with the cache switched on. *)
Definition world_cached : world :=
  World (Some mgm) false true ∅ ∅ [] 0 ∅ 0.

(** The same, in dry mode. *)
Definition world_dry : world :=
  World (Some mgm) true false ∅ ∅ [] 0 ∅ 0.

(** A command that fails twice and then goes well, and a machine without
    [hadd]. *)
Definition popen_flaky (history : list (list string)) (cmd : list string)
  : process :=
  if Nat.ltb (length history) 2 then Exited ["busy"] 1 else Exited ["done"] 0.

Definition popen_bare (history : list (list string)) (cmd : list string)
  : process :=
  NotSpawned 2.

(** A pool that starts the last of the waiting tasks first, and goes on
    after a failure. *)
Definition next_task (history : list (list string)) (n : nat) : nat :=
  (n - 1)%nat.

Definition keeps_on (history : list (list string)) : bool := true.

(** Scratch names that hold no slash: [u], [uu], [uuu], ... *)
Fixpoint uuid4_plain (n : nat) : string :=
  match n with
  | O => "u"
  | S n' => String "u" (uuid4_plain n')
  end.

(** A machine on which every command goes well. *)
Definition popen_ok (history : list (list string)) (cmd : list string)
  : process :=
  Exited [] 0.

End Fake.

(** ** The world outside

    What the external commands do, given the commands spawned before, and
    the library functions whose results the module only passes on. *)
Section SE.

Variable popen : list (list string) -> list string -> process.
Variable strptime : string -> string -> option datetime.
Variable py_int : string -> option Z.
Variable uuid4 : nat -> string.

(** The worker pool. Its workers run side by side, so that the order in
    which the tasks of one [map] are started is not fixed: [next_task]
    gives, from the commands spawned so far and the number [n] of tasks not
    yet started, which of these is started next (taken modulo [n]).  Once a
    task has raised, the tasks queued behind it in its batch are skipped
    and an older pool returns at once: [keeps_on] tells whether another task
    is still started then. *)
Variable next_task : list (list string) -> nat -> nat.
Variable keeps_on : list (list string) -> bool.

(** ** Running commands *)

Definition N_SECONDS_SLEEP : nat := 10.

(** The loop of [run_command]; [fuel] bounds the retries that are left. *)
Fixpoint run_command_attempts (fuel : nat) (cmd : list string)
    (dry non_zero_exitcode_ok : bool) (n_retries i_attempt : nat)
  : M cmd_output :=
  fun w =>
    if dry then (Ok DryRun, w)
    else
      match popen (spawned w) cmd with
      | NotSpawned errno => (Raise (OSError errno), w)
      | Exited output returncode =>
          let w := set_spawned (fun l => l ++ [cmd]) w in
          if Z.eqb returncode 0 then (Ok (Output output), w)
          else if non_zero_exitcode_ok then
            (* the log call names [return_code], which nothing binds *)
            (Raise (NameError "return_code"), w)
          else if Nat.ltb i_attempt n_retries then
            match fuel with
            | O => (Raise OutOfFuel, w)
            | S fuel' =>
                run_command_attempts fuel' cmd dry non_zero_exitcode_ok
                  n_retries (i_attempt + 1) (set_slept S w)
            end
          else (Raise (CalledProcessError cmd returncode), w)
      end.

Definition run_command (cmd : list string) (dry : option bool)
    (non_zero_exitcode_ok : bool) (n_retries : nat) : M cmd_output :=
  fun w =>
    let i_attempt := O in
    let dry := match dry with None => DRYMODE w | Some d => d end in
    run_command_attempts n_retries cmd dry non_zero_exitcode_ok
      n_retries i_attempt w.

Definition get_exitcode (cmd : list string) : M Z :=
  fun w =>
    if DRYMODE w then (Ok 0, w)
    else
      match popen (spawned w) cmd with
      | NotSpawned errno => (Raise (OSError errno), w)
      | Exited _ returncode =>
          (Ok returncode, set_spawned (fun l => l ++ [cmd]) w)
      end.

(** [for l in output] *)
Definition lines_of (output : cmd_output) : result (list string) :=
  match output with
  | DryRun => Ok []
  | Output lines => Ok lines
  | ExitCode _ => Raise (TypeError "int object is not iterable")
  end.

(** ** Paths, with the default mgm of the process *)

Definition split_mgm' (path : string) (mgm : option string)
  : M (string * string) :=
  fun w => (split_mgm (DEFAULT_MGM w) path mgm, w).

Definition format' (path : string) (mgm : option string) : M string :=
  fun w => (format (DEFAULT_MGM w) path mgm, w).

Definition get_protocol (path : string) (mgm : option string) : M string :=
  path <- format' path mgm ;;
  ret (match Py.partition "://" path with
       | Some (protocol, _) => protocol
       | None => path
       end).

Definition use_xrootd (protocol : string) : bool := String.eqb protocol "root".

Definition use_xrootd_path (path : string) : M bool :=
  protocol <- get_protocol path None ;;
  ret (use_xrootd protocol).

(** ** Cache *)

Definition make_cache (subcache_name : string) : M unit :=
  fun w =>
    if negb (USE_CACHE w) then (Ok tt, w)
    else
      match CACHES w !! subcache_name with
      | Some _ => (Ok tt, w)
      | None =>
          let cache := FileCache.open subcache_name (CACHEDIR w) in
          (Ok tt, set_CACHES (fun c => <[subcache_name := cache]> c) w)
      end.

Definition read_cache (subcache_name key : string) : M value :=
  fun w =>
    if negb (USE_CACHE w) then (Ok VNone, w)
    else
      let '(_, w) := make_cache subcache_name w in
      let val :=
        FileCache.get (default ∅ (CACHES w !! subcache_name)) key VNone in
      (Ok val, w).

Definition write_cache (subcache_name key : string) (val : value) : M unit :=
  fun w =>
    if USE_CACHE w then
      let '(_, w) := make_cache subcache_name w in
      let subcache :=
        FileCache.setitem (default ∅ (CACHES w !! subcache_name)) key val in
      let w := set_CACHES (fun c => <[subcache_name := subcache]> c) w in
      (* subcache.sync() *)
      let w := set_CACHEDIR (fun c => <[subcache_name := subcache]> c) w in
      (Ok tt, w)
    else (Ok tt, w).

(** ** Interactions with the storage element *)

(** [Inode.__init__] *)
Definition Inode_init (path : string) (modtime : datetime) (isdir : bool)
    (size : Z) : Inode.t :=
  Inode.mk path modtime isdir size.

Definition int (s : string) : result Z :=
  match py_int s with
  | Some n => Ok n
  | None => Raise (ValueError "invalid literal for int() with base 10")
  end.

Definition datetime_strptime (date_string fmt : string) : result datetime :=
  match strptime date_string fmt with
  | Some t => Ok t
  | None => Raise (ValueError "time data does not match format")
  end.

(** [Inode.from_statline_gfal] *)
Definition from_statline_gfal (statline directory : string)
  : result Inode.t :=
  let components := PyText.split (PyText.strip statline) in
  if negb (Nat.leb 9 (length components)) then
    Raise (RuntimeError "Expected at least 9 components for stat line")
  else
    let isdir := Py.startswith (default "" (components !! 0%nat)) "d" in
    let timestamp := PyText.join " " (PyText.slice components 5 8) in
    match datetime_strptime timestamp "%b %d %H:%M" with
    | Raise e => Raise e
    | Ok modtime =>
        match int (default "" (components !! 4%nat)) with
        | Raise e => Raise e
        | Ok size =>
            let path :=
              PyText.osp_join directory (default "" (components !! 8%nat)) in
            Ok (Inode_init path modtime isdir size)
        end
    end.

(** [Inode.from_statline_xrootd] *)
Definition from_statline_xrootd (DEFAULT_MGM : option string)
    (statline mgm : string) : result Inode.t :=
  let components := PyText.split (PyText.strip statline) in
  if negb (Nat.eqb (length components) 5) then
    Raise (RuntimeError "Expected 5 components for stat line")
  else
    let isdir := Py.startswith (default "" (components !! 0%nat)) "d" in
    match datetime_strptime
            (default "" (components !! 1%nat) +:+ " "
             +:+ default "" (components !! 2%nat))
            "%Y-%m-%d %H:%M:%S" with
    | Raise e => Raise e
    | Ok modtime =>
        match int (default "" (components !! 3%nat)) with
        | Raise e => Raise e
        | Ok size =>
            match format DEFAULT_MGM (default "" (components !! 4%nat))
                    (Some mgm) with
            | Raise e => Raise e
            | Ok path => Ok (Inode_init path modtime isdir size)
            end
        end
    end.

(** The three fields that the loops over the output of a stat command
    fill in. *)
Record stat_fields : Type := StatFields {
  f_size : option Z;
  f_modtime : option datetime;
  f_isdir : option bool
}.

Fixpoint scan_lines (body : stat_fields -> string -> result stat_fields)
    (lines : list string) (acc : stat_fields) : result stat_fields :=
  match lines with
  | [] => Ok acc
  | l :: lines' =>
      match body acc l with
      | Raise e => Raise e
      | Ok acc' => scan_lines body lines' acc'
      end
  end.

(** What follows the loops: the three checks and the [Inode]. *)
Definition inode_of_fields (path : string) (f : stat_fields) : result value :=
  match f_size f with
  | None => Raise (RuntimeError "Could not extract size from stat")
  | Some size =>
      match f_modtime f with
      | None => Raise (RuntimeError "Could not extract modtime from stat")
      | Some modtime =>
          match f_isdir f with
          | None => Raise (RuntimeError "Could not extract isdir from stat")
          | Some isdir => Ok (VInode (Inode_init path modtime isdir size))
          end
      end
  end.

Definition _stat_gfal_line (acc : stat_fields) (line : string)
  : result stat_fields :=
  let line := PyText.strip line in
  if Nat.eqb (String.length line) 0 then Ok acc
  else if Py.startswith line "Size:" then
    let isdir := Py.contains "directory" line in
    match PyText.split (PyText.strip (PyText.replace "Size:" "" line)) with
    | [] => Raise (IndexError "list index out of range")
    | first :: _ =>
        match int first with
        | Raise e => Raise e
        | Ok size => Ok (StatFields (Some size) (f_modtime acc) (Some isdir))
        end
    end
  else if Py.startswith line "Modify:" then
    let timestamp := PyText.strip (PyText.replace "Modify:" "" line) in
    let timestamp :=
      if Py.contains "." timestamp
      then default "" (PyText.split_on "." timestamp !! 0%nat)
      else timestamp in
    match datetime_strptime timestamp "%Y-%m-%d %H:%M:%S" with
    | Raise e => Raise e
    | Ok modtime => Ok (StatFields (f_size acc) (Some modtime) (f_isdir acc))
    end
  else Ok acc.

Definition _stat_gfal (path : string) (not_exist_ok : bool) : M value :=
  output <- run_command ["gfal-stat"; path] None not_exist_ok 0 ;;
  match output with
  | ExitCode output =>
      if not_exist_ok && Z.eqb output 2 then ret VNone
      else
        (* the message names [cmd], which this function does not bind *)
        raise (NameError "cmd")
  | _ =>
      lines <- lift (lines_of output) ;;
      fields <- lift (scan_lines _stat_gfal_line lines
                        (StatFields None None None)) ;;
      lift (inode_of_fields path fields)
  end.

Definition _stat_xrootd_line (acc : stat_fields) (l : string)
  : result stat_fields :=
  let l := PyText.strip l in
  if Py.startswith l "Size:" then
    match PyText.split l !! 1%nat with
    | None => Raise (IndexError "list index out of range")
    | Some second =>
        match int second with
        | Raise e => Raise e
        | Ok size => Ok (StatFields (Some size) (f_modtime acc) (f_isdir acc))
        end
    end
  else if Py.startswith l "MTime:" then
    let timestamp := PyText.strip (PyText.replace "MTime:" "" l) in
    match datetime_strptime timestamp "%Y-%m-%d %H:%M:%S" with
    | Raise e => Raise e
    | Ok modtime => Ok (StatFields (f_size acc) (Some modtime) (f_isdir acc))
    end
  else if Py.startswith l "Flags:" then
    let isdir := Py.contains "IsDir" l in
    Ok (StatFields (f_size acc) (f_modtime acc) (Some isdir))
  else Ok acc.

Definition _stat_xrootd (path : string) (not_exist_ok : bool) : M value :=
  r <- split_mgm' path None ;;
  let '(mgm, path) := r in
  let cmd := ["xrdfs"; mgm; "stat"; path] in
  output <- run_command cmd None not_exist_ok 0 ;;
  match output with
  | ExitCode output =>
      if not_exist_ok && Z.eqb output 54 then ret VNone
      else raise (RuntimeError "cmd returned exit code")
  | _ =>
      lines <- lift (lines_of output) ;;
      fields <- lift (scan_lines _stat_xrootd_line lines
                        (StatFields None None None)) ;;
      lift (inode_of_fields path fields)
  end.

Definition stat (path : string) (not_exist_ok : bool) : M value :=
  val <- read_cache "seutils-cache.stat" (PyText.strip path) ;;
  match val with
  | VNone =>
      xrootd <- use_xrootd_path path ;;
      val <- (if xrootd : bool then _stat_xrootd path not_exist_ok
              else _stat_gfal path not_exist_ok) ;;
      write_cache "seutils-cache.stat" (PyText.strip path) val ;;;
      ret val
  | _ => ret val
  end.

Definition stat_function (path : string) (not_exist_ok : bool) : M value :=
  stat path not_exist_ok.

Definition _exists_gfal (path : string) : M value :=
  status <- get_exitcode ["gfal-stat"; path] ;;
  ret (VBool (Z.eqb status 0)).

Definition _exists_xrootd (path : string) : M value :=
  r <- split_mgm' path None ;;
  let '(mgm, path) := r in
  let cmd := ["xrdfs"; mgm; "stat"; path] in
  status <- get_exitcode cmd ;;
  ret (VBool (Z.eqb status 0)).

Definition exists_ (path : string) : M value :=
  val <- read_cache "seutils-cache.exists" (PyText.strip path) ;;
  match val with
  | VNone =>
      xrootd <- use_xrootd_path path ;;
      val <- (if xrootd : bool then _exists_xrootd path
              else _exists_gfal path) ;;
      write_cache "seutils-cache.exists" (PyText.strip path) val ;;;
      ret val
  | _ => ret val
  end.

(** [statinfo.isdir] and [statinfo.isfile] *)
Definition attr_isdir (statinfo : value) : result value :=
  match statinfo with
  | VInode i => Ok (VBool (Inode.isdir i))
  | _ => Raise (AttributeError "isdir")
  end.
Definition attr_isfile (statinfo : value) : result value :=
  match statinfo with
  | VInode i => Ok (VBool (Inode.isfile i))
  | _ => Raise (AttributeError "isfile")
  end.

Definition _isdir_gfal (directory : string) : M value :=
  statinfo <- _stat_gfal directory true ;;
  match statinfo with
  | VNone => ret (VBool false)
  | _ => lift (attr_isdir statinfo)
  end.

Definition _isdir_xrootd (directory : string) : M value :=
  r <- split_mgm' directory None ;;
  let '(mgm, directory) := r in
  let cmd := ["xrdfs"; mgm; "stat"; "-q"; "IsDir"; directory] in
  status <- get_exitcode cmd ;;
  ret (VBool (Z.eqb status 0)).

Definition isdir (directory : string) : M value :=
  val <- read_cache "seutils-cache.isdir" (PyText.strip directory) ;;
  match val with
  | VNone =>
      xrootd <- use_xrootd_path directory ;;
      val <- (if xrootd : bool then _isdir_xrootd directory
              else _isdir_gfal directory) ;;
      write_cache "seutils-cache.isdir" (PyText.strip directory) val ;;;
      ret val
  | _ => ret val
  end.

Definition _isfile_xrootd (path : string) : M value :=
  r <- split_mgm' path None ;;
  let '(mgm, path) := r in
  status <- get_exitcode ["xrdfs"; mgm; "stat"; "-q"; "IsDir"; path] ;;
  (* Error code 55 means path exists, but is not a directory *)
  ret (VBool (Z.eqb status 55)).

Definition _isfile_gfal (path : string) : M value :=
  statinfo <- _stat_gfal path true ;;
  match statinfo with
  | VNone => ret (VBool false)
  | _ => lift (attr_isfile statinfo)
  end.

Definition isfile (path : string) : M value :=
  val <- read_cache "seutils-cache.isfile" (PyText.strip path) ;;
  match val with
  | VNone =>
      xrootd <- use_xrootd_path path ;;
      val <- (if xrootd : bool then _isfile_xrootd path
              else _isfile_gfal path) ;;
      write_cache "seutils-cache.isfile" (PyText.strip path) val ;;;
      ret val
  | _ => ret val
  end.

Definition _is_file_or_dir_gfal (path : string) : M value :=
  statinfo <- _stat_gfal path true ;;
  match statinfo with
  | VNone => ret (VInt 0)
  | VInode i =>
      if Inode.isdir i then ret (VInt 1)
      else if Inode.isfile i then ret (VInt 2)
      else ret VNone
  | _ => raise (AttributeError "isdir")
  end.

Definition _is_file_or_dir_xrootd (path : string) : M value :=
  r <- split_mgm' path None ;;
  let '(mgm, path) := r in
  let cmd := ["xrdfs"; mgm; "stat"; "-q"; "IsDir"; path] in
  status <- get_exitcode cmd ;;
  if Z.eqb status 0 then
    (* Path is a directory *)
    ret (VInt 1)
  else if Z.eqb status 54 then
    (* Path does not exist *)
    ret (VInt 0)
  else if Z.eqb status 55 then
    (* Path is a file *)
    ret (VInt 2)
  else raise (RuntimeError "Command exitted with code; unknown case").

Definition is_file_or_dir (path : string) : M value :=
  val <- read_cache "seutils-cache.isfileordir" (PyText.strip path) ;;
  match val with
  | VNone =>
      xrootd <- use_xrootd_path path ;;
      val <- (if xrootd : bool then _is_file_or_dir_xrootd path
              else _is_file_or_dir_gfal path) ;;
      write_cache "seutils-cache.isfileordir" (PyText.strip path) val ;;;
      ret val
  | _ => ret val
  end.

(** The loops of the two listing functions: blank lines are skipped. *)
Fixpoint listing_lines (entry : string -> result value)
    (output : list string) : result (list value) :=
  match output with
  | [] => Ok []
  | l :: output' =>
      let l := PyText.strip l in
      if Nat.eqb (String.length l) 0 then listing_lines entry output'
      else
        match entry l with
        | Raise e => Raise e
        | Ok c =>
            match listing_lines entry output' with
            | Raise e => Raise e
            | Ok contents => Ok (c :: contents)
            end
        end
  end.

Definition _listdir_xrootd (directory : string) (stat : bool) : M value :=
  r <- split_mgm' directory None ;;
  let '(mgm, path) := r in
  let cmd := ["xrdfs"; mgm; "ls"; path] in
  let cmd := if stat then cmd ++ ["-l"] else cmd in
  output <- run_command cmd None false 0 ;;
  lines <- lift (lines_of output) ;;
  w <- get_world ;;
  contents <- lift (listing_lines
    (fun l =>
       if stat then
         match from_statline_xrootd (DEFAULT_MGM w) l mgm with
         | Raise e => Raise e | Ok i => Ok (VInode i)
         end
       else
         match format (DEFAULT_MGM w) l (Some mgm) with
         | Raise e => Raise e | Ok p => Ok (VStr p)
         end) lines) ;;
  ret (VList contents).

Definition _listdir_gfal (directory : string) (stat : bool) : M value :=
  formatted <- format' directory None ;;
  let cmd := ["gfal-ls"; formatted] in
  let cmd := if stat then cmd ++ ["-l"] else cmd in
  output <- run_command cmd None false 0 ;;
  lines <- lift (lines_of output) ;;
  w <- get_world ;;
  contents <- lift (listing_lines
    (fun l =>
       if stat then
         match from_statline_gfal l directory with
         | Raise e => Raise e | Ok i => Ok (VInode i)
         end
       else
         match format (DEFAULT_MGM w) (PyText.osp_join directory l) None with
         | Raise e => Raise e | Ok p => Ok (VStr p)
         end) lines) ;;
  ret (VList contents).

Definition listdir (directory : string) (stat assume_directory : bool)
  : M value :=
  let key := PyText.strip directory
             +:+ "___stat" +:+ (if stat then "True" else "False") in
  val <- read_cache "seutils-cache.listdir" key ;;
  if falsy val then
    (if negb assume_directory then
       d <- isdir directory ;;
       if falsy d then raise (RuntimeError "is not a valid directory")
       else ret tt
     else ret tt) ;;;
    xrootd <- use_xrootd_path directory ;;
    val <- (if xrootd : bool then _listdir_xrootd directory stat
            else _listdir_gfal directory stat) ;;
    write_cache "seutils-cache.listdir" key val ;;;
    ret val
  else ret val.

(** ** Algorithms that use the interactions *)

Definition MAX_RECURSION_DEPTH : nat := 20.

Definition RecursionBudgetExceeded : exn :=
  RuntimeError "walk reached the maximum recursion depth".

Definition ls (path : string) (stat assume_directory no_expand_directory : bool)
  : M value :=
  path <- format' path None ;;
  protocol <- get_protocol path None ;;
  status <- (if assume_directory then ret (VInt 1) else is_file_or_dir path) ;;
  (* Depending on status, return formatted path to file, directory contents,
     or raise *)
  if eq_int status 0 then raise (RuntimeError "Path does not exist")
  else if eq_int status 1 then
    (* It's a directory *)
    if no_expand_directory then
      (if stat then
         i <- stat_function path false ;; ret (VList [i])
       else ret (VList [VStr path]))
    else listdir path stat true
  else if eq_int status 2 then
    (* It's a file; just return the path to the file *)
    (if stat then
       i <- stat_function path false ;; ret (VList [i])
     else ret (VList [VStr path]))
  else ret VNone.

(** The elements of [contents] as the loops of [_walk] read them: each one
    has to carry [isfile] and [isdir]. *)
Definition inodes_of (contents : value) : result (list Inode.t) :=
  match contents with
  | VList l =>
      map_result (fun c => match c with
                           | VInode i => Ok i
                           | _ => Raise (AttributeError "isfile")
                           end) l
  | VStr EmptyString => Ok []
  | VStr _ => Raise (AttributeError "isfile")
  | _ => Raise (TypeError "object is not iterable")
  end.

(** The loop that reads a generator.  The body receives each yielded triple
    and answers with the list of directories as it leaves it: the yielded
    list is the one [_walk] goes on with, so what the body removes from it
    is not descended into.  The body may raise. *)
Record consumer (St : Type) : Type := Consumer {
  on_inodes : St -> string -> list Inode.t -> list Inode.t ->
              result (St * list Inode.t);
  on_paths : St -> string -> list string -> list string ->
             result (St * list string)
}.
Arguments on_inodes {St} c.
Arguments on_paths {St} c.

(** The body that leaves the yielded lists alone. *)
Definition passive {St} (record : St -> string -> St) : consumer St :=
  Consumer St (fun s path directories _ => Ok (record s path, directories))
             (fun s path dirnames _ => Ok (record s path, dirnames)).

(** A traversal in progress: the result, the [Counter] and the world. *)
Definition walking (St : Type) : Type := (result St * nat * world)%type.

(** [for directory in directories: for i in step directory: yield i] *)
Fixpoint walk_directories {St}
    (step : string -> St -> nat -> world -> walking St)
    (directories : list Inode.t) (s : St) (counter : nat) (w : world)
  : walking St :=
  match directories with
  | [] => (Ok s, counter, w)
  | directory :: directories' =>
      match step (Inode.path directory) s counter w with
      | (Ok s', counter', w') =>
          walk_directories step directories' s' counter' w'
      | (Raise e, counter', w') => (Raise e, counter', w')
      end
  end.

(** [_walk], read to its end by [c]; [limit] is [MAX_RECURSION_DEPTH] and
    [fuel] bounds the depth of the recursion. *)
Fixpoint _walk {St} (limit fuel : nat) (c : consumer St) (stat : bool)
    (path : string) (s : St) (counter : nat) (w : world) : walking St :=
  if Nat.leb limit counter then (Raise RecursionBudgetExceeded, counter, w)
  else
    match fuel with
    | O => (Raise OutOfFuel, counter, w)
    | S fuel' =>
        match ls path true true false w with
        | (Raise e, w) => (Raise e, counter, w)
        | (Ok contents, w) =>
            let counter := (counter + 1)%nat in
            match inodes_of contents with
            | Raise e => (Raise e, counter, w)
            | Ok contents =>
                let files :=
                  PyText.sort_by Inode.basename
                    (List.filter Inode.isfile contents) in
                let directories :=
                  PyText.sort_by Inode.basename
                    (List.filter Inode.isdir contents) in
                let yielded :=
                  if stat then on_inodes c s path directories files
                  else
                    let dirnames := map Inode.path directories in
                    match on_paths c s path dirnames (map Inode.path files) with
                    | Raise e => Raise e
                    | Ok (s', dirnames) =>
                        (* Filter directories again based on dirnames, in
                           case the user modified dirnames after yield *)
                        Ok (s', List.filter
                                  (fun d => existsb (String.eqb (Inode.path d))
                                              dirnames) directories)
                    end in
                match yielded with
                | Raise e => (Raise e, counter, w)
                | Ok (s', directories) =>
                    walk_directories (_walk limit fuel' c stat)
                      directories s' counter w
                end
            end
        end
    end.

(** [walk], read to its end by [c]. *)
Definition walk_with {St} (limit : nat) (c : consumer St) (path : string)
    (stat : bool) (s : St) (w : world) : walking St :=
  match format' path None w with
  | (Raise e, w) => (Raise e, O, w)
  | (Ok path, w) =>
      match is_file_or_dir path w with
      | (Raise e, w) => (Raise e, O, w)
      | (Ok status, w) =>
          if negb (eq_int status 1) then
            (Raise (RuntimeError "is not a directory"), O, w)
          else
            let counter := O in
            _walk limit (S limit) c stat path s counter w
      end
  end.

Definition walk {St} (c : consumer St) (path : string) (stat : bool) (s : St)
  : M St :=
  fun w => let '(r, _, w') := walk_with MAX_RECURSION_DEPTH c path stat s w in
           (r, w').

Definition re_compile (pattern : string) : result (list PyText.item) :=
  match PyText.re_compile pattern with
  | Some r => Ok r
  | None => Raise (ReError "pattern outside the modelled fragment")
  end.

(** The names in [contents] that [regex] matches, for the shortcut of
    [ls_wildcard]. *)
Fixpoint filter_basenames (regex : list PyText.item) (contents : list value)
  : result (list value) :=
  match contents with
  | [] => Ok []
  | VStr c :: contents' =>
      match filter_basenames regex contents' with
      | Raise e => Raise e
      | Ok rest =>
          Ok (if PyText.re_match regex (PyText.osp_basename c)
              then VStr c :: rest else rest)
      end
  | _ :: _ => Raise (TypeError "expected str, bytes or os.PathLike object")
  end.

(** The body of the loop of [ls_wildcard] over [walk]; the state is
    [matches]. *)
Definition wildcard_body (pattern : string) (pattern_level : nat)
  : consumer (list value) :=
  let regex_at (path : string) : result (list PyText.item) :=
    let level := PyText.count "/" path in
    let trimmed_pattern :=
      PyText.replace "*" ".*"
        (PyText.join "/" (take (level + 2) (PyText.split_on "/" pattern))) in
    re_compile trimmed_pattern in
  Consumer (list value)
    (fun matches path directories files =>
       match regex_at path with
       | Raise e => Raise e
       | Ok regex =>
           let directories :=
             List.filter (fun d => PyText.re_match regex (Inode.path d))
               directories in
           if Nat.eqb (PyText.count "/" path + 1) pattern_level then
             Ok (matches ++ map VInode directories
                   ++ map VInode
                        (List.filter
                           (fun f => PyText.re_match regex (Inode.path f))
                           files),
                 [])
           else Ok (matches, directories)
       end)
    (fun matches path directories files =>
       match regex_at path with
       | Raise e => Raise e
       | Ok regex =>
           let directories :=
             List.filter (PyText.re_match regex) directories in
           if Nat.eqb (PyText.count "/" path + 1) pattern_level then
             Ok (matches ++ map VStr directories
                   ++ map VStr (List.filter (PyText.re_match regex) files),
                 [])
           else Ok (matches, directories)
       end).

Definition ls_wildcard (pattern : string) (stat : bool) : M value :=
  pattern <- format' pattern None ;;
  if negb (Py.contains "*" pattern) then ls pattern stat false true
  else
    match Py.rsplit1 "/" pattern with
    | head :: _ =>
        if negb stat && negb (Py.contains "*" head) then
          (* no star in any part but the last one, and no need to stat *)
          match Py.rsplit1 "/" pattern with
          | [directory; pattern] =>
              contents <- ls directory false false false ;;
              if String.eqb pattern "*" then ret contents
              else
                regex <- lift (re_compile (PyText.replace "*" ".*" pattern)) ;;
                match contents with
                | VList contents =>
                    contents <- lift (filter_basenames regex contents) ;;
                    ret (VList contents)
                | _ => raise (TypeError "object is not iterable")
                end
          | _ => raise UnpackError
          end
        else
          let pattern_level := PyText.count "/" pattern in
          (* Get the base pattern before any wild cards *)
          let base :=
            match Py.split1 "*" pattern with
            | before :: _ =>
                match Py.rsplit1 "/" before with
                | b :: _ => b
                | [] => before
                end
            | [] => pattern
            end in
          matches <- walk (wildcard_body pattern pattern_level) base stat [] ;;
          ret (VList matches)
    | [] => raise (IndexError "list index out of range")
    end.

(** ** hadd utilities ([rootutils.py]) *)

(** The prefixes of [d] that a slash follows. *)
Fixpoint prefixes_at_slash (d : string) : list string :=
  match d with
  | EmptyString => []
  | String c d' =>
      (if Ascii.eqb c "/" then [EmptyString] else [])
      ++ map (String c) (prefixes_at_slash d')
  end.

(** The directories above [d], as [os.path.split] finds them one after the
    other: the prefixes of [d] that a slash follows, but for the empty one
    (the root, or the current directory) and for those that end with a
    slash themselves. *)
Definition parents (d : string) : list string :=
  List.filter (fun p => negb (String.eqb p "") && negb (Py.endswith p "/"))
    (prefixes_at_slash d).

(** [os.makedirs] and [shutil.rmtree], on the set of directories that
    exist; a directory is the path it was made under, as written.
    [os.makedirs] makes the directories above [d] that are missing, and then
    [d], which must not exist. *)
Definition os_makedirs (d : string) : M unit :=
  fun w =>
    if decide (d ∈ dirs w) then (Raise (OSError 17), w)
    else (Ok tt,
          set_dirs (fun ds => ds ∪ list_to_set (parents d) ∪ {[d]}) w).

Definition under (d x : string) : bool :=
  String.eqb x d || Py.startswith x (d +:+ "/").

Definition shutil_rmtree (d : string) : M unit :=
  fun w =>
    if decide (d ∈ dirs w)
    then (Ok tt, set_dirs (filter (fun x => under d x = false)) w)
    else (Raise (OSError 2), w).

(** [str(uuid.uuid4())] *)
Definition draw_uuid : M string :=
  fun w => (Ok (uuid4 (uuids w)), set_uuids S w).

Definition _hadd (root_files : list string) (dst : string) (dry : bool)
  : M unit :=
  let cmd := ["hadd"; "-f"; dst] ++ root_files in
  if dry then ret tt
  else
    fun w =>
      match run_command cmd None false 0 w with
      | (Ok _, w') => (Ok tt, w')
      | (Raise (OSError errno), w') =>
          if Z.eqb errno 2 then (Ok tt, w') else (Raise (OSError errno), w')
      | (Raise e, w') => (Raise e, w')
      end.

Definition _hadd_packed (tup : list string * string * bool) : M unit :=
  let '(root_files, dst, dry) := tup in _hadd root_files dst dry.

(** What [map] ends with: the first exception that a task raised, if
    any. *)
Definition pool_result (raised : option exn) : result unit :=
  match raised with
  | Some e => Raise e
  | None => Ok tt
  end.

(** The tasks of one [map], started one by one in the order the pool takes
    them. Each task spawns its command when it is started; [todo] holds the
    tasks not yet started and [raised] the first exception so far. As long
    as no task has raised every task is started; [fuel] bounds their
    number. *)
Fixpoint pool_run {A} (fuel : nat) (f : A -> M unit) (todo : list A)
    (raised : option exn) : M unit :=
  fun w =>
    match todo with
    | [] => (pool_result raised, w)
    | first :: _ =>
        if match raised with
           | Some _ => negb (keeps_on (spawned w))
           | None => false
           end
        then (pool_result raised, w)
        else
          match fuel with
          | O => (Raise OutOfFuel, w)
          | S fuel' =>
              let i :=
                (next_task (spawned w) (length todo) mod length todo)%nat in
              let task := default first (todo !! i) in
              match f task w with
              | (Ok _, w') => pool_run fuel' f (delete i todo) raised w'
              | (Raise e, w') =>
                  pool_run fuel' f (delete i todo) (Some (default e raised)) w'
              end
          end
    end.

(** [mp.Pool(n_threads).map(f, args)] *)
Definition pool_map {A} (n_threads : nat) (f : A -> M unit) (args : list A)
  : M unit :=
  if Nat.eqb n_threads 0
  then raise (ValueError "Number of processes must be at least 1")
  else pool_run (length args) f args None.

(** [int(math.ceil(n / float(d)))] for [d > 0] *)
Definition ceil_div (n d : nat) : nat := ((n + d - 1) / d)%nat.

Fixpoint _hadd_chunks_rec (fuel : nat) (root_files : list string) (dst : string)
    (n_threads chunk_size : nat) (tmpdir : string) (dry : bool) : M unit :=
  if Nat.eqb (length root_files) 0 then
    (* the message names [src], which this function does not bind *)
    raise (NameError "src")
  else if Nat.ltb (length root_files) chunk_size then
    (* No need for chunking. This should also be the final step of the
       recursion *)
    _hadd root_files dst dry
  else if Nat.eqb chunk_size 0 then
    raise (ZeroDivisionError "float division by zero")
  else
    let n_chunks := ceil_div (length root_files) chunk_size in
    (* Make a unique directory for temporary files *)
    u <- draw_uuid ;;
    let tmpdir := PyText.osp_join (PyText.osp_join tmpdir "tmphadd") u in
    os_makedirs tmpdir ;;;
    finally
      (let func_args :=
         map (fun i_chunk =>
                (PyText.slice root_files (i_chunk * chunk_size)
                   ((i_chunk + 1) * chunk_size),
                 PyText.osp_join tmpdir ("chunk" +:+ pretty i_chunk +:+ ".root"),
                 dry))
             (seq 0 n_chunks) in
       let chunk_rootfiles := map (fun a => snd (fst a)) func_args in
       (* Submit to multiprocessing in one go *)
       (if negb dry then pool_map n_threads _hadd_packed func_args
        else ret tt) ;;;
       (* Merge the chunks into the final destination, potentially with
          another chunked merge *)
       match fuel with
       | O => raise OutOfFuel
       | S fuel' =>
           _hadd_chunks_rec fuel' chunk_rootfiles dst n_threads chunk_size
             tmpdir dry
       end)
      (shutil_rmtree tmpdir).

(** [_hadd_chunks]: with a chunk size of two or more every level of the
    recursion has fewer files than the one before, so that the number of
    files bounds the depth. *)
Definition _hadd_chunks (root_files : list string) (dst : string)
    (n_threads chunk_size : nat) (tmpdir : string) (dry : bool) : M unit :=
  _hadd_chunks_rec (length root_files) root_files dst n_threads chunk_size
    tmpdir dry.

(** [hadd_chunks]: [rootutils] does not import [ls_root]. *)
Definition hadd_chunks (src : list string) (dst : string)
    (n_threads chunk_size : nat) (tmpdir : string) (dry : bool) : M unit :=
  raise (NameError "ls_root").

(** ** Notions for the statements *)

(** The world after [k] failed attempts, each followed by a sleep. *)
Definition after_retries (cmd : list string) (k : nat) (w : world) : world :=
  set_slept (fun n => (n + k)%nat)
    (set_spawned (fun l => l ++ repeat cmd k) w).

(** The command that [stat] spawns for [path]. *)
Definition stat_command (DEFAULT_MGM : option string) (xrootd : bool)
    (path : string) : result (list string) :=
  if xrootd then
    match split_mgm DEFAULT_MGM path None with
    | Ok (mgm, lfn) => Ok ["xrdfs"; mgm; "stat"; lfn]
    | Raise e => Raise e
    end
  else Ok ["gfal-stat"; path].

(** [get_protocol] and [use_xrootd_path] read the default mgm and leave the
    world alone. *)
Definition protocol_of (DEFAULT_MGM : option string) (path : string)
    (mgm : option string) : result string :=
  match format DEFAULT_MGM path mgm with
  | Ok p => Ok match Py.partition "://" p with
               | Some (protocol, _) => protocol
               | None => p
               end
  | Raise e => Raise e
  end.

(** The commands that list a directory. *)
Definition is_listing (cmd : list string) : bool :=
  match cmd with
  | "xrdfs" :: _ :: "ls" :: _ => true
  | "gfal-ls" :: _ => true
  | _ => false
  end.

(** [val is None] *)
Definition is_none (val : value) : bool :=
  match val with VNone => true | _ => false end.

(** The shape that the read queries share: look up, compute and store on a
    miss, return.  [miss] is the test of the looked-up value: [is_none] for
    [stat], [exists], [isdir], [isfile] and [is_file_or_dir], [falsy] for
    [listdir]. *)
Definition cached_query (miss : value -> bool) (subcache_name key : string)
    (compute : M value) : M value :=
  val <- read_cache subcache_name key ;;
  if miss val then
    val <- compute ;;
    write_cache subcache_name key val ;;;
    ret val
  else ret val.

(** [steady m]: running [m] leaves the cache switch as it is. *)
Definition steady {A} (m : M A) : Prop :=
  forall w, USE_CACHE (snd (m w)) = USE_CACHE w.

(** [spawns P k m]: running [m] adds at most [k] commands to the ones
    spawned, all of them in [P]. *)
Definition spawns {A} (P : list string -> Prop) (k : nat) (m : M A) : Prop :=
  forall w, exists l,
    spawned (snd (m w)) = spawned w ++ l /\ (length l <= k)%nat /\ Forall P l.



(** ** More of the module: joining, directories, removal and copies *)

Definition _join_protocol_server_lfn (protocol server lfn : string)
  : result string :=
  (* Remove any ':' from the protocol *)
  let protocol := PyText.remove_char ":" protocol in
  (* Strip trailing or opening slashes *)
  let server := PyText.strip_char "/" server in
  if negb (Py.startswith lfn "/") then
    Raise (ValueError
             "Logical file name does not seem to be formatted correctly")
  else Ok ((((protocol +:+ "://") +:+ server) +:+ "/") +:+ lfn).

Definition _mkdir_gfal (directory : string) : M unit :=
  run_command ["gfal-mkdir"; "-p"; directory] None false 0 ;;; ret tt.

Definition _mkdir_xrootd (directory : string) : M unit :=
  r <- split_mgm' directory None ;;
  let '(mgm, directory) := r in
  run_command ["xrdfs"; mgm; "mkdir"; "-p"; directory] None false 0 ;;;
  ret tt.

Definition mkdir (directory : string) : M unit :=
  directory <- format' directory None ;;
  xrootd <- use_xrootd_path directory ;;
  if xrootd : bool then _mkdir_xrootd directory else _mkdir_gfal directory.

Definition _rm_gfal (path : string) (recursive : bool) : M unit :=
  let cmd := ["gfal-rm"; path] in
  let cmd := if recursive then PyText.insert_before_last "-r" cmd else cmd in
  run_command cmd None false 0 ;;; ret tt.

Definition _rm_xrootd (path : string) (recursive : bool) : M unit :=
  r <- split_mgm' path None ;;
  let '(mgm, lfn) := r in
  d <- _isdir_xrootd path ;;
  rm <- (if negb (falsy d) then
           if negb recursive then
             raise (RuntimeError
                      "is a directory but rm instruction is not recursive")
           else ret "rmdir"
         else ret "rm") ;;
  let cmd := ["xrdfs"; mgm; rm; lfn] in
  run_command cmd None false 0 ;;; ret tt.

Definition _rm_eos (path : string) (recursive : bool) : M unit :=
  r <- split_mgm' path None ;;
  let '(mgm, lfn) := r in
  d <- _isdir_xrootd path ;;
  (if negb (falsy d) then
     if negb recursive then
       raise (RuntimeError
                "is a directory but rm instruction is not recursive")
     else ret tt
   else ret tt) ;;;
  let cmd := ["eos"; mgm; "rm"; lfn] in
  let cmd := if recursive then PyText.insert_before_last "-r" cmd else cmd in
  run_command cmd None false 0 ;;; ret tt.

(** [rm]; [find_eos] is what evaluating
    [distutils.spawn.find_executable('eos')] gives after the bare
    [import distutils]: whether an executable was found, or the
    [AttributeError] of a [distutils] whose [spawn] nothing has imported. *)
Definition rm (find_eos : result bool) (path : string) (recursive : bool)
  : M unit :=
  path <- format' path None ;;
  eos_found <- lift find_eos ;;
  use_eos <- (if eos_found : bool then use_xrootd_path path else ret false) ;;
  if use_eos : bool then _rm_eos path recursive else _rm_gfal path recursive.

Definition N_COPY_RETRIES : nat := 0.

(** The keyword arguments of the copy functions, with their defaults. *)
Record cp_kwargs : Type := CpKwargs {
  kw_n_retries : nat;
  kw_create_parent_directory : bool;
  kw_verbose : bool;
  kw_force : bool
}.
Definition cp_defaults : cp_kwargs := CpKwargs N_COPY_RETRIES true true false.

Definition _cp_xrdcp (src dst : string) (kw : cp_kwargs) : M unit :=
  let cmd := ["xrdcp"; src; dst] in
  let cmd := if negb (kw_verbose kw) then PyText.insert1 "-s" cmd else cmd in
  let cmd :=
    if kw_create_parent_directory kw then PyText.insert1 "-p" cmd else cmd in
  let cmd := if kw_force kw then PyText.insert1 "-f" cmd else cmd in
  run_command cmd None false (kw_n_retries kw) ;;; ret tt.

Definition _cp_gfal (src dst : string) (kw : cp_kwargs) : M unit :=
  let cmd := ["gfal-copy"; "-t"; "180"; src; dst] in
  let cmd :=
    if kw_create_parent_directory kw then PyText.insert1 "-p" cmd else cmd in
  let cmd := if kw_verbose kw then PyText.insert1 "-v" cmd else cmd in
  let cmd := if kw_force kw then PyText.insert1 "-f" cmd else cmd in
  run_command cmd None false (kw_n_retries kw) ;;; ret tt.

(** The two copying methods; [None] stands for ['auto'].  Any other string
    is a [KeyError] of the dictionary of methods and is left out. *)
Inductive copier : Type := xrdcp | gfal_copy.

Definition cp (src dst : string) (method : option copier) (kw : cp_kwargs)
  : M unit :=
  (* Heuristic to determine what copy method to use *)
  method <-
    match method with
    | Some m => ret m
    | None =>
        if has_protocol src then
          xrootd <- use_xrootd_path src ;;
          ret (if xrootd : bool then xrdcp else gfal_copy)
        else if has_protocol dst then
          xrootd <- use_xrootd_path dst ;;
          ret (if xrootd : bool then xrdcp else gfal_copy)
        else ret xrdcp
    end ;;
  (* Execute the copy method *)
  match method with
  | xrdcp => _cp_xrdcp src dst kw
  | gfal_copy => _cp_gfal src dst kw
  end.

Definition cp_to_se (src dst : string) (kw : cp_kwargs) : M unit :=
  dst <- format' dst None ;;
  cp src dst None kw.

Definition cp_from_se (src dst : string) (kw : cp_kwargs) : M unit :=
  src <- format' src None ;;
  cp src dst None kw.

(** [cli_flexible_format]; [USER] is [os.environ.get('USER')]. *)
Definition cli_flexible_format (USER : option string) (lfn : string)
    (mgm : option string) : M string :=
  let lfn :=
    if negb (has_protocol lfn) && negb (Py.startswith lfn "/") then
      match USER with
      | Some user => PyText.osp_join ("/store/user/" +:+ user) lfn
      | None => lfn
      end
    else lfn in
  if has_protocol lfn then format' lfn None else format' lfn mgm.

(** The standard CMSSW trees that [_select_most_likely_tree] names. *)
Definition standard_trees : list string :=
  ["MetaData"; "ParameterSets"; "Parentage"; "LuminosityBlocks"; "Runs"].

(** [t in standard_trees] *)
Definition is_standard_tree (t : string) : bool :=
  existsb (String.eqb t) standard_trees.

(** [rootutils._select_most_likely_tree]; with no tree at all the name
    [tree] is read unbound ([UnboundLocalError] is a [NameError]). *)
Definition _select_most_likely_tree (trees : list string) : result string :=
  (* Prefer other trees over these standard CMSSW trees *)
  let filtered_trees :=
    List.filter (fun t => negb (is_standard_tree t)) trees in
  (* Pick the most likely tree *)
  if Nat.eqb (length filtered_trees) 0 && Nat.leb 1 (length trees) then
    Ok (default "" (trees !! 0%nat))
  else if Nat.leb 1 (length filtered_trees) then
    Ok (default "" (filtered_trees !! 0%nat))
  else Raise (NameError "tree").

(** [frame w w']: between [w] and [w'] the settings of the module are the
    same; in dry mode nothing was spawned and nothing slept; with the cache
    off the caches, in memory and stored, are as they were. *)
Definition frame (w w' : world) : Prop :=
  DEFAULT_MGM w' = DEFAULT_MGM w /\
  DRYMODE w' = DRYMODE w /\
  USE_CACHE w' = USE_CACHE w /\
  (DRYMODE w = true -> spawned w' = spawned w /\ slept w' = slept w) /\
  (USE_CACHE w = false -> CACHES w' = CACHES w /\ CACHEDIR w' = CACHEDIR w).

(** [quiet m]: [m] keeps within [frame]. *)
Definition quiet {A} (m : M A) : Prop := forall w, frame w (snd (m w)).

(** The calls a user makes; [walk], which takes the loop that reads it, is
    stated apart. *)
Inductive request : Type :=
| Mkdir (directory : string)
| Rm (find_eos : result bool) (path : string) (recursive : bool)
| Cp (src dst : string) (method : option copier) (kw : cp_kwargs)
| CpToSe (src dst : string) (kw : cp_kwargs)
| CpFromSe (src dst : string) (kw : cp_kwargs)
| Stat (path : string) (not_exist_ok : bool)
| Exists (path : string)
| Isdir (directory : string)
| Isfile (path : string)
| IsFileOrDir (path : string)
| Listdir (directory : string) (stat assume_directory : bool)
| Ls (path : string) (stat assume_directory no_expand_directory : bool)
| LsWildcard (pattern : string) (stat : bool)
| HaddChunks (root_files : list string) (dst : string)
    (n_threads chunk_size : nat) (tmpdir : string) (dry : bool).

(** The world after a call. *)
Definition served (r : request) (w : world) : world :=
  match r with
  | Mkdir directory => snd (mkdir directory w)
  | Rm find_eos path recursive => snd (rm find_eos path recursive w)
  | Cp src dst method kw => snd (cp src dst method kw w)
  | CpToSe src dst kw => snd (cp_to_se src dst kw w)
  | CpFromSe src dst kw => snd (cp_from_se src dst kw w)
  | Stat path not_exist_ok => snd (stat path not_exist_ok w)
  | Exists path => snd (exists_ path w)
  | Isdir directory => snd (isdir directory w)
  | Isfile path => snd (isfile path w)
  | IsFileOrDir path => snd (is_file_or_dir path w)
  | Listdir directory stat assume_directory =>
      snd (listdir directory stat assume_directory w)
  | Ls path stat assume_directory no_expand_directory =>
      snd (ls path stat assume_directory no_expand_directory w)
  | LsWildcard pattern stat => snd (ls_wildcard pattern stat w)
  | HaddChunks root_files dst n_threads chunk_size tmpdir dry =>
      snd (_hadd_chunks root_files dst n_threads chunk_size tmpdir dry w)
  end.

(** The switches of the module: [drymode], [use_cache] and
    [set_default_mgm]. *)
Definition drymode (flag : bool) : M unit :=
  fun w => (Ok tt, World (DEFAULT_MGM w) flag (USE_CACHE w) (CACHES w)
                     (CACHEDIR w) (spawned w) (slept w) (dirs w) (uuids w)).

Definition use_cache (flag : bool) : M unit :=
  fun w => (Ok tt, World (DEFAULT_MGM w) (DRYMODE w) flag (CACHES w)
                     (CACHEDIR w) (spawned w) (slept w) (dirs w) (uuids w)).

Definition set_default_mgm (mgm : string) : M unit :=
  fun w => (Ok tt, World (Some mgm) (DRYMODE w) (USE_CACHE w) (CACHES w)
                     (CACHEDIR w) (spawned w) (slept w) (dirs w) (uuids w)).

(** * Properties *)

Example format_bare :
  format None "/store/user" (Some "root://cmseos.fnal.gov")
  = Ok "root://cmseos.fnal.gov//store/user".
Proof. reflexivity. Qed.

Example split_mgm_full :
  split_mgm None "root://cmseos.fnal.gov//store/user" None
  = Ok ("root://cmseos.fnal.gov", "/store/user").
Proof. reflexivity. Qed.

(** ** Facts about the string primitives *)
Section StringFacts.

Lemma append_nil_r (s : string) : s +:+ "" = s.
Proof. induction s as [|c s IH]; simpl; [reflexivity | now rewrite IH]. Qed.

Lemma append_assoc (s t u : string) : (s +:+ t) +:+ u = s +:+ t +:+ u.
Proof. induction s as [|c s IH]; simpl; [reflexivity | now rewrite IH]. Qed.

Lemma removeprefix_Some pre s r :
  Py.removeprefix pre s = Some r <-> s = pre +:+ r.
Proof.
  revert s; induction pre as [|a pre IH]; intros s; simpl.
  - split; congruence.
  - destruct s as [|b s]; [split; discriminate|].
    destruct (Ascii.eqb_spec a b) as [->|Hab].
    + rewrite IH. split; congruence.
    + split; [discriminate | congruence].
Qed.

Lemma removeprefix_app pre r : Py.removeprefix pre (pre +:+ r) = Some r.
Proof. now apply removeprefix_Some. Qed.

Lemma removeprefix_length pre s r :
  Py.removeprefix pre s = Some r ->
  (String.length pre <= String.length s)%nat.
Proof.
  revert s; induction pre as [|a pre IH]; intros [|b s]; simpl;
    try lia; try discriminate.
  destruct (Ascii.eqb a b); [|discriminate].
  intros H; apply IH in H; lia.
Qed.

(** No occurrence appears at the head of [s +:+ t] that is not at the head
    of [s] already, when [s] is long enough to hold one. *)
Lemma removeprefix_None_app pre s t :
  Py.removeprefix pre s = None ->
  (String.length pre <= String.length s)%nat ->
  Py.removeprefix pre (s +:+ t) = None.
Proof.
  revert s; induction pre as [|a pre IH]; intros [|b s]; simpl;
    try discriminate; try lia.
  destruct (Ascii.eqb a b); [|reflexivity].
  intros H Hl; apply IH; [assumption | lia].
Qed.

Lemma partition_Some sep s a b :
  Py.partition sep s = Some (a, b) -> s = a +:+ sep +:+ b.
Proof.
  revert a b; induction s as [|c s IH]; intros a b; simpl.
  - destruct (Py.removeprefix sep "") as [r|] eqn:E; [|discriminate].
    intros [= <- <-]. now apply removeprefix_Some in E.
  - destruct (Py.removeprefix sep (String c s)) as [r|] eqn:E.
    + intros [= <- <-]. now apply removeprefix_Some in E.
    + destruct (Py.partition sep s) as [[a' b']|]; [|discriminate].
      intros [= <- <-]. simpl. f_equal. now apply IH.
Qed.

Lemma partition_length sep s a b :
  Py.partition sep s = Some (a, b) ->
  (String.length sep <= String.length s)%nat.
Proof.
  revert a b; induction s as [|c s IH]; intros a b; simpl.
  - destruct (Py.removeprefix sep "") as [r|] eqn:E; [|discriminate].
    intros _. now apply removeprefix_length in E.
  - destruct (Py.removeprefix sep (String c s)) as [r|] eqn:E.
    + intros _. now apply removeprefix_length in E.
    + destruct (Py.partition sep s) as [[a' b']|] eqn:E'; [|discriminate].
      intros _. specialize (IH _ _ eq_refl). lia.
Qed.

(** The leftmost occurrence stays the leftmost one when text is appended. *)
Lemma partition_app sep s t a b :
  Py.partition sep s = Some (a, b) ->
  Py.partition sep (s +:+ t) = Some (a, b +:+ t).
Proof.
  revert a b; induction s as [|c s IH]; intros a b; simpl.
  - destruct (Py.removeprefix sep "") as [r|] eqn:E; [|discriminate].
    intros [= <- <-]. apply removeprefix_Some in E.
    destruct sep; [|discriminate]. simpl in E. subst r.
    now destruct t.
  - destruct (Py.removeprefix sep (String c s)) as [r|] eqn:E.
    + intros [= <- <-]. apply removeprefix_Some in E.
      change (String c (s +:+ t)) with (String c s +:+ t).
      rewrite E, append_assoc, removeprefix_app. reflexivity.
    + destruct (Py.partition sep s) as [[a' b']|] eqn:E'; [|discriminate].
      intros [= <- <-].
      change (String c (s +:+ t)) with (String c s +:+ t).
      assert (Hlen := partition_length _ _ _ _ E').
      rewrite removeprefix_None_app; [| assumption | simpl; lia].
      simpl. now rewrite (IH _ _ eq_refl).
Qed.

Lemma endswith_slash_cons c s :
  s <> "" -> Py.endswith (String c s) "/" = Py.endswith s "/".
Proof.
  intros Hs. destruct s as [|d s]; [congruence|].
  change (Py.endswith (String c (String d s)) "/")
    with (String.eqb (String c (String d s)) "/" || Py.endswith (String d s) "/").
  replace (String.eqb (String c (String d s)) "/") with false; [reflexivity|].
  symmetry. now apply String.eqb_neq.
Qed.

Lemma endswith_slash_app s t :
  t <> "" -> Py.endswith (s +:+ t) "/" = Py.endswith t "/".
Proof.
  intros Ht. induction s as [|c s IH]; [reflexivity|].
  change (String c s +:+ t) with (String c (s +:+ t)).
  rewrite endswith_slash_cons; [assumption|].
  destruct s; simpl; [assumption | discriminate].
Qed.

Lemma partition_cons sep c s :
  Py.partition sep (String c s) =
  match Py.removeprefix sep (String c s) with
  | Some rest => Some ("", rest)
  | None =>
      match Py.partition sep s with
      | Some (a, b) => Some (String c a, b)
      | None => None
      end
  end.
Proof. reflexivity. Qed.

Lemma removeprefix_cons a pre b s :
  Py.removeprefix (String a pre) (String b s)
  = if Ascii.eqb a b then Py.removeprefix pre s else None.
Proof. reflexivity. Qed.

Lemma endswith_single c : Py.endswith (String c "") "/" = Ascii.eqb c "/".
Proof.
  cbv [Py.endswith String.eqb]. now destruct (Ascii.eqb c "/").
Qed.

(** The text in front of the leftmost double slash has no trailing
    slash. *)
Lemma partition_dslash_head rest server lfn :
  Py.partition "//" rest = Some (server, lfn) ->
  Py.endswith server "/" = false.
Proof.
  revert server lfn; induction rest as [|c rest IH]; intros server lfn.
  - discriminate.
  - rewrite partition_cons.
    destruct (Py.removeprefix "//" (String c rest)) as [r|] eqn:E.
    + intros [= <- <-]. reflexivity.
    + destruct (Py.partition "//" rest) as [[a b]|] eqn:E'; [|discriminate].
      intros [= <- <-]. specialize (IH _ _ eq_refl).
      destruct a as [|d a].
      * (* the occurrence is at the head of [rest]: [c] is no slash *)
        apply partition_Some in E'. simpl in E'. subst rest.
        simpl in E. rewrite endswith_single.
        destruct (Ascii.eqb_spec "/" c) as [<-|Hc]; [discriminate|].
        destruct (Ascii.eqb_spec c "/") as [->|]; [congruence|reflexivity].
      * rewrite endswith_slash_cons; [assumption | discriminate].
Qed.

(** Where the leftmost double slash of [server +:+ "//" +:+ lfn] is. *)
Lemma partition_dslash_at server lfn :
  Py.partition "//" server = None ->
  Py.endswith server "/" = false ->
  Py.partition "//" (server +:+ "//" +:+ lfn) = Some (server, lfn).
Proof.
  induction server as [|c server IH]; intros Hno Hend.
  - reflexivity.
  - change (String c server +:+ "//" +:+ lfn)
      with (String c (server +:+ "//" +:+ lfn)).
    rewrite partition_cons in Hno |- *.
    destruct (Py.removeprefix "//" (String c server)) as [r|] eqn:Hp;
      [discriminate|].
    destruct (Py.partition "//" server) as [[a b]|] eqn:E; [discriminate|].
    assert (Hend' : Py.endswith server "/" = false).
    { destruct server as [|d s']; [reflexivity|].
      rewrite endswith_slash_cons in Hend; [assumption | discriminate]. }
    assert (Hhead : Py.removeprefix "//" (String c (server +:+ "//" +:+ lfn)) = None).
    { simpl. destruct (Ascii.eqb_spec "/" c) as [<-|]; [|reflexivity].
      destruct server as [|d s']; [discriminate Hend|].
      simpl. simpl in Hp.
      destruct (Ascii.eqb "/" d); [discriminate | reflexivity]. }
    rewrite Hhead, (IH eq_refl Hend'). reflexivity.
Qed.

End StringFacts.

(** ** The address model *)
Section AddressModel.

Variable DEFAULT_MGM : option string.

Lemma startswith_slash lfn :
  Py.startswith lfn "/" = true <-> exists l, lfn = "/" +:+ l.
Proof.
  unfold Py.startswith.
  destruct (Py.removeprefix "/" lfn) as [l|] eqn:E.
  - apply removeprefix_Some in E. split; eauto.
  - split; [discriminate|]. intros [l ->].
    rewrite removeprefix_app in E. discriminate.
Qed.

(** A physical file name splits exactly when it reads
    [protocol://server//rest] with the two separators leftmost. *)
Lemma split_protocol_pfn_Ok filename protocol server lfn :
  split_protocol_pfn filename = Ok (protocol, server, lfn) <->
  exists rest l,
    Py.partition "://" filename = Some (protocol, rest) /\
    Py.partition "//" rest = Some (server, l) /\
    lfn = "/" +:+ l.
Proof.
  unfold split_protocol_pfn, has_protocol, Py.contains, Py.split1.
  destruct (Py.partition "://" filename) as [[p rest]|] eqn:E1; simpl.
  - destruct (Py.partition "//" rest) as [[s l]|] eqn:E2; simpl.
    + split.
      * intros [= <- <- <-]. eauto.
      * intros (rest' & l' & [= <- <-] & H2 & ->).
        rewrite E2 in H2. now injection H2 as <- <-.
    + split; [discriminate|].
      intros (rest' & l' & [= <- <-] & H2 & _). congruence.
  - split; [discriminate|]. intros (rest' & l' & H1 & _). discriminate.
Qed.

Lemma split_protocol_pfn_has_protocol filename r :
  split_protocol_pfn filename = Ok r -> has_protocol filename = true.
Proof.
  unfold split_protocol_pfn. now destruct (has_protocol filename).
Qed.

(** The pieces of a physical file name, put together again. *)
Lemma split_protocol_pfn_join filename protocol server lfn :
  split_protocol_pfn filename = Ok (protocol, server, lfn) ->
  filename = (protocol +:+ "://" +:+ server) +:+ "/" +:+ lfn
  /\ Py.startswith lfn "/" = true
  /\ Py.endswith server "/" = false.
Proof.
  intros (rest & l & H1 & H2 & ->)%split_protocol_pfn_Ok.
  split; [|split].
  - apply partition_Some in H1. apply partition_Some in H2.
    subst rest filename. now rewrite !append_assoc.
  - apply startswith_slash. eauto.
  - eapply partition_dslash_head; eassumption.
Qed.

Lemma mgm_endswith_slash protocol server :
  Py.endswith (protocol +:+ "://" +:+ server) "/"
  = if String.eqb server "" then true else Py.endswith server "/".
Proof.
  destruct (String.eqb_spec server "") as [->|Hs].
  - rewrite endswith_slash_app; [reflexivity | discriminate].
  - replace (protocol +:+ "://" +:+ server)
      with ((protocol +:+ "://") +:+ server) by apply append_assoc.
    now apply endswith_slash_app.
Qed.

(** [split_mgm] on a path that names its server. *)
Lemma split_mgm_embedded path protocol server lfn mgm :
  split_protocol_pfn path = Ok (protocol, server, lfn) ->
  split_mgm DEFAULT_MGM path mgm =
  match mgm with
  | Some m =>
      if String.eqb (protocol +:+ "://" +:+ server) m
      then Ok (protocol +:+ "://" +:+ server, lfn)
      else Raise ConflictingServer
  | None => Ok (protocol +:+ "://" +:+ server, lfn)
  end.
Proof.
  intros H. unfold split_mgm, _split_mgm_pfn.
  rewrite (split_protocol_pfn_has_protocol _ _ H), H.
  destruct (split_protocol_pfn_join _ _ _ _ H) as (_ & Hl & _).
  destruct mgm as [m|]; simpl.
  - destruct (String.eqb _ m); simpl; [now rewrite Hl | reflexivity].
  - now rewrite Hl.
Qed.

(** [format] gives back a path that names a non-empty server. *)
Lemma format_embedded path protocol server lfn :
  split_protocol_pfn path = Ok (protocol, server, lfn) ->
  server <> "" ->
  format DEFAULT_MGM path None = Ok path.
Proof.
  intros H Hs. unfold format.
  rewrite (split_mgm_embedded _ _ _ _ None H).
  destruct (split_protocol_pfn_join _ _ _ _ H) as (Hp & Hl & He).
  unfold _join_mgm_lfn. rewrite Hl, mgm_endswith_slash.
  apply String.eqb_neq in Hs. rewrite Hs, He. cbn [negb].
  now rewrite append_assoc, <- Hp.
Qed.

(** A bare logical path joined to a well-formed server splits into that
    server and that path again. *)
Lemma split_protocol_pfn_joined mgm protocol server p :
  Py.partition "://" mgm = Some (protocol, server) ->
  Py.contains "//" server = false ->
  Py.endswith mgm "/" = false ->
  Py.startswith p "/" = true ->
  split_protocol_pfn (mgm +:+ "/" +:+ p) = Ok (protocol, server, p)
  /\ mgm = protocol +:+ "://" +:+ server.
Proof.
  intros Hm Hno Hend [l ->]%startswith_slash.
  assert (Hmgm := partition_Some _ _ _ _ Hm).
  split; [|assumption].
  apply split_protocol_pfn_Ok. exists (server +:+ "//" +:+ l), l.
  split; [|split; [|reflexivity]].
  - now rewrite (partition_app _ _ _ _ _ Hm).
  - apply partition_dslash_at.
    + unfold Py.contains in Hno. now destruct (Py.partition "//" server).
    + rewrite Hmgm, mgm_endswith_slash in Hend.
      now destruct (String.eqb server "").
Qed.

(** C4 (amended). For every bare logical path [p] starting with a slash and
    every server [mgm] of the form [protocol://server] whose server part
    holds no double slash and which has no trailing slash, parsing the joined
    string of the resolved address gives the resolved address back:
    [split_mgm (format p mgm)] is the pair [(mgm, p)] that [split_mgm p mgm]
    produces. *)
Theorem split_mgm_format_roundtrip p mgm protocol server :
  Py.partition "://" mgm = Some (protocol, server) ->
  Py.contains "//" server = false ->
  Py.endswith mgm "/" = false ->
  Py.startswith p "/" = true ->
  has_protocol p = false ->
  split_mgm DEFAULT_MGM p (Some mgm) = Ok (mgm, p) /\
  format DEFAULT_MGM p (Some mgm) = Ok (mgm +:+ "/" +:+ p) /\
  split_mgm DEFAULT_MGM (mgm +:+ "/" +:+ p) None = Ok (mgm, p).
Proof.
  intros Hm Hno Hend Hp Hbare.
  assert (Hres : split_mgm DEFAULT_MGM p (Some mgm) = Ok (mgm, p)).
  { unfold split_mgm. now rewrite Hbare, Hp. }
  split; [assumption|]. split.
  - unfold format. rewrite Hres. unfold _join_mgm_lfn.
    rewrite Hp, Hend. cbn [negb]. now rewrite append_assoc.
  - destruct (split_protocol_pfn_joined _ _ _ _ Hm Hno Hend Hp) as [H ->].
    now rewrite (split_mgm_embedded _ _ _ _ None H).
Qed.

(** C8 (amended). [split_mgm] raises the conflicting-mgm error for every
    path whose embedded mgm differs from the mgm passed explicitly, and
    succeeds whenever the two match; when they match and the server part is
    not empty it is idempotent: joining the result and resolving it against
    the same mgm gives the same pair. *)
Theorem split_mgm_explicit_server path protocol server lfn mgm :
  split_protocol_pfn path = Ok (protocol, server, lfn) ->
  (protocol +:+ "://" +:+ server <> mgm ->
   split_mgm DEFAULT_MGM path (Some mgm) = Raise ConflictingServer) /\
  (protocol +:+ "://" +:+ server = mgm ->
   split_mgm DEFAULT_MGM path (Some mgm) = Ok (mgm, lfn) /\
   (server <> "" ->
    exists joined,
      _join_mgm_lfn mgm lfn = Ok joined /\
      split_mgm DEFAULT_MGM joined (Some mgm) = Ok (mgm, lfn))).
Proof.
  intros H. rewrite (split_mgm_embedded _ _ _ _ (Some mgm) H). split.
  - intros Hne. apply String.eqb_neq in Hne. now rewrite Hne.
  - intros <-. rewrite String.eqb_refl. split; [reflexivity|].
    intros Hs. exists path.
    assert (Hf := format_embedded _ _ _ _ H Hs). unfold format in Hf.
    rewrite (split_mgm_embedded _ _ _ _ None H) in Hf.
    split; [assumption|].
    rewrite (split_mgm_embedded _ _ _ _ (Some _) H).
    now rewrite String.eqb_refl.
Qed.

(** C10 (amended). [format] is idempotent on every path that names a
    protocol and a non-empty server: it gives the path back, the path parses
    to an mgm without a trailing slash and a logical path that starts with a
    slash, and joining the two reproduces the path. *)
Theorem format_idempotent s s' protocol server lfn :
  has_protocol s = true ->
  format DEFAULT_MGM s None = Ok s' ->
  split_protocol_pfn s = Ok (protocol, server, lfn) ->
  server <> "" ->
  format DEFAULT_MGM s' None = Ok s' /\
  exists mgm,
    split_mgm DEFAULT_MGM s' None = Ok (mgm, lfn) /\
    Py.endswith mgm "/" = false /\
    Py.startswith lfn "/" = true /\
    _join_mgm_lfn mgm lfn = Ok s'.
Proof.
  intros _ Hf H Hs.
  assert (Hid := format_embedded _ _ _ _ H Hs).
  rewrite Hid in Hf. injection Hf as <-.
  split; [assumption|].
  exists (protocol +:+ "://" +:+ server).
  destruct (split_protocol_pfn_join _ _ _ _ H) as (_ & Hl & He).
  split; [apply (split_mgm_embedded _ _ _ _ None H)|].
  split.
  { rewrite mgm_endswith_slash. apply String.eqb_neq in Hs. now rewrite Hs. }
  split; [assumption|].
  unfold format in Hid. now rewrite (split_mgm_embedded _ _ _ _ None H) in Hid.
Qed.

End AddressModel.

(** C4, as stated, fails for a server configured with a trailing slash,
    which [_join_mgm_lfn] accepts: the parse of the joined string drops the
    slash. *)
Lemma split_mgm_format_roundtrip_fails :
  ~ (forall DEFAULT_MGM p mgm s,
        Py.startswith p "/" = true ->
        format DEFAULT_MGM p (Some mgm) = Ok s ->
        split_mgm DEFAULT_MGM s None = split_mgm DEFAULT_MGM p (Some mgm)).
Proof.
  intros H.
  specialize (H None "/store/user" "root://cmseos.fnal.gov/"
                "root://cmseos.fnal.gov//store/user" eq_refl eq_refl).
  vm_compute in H. discriminate H.
Qed.

Lemma split_mgm_format_roundtrip_witness :
  split_mgm None "/store/user" (Some "root://cmseos.fnal.gov")
  = Ok ("root://cmseos.fnal.gov", "/store/user") /\
  format None "/store/user" (Some "root://cmseos.fnal.gov")
  = Ok "root://cmseos.fnal.gov//store/user" /\
  split_mgm None "root://cmseos.fnal.gov//store/user" None
  = Ok ("root://cmseos.fnal.gov", "/store/user").
Proof.
  apply (split_mgm_format_roundtrip None "/store/user"
           "root://cmseos.fnal.gov" "root" "cmseos.fnal.gov");
    reflexivity.
Defined.

(** C8, as stated, fails for a path with an empty server part: the embedded
    and the passed mgm match and the path resolves, but the joined result
    does not resolve again. *)
Lemma split_mgm_explicit_server_fails :
  ~ (forall DEFAULT_MGM path mgm r,
        has_protocol path = true ->
        split_mgm DEFAULT_MGM path (Some mgm) = Ok r ->
        exists joined,
          _join_mgm_lfn (fst r) (snd r) = Ok joined /\
          split_mgm DEFAULT_MGM joined (Some mgm) = Ok r).
Proof.
  intros H.
  destruct (H None "root:////x" "root://" ("root://", "/x") eq_refl eq_refl)
    as (joined & Hj & Hs).
  vm_compute in Hj. injection Hj as <-. vm_compute in Hs. discriminate Hs.
Qed.

Lemma split_mgm_explicit_server_witness :
  ("root" +:+ "://" +:+ "cmseos.fnal.gov" <> "root://cmseos.fnal.gov" ->
   split_mgm None "root://cmseos.fnal.gov//store/user"
     (Some "root://cmseos.fnal.gov")
   = Raise ConflictingServer) /\
  ("root" +:+ "://" +:+ "cmseos.fnal.gov" = "root://cmseos.fnal.gov" ->
   split_mgm None "root://cmseos.fnal.gov//store/user"
     (Some "root://cmseos.fnal.gov")
   = Ok ("root://cmseos.fnal.gov", "/store/user") /\
   ("cmseos.fnal.gov" <> "" ->
    exists joined,
      _join_mgm_lfn "root://cmseos.fnal.gov" "/store/user" = Ok joined /\
      split_mgm None joined (Some "root://cmseos.fnal.gov")
      = Ok ("root://cmseos.fnal.gov", "/store/user"))).
Proof.
  apply (split_mgm_explicit_server None "root://cmseos.fnal.gov//store/user"
           "root" "cmseos.fnal.gov" "/store/user" "root://cmseos.fnal.gov").
  reflexivity.
Defined.

(** C10, as stated, fails for a path with an empty server part: [format]
    succeeds on it and fails on its own result. *)
Lemma format_idempotent_fails :
  ~ (forall DEFAULT_MGM s s',
        has_protocol s = true ->
        format DEFAULT_MGM s None = Ok s' ->
        format DEFAULT_MGM s' None = Ok s').
Proof.
  intros H. specialize (H None "root:////x" "root:///x" eq_refl eq_refl).
  vm_compute in H. discriminate H.
Qed.

Lemma format_idempotent_witness :
  format None "root://cmseos.fnal.gov//store/user" None
  = Ok "root://cmseos.fnal.gov//store/user" /\
  exists mgm,
    split_mgm None "root://cmseos.fnal.gov//store/user" None
    = Ok (mgm, "/store/user") /\
    Py.endswith mgm "/" = false /\
    Py.startswith "/store/user" "/" = true /\
    _join_mgm_lfn mgm "/store/user" = Ok "root://cmseos.fnal.gov//store/user".
Proof.
  apply (format_idempotent None "root://cmseos.fnal.gov//store/user"
           "root://cmseos.fnal.gov//store/user" "root" "cmseos.fnal.gov"
           "/store/user"); [reflexivity | reflexivity | reflexivity | discriminate].
Defined.

(** ** The command runner *)

Lemma bind_Ok {A B} (m : M A) (k : A -> M B) w a w' :
  m w = (Ok a, w') -> bind m k w = k a w'.
Proof. unfold bind. now intros ->. Qed.

Lemma bind_Raise {A B} (m : M A) (k : A -> M B) w e w' :
  m w = (Raise e, w') -> bind m k w = (Raise e, w').
Proof. unfold bind. now intros ->. Qed.

(** A dry run spawns nothing and returns the empty output. *)
Lemma run_command_dry cmd non_zero_exitcode_ok n_retries w :
  run_command cmd (Some true) non_zero_exitcode_ok n_retries w = (Ok DryRun, w).
Proof. unfold run_command. now destruct n_retries. Qed.

(** A command that exits with status 0 returns its output and is spawned
    once. *)
Lemma run_command_success cmd non_zero_exitcode_ok n_retries w output :
  DRYMODE w = false ->
  popen (spawned w) cmd = Exited output 0 ->
  run_command cmd None non_zero_exitcode_ok n_retries w
  = (Ok (Output output), set_spawned (fun l => l ++ [cmd]) w).
Proof.
  intros Hdry Hp. unfold run_command. rewrite Hdry.
  destruct n_retries; simpl; now rewrite Hp.
Qed.


Lemma after_retries_0 cmd w : after_retries cmd 0 w = w.
Proof.
  destruct w. unfold after_retries, set_slept, set_spawned. simpl.
  now rewrite app_nil_r, Nat.add_0_r.
Qed.

Lemma after_retries_S cmd k w :
  after_retries cmd k (set_slept S (set_spawned (fun l => l ++ [cmd]) w))
  = after_retries cmd (S k) w.
Proof.
  destruct w. unfold after_retries, set_slept, set_spawned. simpl.
  rewrite <- app_assoc. f_equal. lia.
Qed.

(** While the command keeps failing and retries remain, the runner sleeps
    and starts over; it raises [CalledProcessError] once the retries are
    used up, after [n_retries + 1] attempts and [n_retries] sleeps. *)
Lemma run_command_attempts_exhausted cmd returncode fuel n_retries i_attempt w :
  (forall history, exists output,
      popen history cmd = Exited output returncode) ->
  returncode <> 0 ->
  (i_attempt + fuel = n_retries)%nat ->
  run_command_attempts fuel cmd false false n_retries i_attempt w
  = (Raise (CalledProcessError cmd returncode),
     set_spawned (fun l => l ++ [cmd]) (after_retries cmd fuel w)).
Proof.
  intros Hp Hrc. revert i_attempt w.
  induction fuel as [|fuel IH]; intros i_attempt w Hfuel; simpl.
  - destruct (Hp (spawned w)) as [output ->].
    apply Z.eqb_neq in Hrc. rewrite Hrc.
    replace (i_attempt <? n_retries)%nat with false
      by (symmetry; apply Nat.ltb_ge; lia).
    now rewrite after_retries_0.
  - destruct (Hp (spawned w)) as [output ->].
    assert (Hrc' := Hrc). apply Z.eqb_neq in Hrc'. rewrite Hrc'.
    replace (i_attempt <? n_retries)%nat with true
      by (symmetry; apply Nat.ltb_lt; lia).
    rewrite IH by lia. now rewrite after_retries_S.
Qed.

Lemma run_command_retries_exhausted cmd returncode n_retries w :
  DRYMODE w = false ->
  (forall history, exists output,
      popen history cmd = Exited output returncode) ->
  returncode <> 0 ->
  run_command cmd None false n_retries w
  = (Raise (CalledProcessError cmd returncode),
     set_spawned (fun l => l ++ [cmd]) (after_retries cmd n_retries w)).
Proof.
  intros Hdry Hp Hrc. unfold run_command. rewrite Hdry.
  now apply run_command_attempts_exhausted.
Qed.

(** The bound on the loop of [run_command] is never reached. *)
Lemma run_command_attempts_fuel cmd dry ok fuel n_retries i_attempt w :
  (n_retries <= i_attempt + fuel)%nat ->
  fst (run_command_attempts fuel cmd dry ok n_retries i_attempt w)
  <> Raise OutOfFuel.
Proof.
  revert i_attempt w. induction fuel as [|fuel IH]; intros i_attempt w Hfuel;
    simpl; destruct dry; try discriminate;
    destruct (popen (spawned w) cmd) as [output returncode|errno];
    try discriminate;
    destruct (Z.eqb returncode 0); try discriminate;
    destruct ok; try discriminate;
    destruct (Nat.ltb_spec i_attempt n_retries); try discriminate;
    try lia.
  apply IH. lia.
Qed.

Lemma run_command_total cmd dry ok n_retries w :
  fst (run_command cmd dry ok n_retries w) <> Raise OutOfFuel.
Proof. unfold run_command. apply run_command_attempts_fuel. lia. Qed.

(** The branch of [run_command] for an accepted non-zero exit code. *)
Lemma run_command_return_code cmd n_retries w output returncode :
  DRYMODE w = false ->
  popen (spawned w) cmd = Exited output returncode ->
  returncode <> 0 ->
  run_command cmd None true n_retries w
  = (Raise (NameError "return_code"), set_spawned (fun l => l ++ [cmd]) w).
Proof.
  intros Hdry Hp Hrc%Z.eqb_neq. unfold run_command. rewrite Hdry.
  destruct n_retries; simpl; now rewrite Hp, Hrc.
Qed.

(** C1. With [non_zero_exitcode_ok=True] and a command that exits with a
    non-zero status, [run_command] does not return the exit code: the call
    that logs the status names [return_code], which is not bound, and the
    runner raises [NameError]. *)
Theorem run_command_non_zero_exitcode_ok cmd n_retries w output returncode :
  DRYMODE w = false ->
  popen (spawned w) cmd = Exited output returncode ->
  returncode <> 0 ->
  run_command cmd None true n_retries w
  = (Raise (NameError "return_code"), set_spawned (fun l => l ++ [cmd]) w).
Proof. apply run_command_return_code. Qed.

(** ** The exit codes of the xrootd tools *)

Lemma split_mgm'_eq path mgm w :
  split_mgm' path mgm w = (split_mgm (DEFAULT_MGM w) path mgm, w).
Proof. reflexivity. Qed.

(** What [_is_file_or_dir_xrootd] and [_isfile_xrootd] make of the exit
    code of the query. *)
Lemma xrootd_exit_codes path mgm lfn w status w' :
  split_mgm (DEFAULT_MGM w) path None = Ok (mgm, lfn) ->
  get_exitcode ["xrdfs"; mgm; "stat"; "-q"; "IsDir"; lfn] w = (Ok status, w') ->
  (status = 0 -> _is_file_or_dir_xrootd path w = (Ok (VInt 1), w')) /\
  (status = 54 -> _is_file_or_dir_xrootd path w = (Ok (VInt 0), w')) /\
  (status = 55 -> _is_file_or_dir_xrootd path w = (Ok (VInt 2), w')) /\
  (status <> 0 -> status <> 54 -> status <> 55 ->
   exists msg, _is_file_or_dir_xrootd path w = (Raise (RuntimeError msg), w')) /\
  (exists b, _isfile_xrootd path w = (Ok (VBool b), w')
             /\ (b = true <-> status = 55)).
Proof.
  intros Hs Hx.
  assert (Hsplit : split_mgm' path None w = (Ok (mgm, lfn), w))
    by (now rewrite split_mgm'_eq, Hs).
  unfold _is_file_or_dir_xrootd, _isfile_xrootd.
  rewrite !(bind_Ok _ _ _ _ _ Hsplit), !(bind_Ok _ _ _ _ _ Hx).
  repeat split.
  - now intros ->.
  - now intros ->.
  - now intros ->.
  - intros H0%Z.eqb_neq H54%Z.eqb_neq H55%Z.eqb_neq.
    rewrite H0, H54, H55. eexists. reflexivity.
  - exists (Z.eqb status 55). split; [reflexivity | apply Z.eqb_eq].
Qed.

(** C9. For the xrootd tools, [_is_file_or_dir_xrootd] reads the exit code
    of the [stat -q IsDir] query as follows: 0 is a directory (1), 54 is an
    absent path (0), 55 is a file (2), and any other code raises;
    [_isfile_xrootd] is true exactly on code 55. *)
Theorem is_file_or_dir_xrootd_exit_codes path mgm lfn w status w' :
  split_mgm (DEFAULT_MGM w) path None = Ok (mgm, lfn) ->
  get_exitcode ["xrdfs"; mgm; "stat"; "-q"; "IsDir"; lfn] w = (Ok status, w') ->
  (status = 0 -> _is_file_or_dir_xrootd path w = (Ok (VInt 1), w')) /\
  (status = 54 -> _is_file_or_dir_xrootd path w = (Ok (VInt 0), w')) /\
  (status = 55 -> _is_file_or_dir_xrootd path w = (Ok (VInt 2), w')) /\
  (status <> 0 -> status <> 54 -> status <> 55 ->
   exists msg, _is_file_or_dir_xrootd path w = (Raise (RuntimeError msg), w')) /\
  (exists b, _isfile_xrootd path w = (Ok (VBool b), w')
             /\ (b = true <-> status = 55)).
Proof. apply xrootd_exit_codes. Qed.

(** ** Stat *)

Lemma read_cache_off subcache_name key w :
  USE_CACHE w = false -> read_cache subcache_name key w = (Ok VNone, w).
Proof. unfold read_cache. now intros ->. Qed.

Lemma write_cache_off subcache_name key val w :
  USE_CACHE w = false -> write_cache subcache_name key val w = (Ok tt, w).
Proof. unfold write_cache. now intros ->. Qed.



(** C2. When the stat command exits with a non-zero status, [stat] with
    [not_exist_ok=False] raises [CalledProcessError]; with
    [not_exist_ok=True] it does not return [None], not even for the exit
    code of an absent path (54 for xrootd, 2 for gfal): it raises the
    [NameError] of [run_command]. *)
Theorem stat_non_zero_exit path w xrootd cmd output returncode :
  USE_CACHE w = false ->
  DRYMODE w = false ->
  use_xrootd_path path w = (Ok xrootd, w) ->
  stat_command (DEFAULT_MGM w) xrootd path = Ok cmd ->
  popen (spawned w) cmd = Exited output returncode ->
  returncode <> 0 ->
  fst (stat path false w) = Raise (CalledProcessError cmd returncode) /\
  fst (stat path true w) = Raise (NameError "return_code").
Proof.
  intros Hc Hd Hx Hcmd Hp Hrc.
  assert (Hstrict : run_command cmd None false 0 w
                    = (Raise (CalledProcessError cmd returncode),
                       set_spawned (fun l => l ++ [cmd]) w)).
  { unfold run_command. rewrite Hd. simpl. rewrite Hp.
    apply Z.eqb_neq in Hrc. now rewrite Hrc. }
  assert (Hlax := run_command_return_code cmd 0 w _ _ Hd Hp Hrc).
  unfold stat.
  rewrite !(bind_Ok _ _ _ _ _ (read_cache_off _ _ _ Hc)).
  rewrite !(bind_Ok _ _ _ _ _ Hx).
  unfold stat_command in Hcmd. destruct xrootd.
  - destruct (split_mgm (DEFAULT_MGM w) path None) as [[mgm lfn]|e] eqn:Hs;
      [|discriminate]. injection Hcmd as <-.
    assert (Hsplit : split_mgm' path None w = (Ok (mgm, lfn), w))
      by (now rewrite split_mgm'_eq, Hs).
    unfold _stat_xrootd.
    split.
    + erewrite bind_Raise; [reflexivity|].
      rewrite (bind_Ok _ _ _ _ _ Hsplit).
      now rewrite (bind_Raise _ _ _ _ _ Hstrict).
    + erewrite bind_Raise; [reflexivity|].
      rewrite (bind_Ok _ _ _ _ _ Hsplit).
      now rewrite (bind_Raise _ _ _ _ _ Hlax).
  - injection Hcmd as <-. unfold _stat_gfal. split.
    + erewrite bind_Raise; [reflexivity|].
      now rewrite (bind_Raise _ _ _ _ _ Hstrict).
    + erewrite bind_Raise; [reflexivity|].
      now rewrite (bind_Raise _ _ _ _ _ Hlax).
Qed.

(** ** Queries without the cache *)

Lemma format'_eq path mgm w :
  format' path mgm w = (format (DEFAULT_MGM w) path mgm, w).
Proof. reflexivity. Qed.


Lemma get_protocol_eq path mgm w :
  get_protocol path mgm w = (protocol_of (DEFAULT_MGM w) path mgm, w).
Proof.
  unfold get_protocol, protocol_of, bind. rewrite format'_eq.
  now destruct (format (DEFAULT_MGM w) path mgm).
Qed.

Lemma use_xrootd_path_eq path w :
  use_xrootd_path path w
  = (match protocol_of (DEFAULT_MGM w) path None with
     | Ok protocol => Ok (use_xrootd protocol)
     | Raise e => Raise e
     end, w).
Proof.
  unfold use_xrootd_path, bind. rewrite get_protocol_eq.
  now destruct (protocol_of (DEFAULT_MGM w) path None).
Qed.

Lemma get_exitcode_run cmd w output returncode :
  DRYMODE w = false ->
  popen (spawned w) cmd = Exited output returncode ->
  get_exitcode cmd w = (Ok returncode, set_spawned (fun l => l ++ [cmd]) w).
Proof. unfold get_exitcode. now intros -> ->. Qed.

(** [is_file_or_dir] on a directory behind xrootd, the cache off. *)
Lemma is_file_or_dir_directory path mgm lfn w output :
  USE_CACHE w = false ->
  DRYMODE w = false ->
  protocol_of (DEFAULT_MGM w) path None = Ok "root" ->
  split_mgm (DEFAULT_MGM w) path None = Ok (mgm, lfn) ->
  popen (spawned w) ["xrdfs"; mgm; "stat"; "-q"; "IsDir"; lfn]
  = Exited output 0 ->
  is_file_or_dir path w
  = (Ok (VInt 1),
     set_spawned (fun l => l ++ [["xrdfs"; mgm; "stat"; "-q"; "IsDir"; lfn]]) w).
Proof.
  intros Hc Hd Hx Hs Hp. unfold is_file_or_dir.
  rewrite (bind_Ok _ _ _ _ _ (read_cache_off _ _ _ Hc)).
  erewrite bind_Ok; [|rewrite use_xrootd_path_eq, Hx; reflexivity].
  change (use_xrootd "root") with true. cbv iota.
  erewrite bind_Ok.
  2:{ destruct (xrootd_exit_codes path mgm lfn w 0 _ Hs
                  (get_exitcode_run _ _ _ _ Hd Hp)) as [H _].
      apply H. reflexivity. }
  erewrite bind_Ok; [reflexivity|].
  now apply write_cache_off.
Qed.

(** [listdir] of paths, on a directory behind xrootd whose listing
    succeeds, the cache off. *)
Lemma listdir_paths_uncached directory mgm lfn w output contents :
  USE_CACHE w = false ->
  DRYMODE w = false ->
  protocol_of (DEFAULT_MGM w) directory None = Ok "root" ->
  split_mgm (DEFAULT_MGM w) directory None = Ok (mgm, lfn) ->
  popen (spawned w) ["xrdfs"; mgm; "ls"; lfn] = Exited output 0 ->
  listing_lines
    (fun l => match format (DEFAULT_MGM w) l (Some mgm) with
              | Raise e => Raise e
              | Ok p => Ok (VStr p)
              end) output = Ok contents ->
  listdir directory false true w
  = (Ok (VList contents),
     set_spawned (fun l => l ++ [["xrdfs"; mgm; "ls"; lfn]]) w).
Proof.
  intros Hc Hd Hx Hs Hp Hl. unfold listdir.
  rewrite (bind_Ok _ _ _ _ _ (read_cache_off _ _ _ Hc)).
  cbn [falsy negb]. unfold ret at 1.
  erewrite bind_Ok; [|reflexivity].
  erewrite bind_Ok; [|rewrite use_xrootd_path_eq, Hx; reflexivity].
  change (use_xrootd "root") with true. cbv iota.
  erewrite bind_Ok.
  2:{ unfold _listdir_xrootd.
      erewrite bind_Ok; [|rewrite split_mgm'_eq, Hs; reflexivity].
      cbv iota beta.
      erewrite bind_Ok; [|apply run_command_success; eassumption].
      erewrite bind_Ok; [|reflexivity].
      erewrite bind_Ok; [|reflexivity].
      cbn [DEFAULT_MGM set_spawned].
      erewrite bind_Ok; [|unfold lift; rewrite Hl; reflexivity].
      reflexivity. }
  erewrite bind_Ok; [reflexivity|].
  now apply write_cache_off.
Qed.

(** [ls] of a directory. *)
Lemma ls_directory path formatted stat w w' :
  format (DEFAULT_MGM w) path None = Ok formatted ->
  is_ok (protocol_of (DEFAULT_MGM w) formatted None) = true ->
  is_file_or_dir formatted w = (Ok (VInt 1), w') ->
  ls path stat false false w = listdir formatted stat true w'.
Proof.
  intros Hf Hp Hq. unfold ls.
  erewrite bind_Ok; [|rewrite format'_eq, Hf; reflexivity].
  destruct (protocol_of (DEFAULT_MGM w) formatted None) as [protocol|] eqn:E;
    [|discriminate].
  erewrite bind_Ok; [|rewrite get_protocol_eq, E; reflexivity].
  erewrite bind_Ok; [|exact Hq].
  reflexivity.
Qed.

(** ** Wildcards *)

(** The shortcut of [ls_wildcard]: one listing of the directory, filtered
    by the last segment. *)
Lemma ls_wildcard_shortcut pattern formatted directory last w :
  format (DEFAULT_MGM w) pattern None = Ok formatted ->
  Py.contains "*" formatted = true ->
  Py.rsplit1 "/" formatted = [directory; last] ->
  Py.contains "*" directory = false ->
  String.eqb last "*" = false ->
  ls_wildcard pattern false w
  = bind (ls directory false false false)
      (fun contents =>
         bind (lift (re_compile (PyText.replace "*" ".*" last)))
           (fun regex =>
              match contents with
              | VList contents =>
                  bind (lift (filter_basenames regex contents))
                    (fun contents => ret (VList contents))
              | _ => raise (TypeError "object is not iterable")
              end)) w.
Proof.
  intros Hf Hstar Hsplit Hdir Hlast. unfold ls_wildcard.
  erewrite bind_Ok; [|rewrite format'_eq, Hf; reflexivity].
  rewrite Hstar, Hsplit, Hdir, Hlast. reflexivity.
Qed.

(** C7. With the default mgm set to an xrootd server on which [/a/b] is a
    directory that holds the file [x.txt], the file [y.root] and the
    directory [c] (with [z.txt] in it), [ls_wildcard] of [/a/b/*.txt]
    returns exactly the one-element list of the address of [/a/b/x.txt]. *)
Theorem ls_wildcard_last_segment w isdir_output :
  DEFAULT_MGM w = Some "root://se.example.org" ->
  USE_CACHE w = false ->
  DRYMODE w = false ->
  (forall history,
      popen history
        ["xrdfs"; "root://se.example.org"; "stat"; "-q"; "IsDir"; "/a/b"]
      = Exited isdir_output 0) ->
  (forall history,
      popen history ["xrdfs"; "root://se.example.org"; "ls"; "/a/b"]
      = Exited ["/a/b/x.txt"; "/a/b/y.root"; "/a/b/c"] 0) ->
  fst (ls_wildcard "/a/b/*.txt" false w)
  = Ok (VList [VStr "root://se.example.org//a/b/x.txt"]).
Proof.
  intros Hm Hc Hd Hq Hl.
  rewrite (ls_wildcard_shortcut _ "root://se.example.org//a/b/*.txt"
             "root://se.example.org//a/b" "*.txt");
    [| now rewrite Hm | reflexivity..].
  pose (query := ["xrdfs"; "root://se.example.org"; "stat"; "-q"; "IsDir"; "/a/b"]).
  pose (w1 := set_spawned (fun l => l ++ [query]) w).
  assert (Hdir : is_file_or_dir "root://se.example.org//a/b" w = (Ok (VInt 1), w1)).
  { apply (is_file_or_dir_directory _ "root://se.example.org" "/a/b" _ isdir_output);
      try rewrite Hm; try assumption; try reflexivity. apply Hq. }
  assert (Hls : ls "root://se.example.org//a/b" false false false w
                = (Ok (VList [VStr "root://se.example.org//a/b/x.txt";
                              VStr "root://se.example.org//a/b/y.root";
                              VStr "root://se.example.org//a/b/c"]),
                   set_spawned
                     (fun l => l ++ [["xrdfs"; "root://se.example.org"; "ls"; "/a/b"]])
                     w1)).
  { rewrite (ls_directory _ "root://se.example.org//a/b" _ _ w1);
      [| now rewrite Hm | now rewrite Hm | exact Hdir].
    apply (listdir_paths_uncached _ "root://se.example.org" "/a/b" _
             ["/a/b/x.txt"; "/a/b/y.root"; "/a/b/c"]);
      cbn [USE_CACHE DRYMODE DEFAULT_MGM set_spawned spawned w1];
      try rewrite Hm; try assumption; try reflexivity.
    apply Hl. }
  rewrite (bind_Ok _ _ _ _ _ Hls). reflexivity.
Qed.

(** ** What a computation spawns *)
Section Spawns.


Context (P : list string -> Prop).

Lemma spawns_pure {A} (m : M A) :
  (forall w, snd (m w) = w) -> spawns P 0 m.
Proof.
  intros H w. exists []. rewrite H, app_nil_r. repeat split; auto.
Qed.

Lemma spawns_ret {A} (a : A) : spawns P 0 (ret a).
Proof. now apply spawns_pure. Qed.

Lemma spawns_raise {A} e : spawns P 0 (@raise A e).
Proof. now apply spawns_pure. Qed.

Lemma spawns_lift {A} (r : result A) : spawns P 0 (lift r).
Proof. now apply spawns_pure. Qed.

Lemma spawns_le {A} k k' (m : M A) :
  spawns P k m -> (k <= k')%nat -> spawns P k' m.
Proof.
  intros H Hk w. destruct (H w) as (l & ? & ? & ?).
  exists l. repeat split; auto. lia.
Qed.

Lemma spawns_bind {A B} k1 k2 (m : M A) (f : A -> M B) :
  spawns P k1 m -> (forall a, spawns P k2 (f a)) ->
  spawns P (k1 + k2) (bind m f).
Proof.
  intros Hm Hf w. unfold bind.
  destruct (Hm w) as (l1 & E1 & L1 & F1).
  destruct (m w) as [[a|e] w1]; simpl in *.
  - destruct (Hf a w1) as (l2 & E2 & L2 & F2).
    exists (l1 ++ l2). rewrite E2, E1, app_assoc, length_app.
    repeat split; [lia | now apply Forall_app].
  - exists l1. repeat split; auto. lia.
Qed.

Lemma spawns_bind_l {A B} k (m : M A) (f : A -> M B) :
  spawns P 0 m -> (forall a, spawns P k (f a)) -> spawns P k (bind m f).
Proof. intros Hm Hf. now apply (spawns_bind 0 k). Qed.

Lemma spawns_bind_r {A B} k (m : M A) (f : A -> M B) :
  spawns P k m -> (forall a, spawns P 0 (f a)) -> spawns P k (bind m f).
Proof.
  intros Hm Hf. apply (spawns_le (k + 0)); [now apply spawns_bind | lia].
Qed.

Lemma spawns_bind_ret {A B} k (a : A) (f : A -> M B) :
  spawns P k (f a) -> spawns P k (bind (ret a) f).
Proof. intros H w. apply H. Qed.

Lemma spawns_0 {A} k (m : M A) : spawns P 0 m -> spawns P k m.
Proof. intros H. apply (spawns_le 0); [assumption | lia]. Qed.

Lemma spawns_cache_only {A} (m : M A) :
  (forall w, spawned (snd (m w)) = spawned w) -> spawns P 0 m.
Proof.
  intros H w. exists []. rewrite H, app_nil_r. repeat split; auto.
Qed.

Lemma make_cache_spawned name w : spawned (snd (make_cache name w)) = spawned w.
Proof.
  unfold make_cache. destruct (USE_CACHE w); simpl; [|reflexivity].
  now destruct (CACHES w !! name).
Qed.

Lemma spawns_read_cache name key : spawns P 0 (read_cache name key).
Proof.
  apply spawns_cache_only. intros w. unfold read_cache.
  destruct (USE_CACHE w) eqn:E; simpl; [|reflexivity].
  assert (H := make_cache_spawned name w).
  destruct (make_cache name w) as [u w1]. exact H.
Qed.

Lemma spawns_write_cache name key v : spawns P 0 (write_cache name key v).
Proof.
  apply spawns_cache_only. intros w. unfold write_cache.
  destruct (USE_CACHE w) eqn:E; simpl; [|reflexivity].
  assert (H := make_cache_spawned name w).
  destruct (make_cache name w) as [u w1]. exact H.
Qed.

Lemma spawns_run_command cmd dry ok :
  P cmd -> spawns P 1 (run_command cmd dry ok 0).
Proof.
  intros Hc w. unfold run_command. simpl.
  destruct (match dry with Some d => d | None => DRYMODE w end).
  { exists []. rewrite app_nil_r. repeat split; auto. }
  destruct (popen (spawned w) cmd) as [output returncode|errno].
  - exists [cmd].
    assert (forall r : result cmd_output,
               spawned (snd (r, set_spawned (fun l => l ++ [cmd]) w))
               = spawned w ++ [cmd]) as H by reflexivity.
    destruct (Z.eqb returncode 0); [|destruct ok]; rewrite ?H;
      repeat split; auto.
  - exists []. rewrite app_nil_r. repeat split; auto.
Qed.

Lemma spawns_get_exitcode cmd : P cmd -> spawns P 1 (get_exitcode cmd).
Proof.
  intros Hc w. unfold get_exitcode.
  destruct (DRYMODE w).
  { exists []. rewrite app_nil_r. repeat split; auto. }
  destruct (popen (spawned w) cmd) as [output returncode|errno].
  - exists [cmd]. repeat split; auto.
  - exists []. rewrite app_nil_r. repeat split; auto.
Qed.

Lemma spawns_split_mgm' path mgm : spawns P 0 (split_mgm' path mgm).
Proof. now apply spawns_pure. Qed.

Lemma spawns_format' path mgm : spawns P 0 (format' path mgm).
Proof. now apply spawns_pure. Qed.

Lemma spawns_get_protocol path mgm : spawns P 0 (get_protocol path mgm).
Proof. apply spawns_pure. intros w. now rewrite get_protocol_eq. Qed.

Lemma spawns_use_xrootd_path path : spawns P 0 (use_xrootd_path path).
Proof. apply spawns_pure. intros w. now rewrite use_xrootd_path_eq. Qed.

Lemma spawns_get_world : spawns P 0 get_world.
Proof. now apply spawns_pure. Qed.

End Spawns.

Lemma spawns__listdir_xrootd directory stat :
  spawns (fun cmd => is_listing cmd = true) 1 (_listdir_xrootd directory stat).
Proof.
  unfold _listdir_xrootd.
  apply spawns_bind_l; [apply spawns_split_mgm'|]. intros [mgm path].
  apply spawns_bind_r; [apply spawns_run_command; now destruct stat|].
  intros output.
  apply spawns_bind_l; [apply spawns_lift|]. intros lines.
  apply spawns_bind_l; [apply spawns_get_world|]. intros w.
  apply spawns_bind_l; [apply spawns_lift|]. intros contents.
  apply spawns_ret.
Qed.

Lemma spawns__listdir_gfal directory stat :
  spawns (fun cmd => is_listing cmd = true) 1 (_listdir_gfal directory stat).
Proof.
  unfold _listdir_gfal.
  apply spawns_bind_l; [apply spawns_format'|]. intros formatted.
  apply spawns_bind_r; [apply spawns_run_command; now destruct stat|].
  intros output.
  apply spawns_bind_l; [apply spawns_lift|]. intros lines.
  apply spawns_bind_l; [apply spawns_get_world|]. intros w.
  apply spawns_bind_l; [apply spawns_lift|]. intros contents.
  apply spawns_ret.
Qed.

(** A listing of a path that is taken to be a directory spawns one listing
    command at most. *)
Lemma spawns_listdir directory stat :
  spawns (fun cmd => is_listing cmd = true) 1 (listdir directory stat true).
Proof.
  unfold listdir.
  apply spawns_bind_l; [apply spawns_read_cache|]. intros val.
  destruct (falsy val); [|apply spawns_0, spawns_ret].
  apply spawns_bind_ret.
  apply spawns_bind_l; [apply spawns_use_xrootd_path|]. intros xrootd.
  apply spawns_bind_r.
  { destruct xrootd; [apply spawns__listdir_xrootd | apply spawns__listdir_gfal]. }
  intros v.
  apply spawns_bind_l; [apply spawns_write_cache|]. intros _.
  apply spawns_ret.
Qed.

(** So does [ls] with [assume_directory=True]. *)
Lemma spawns_ls path stat :
  spawns (fun cmd => is_listing cmd = true) 1 (ls path stat true false).
Proof.
  unfold ls.
  apply spawns_bind_l; [apply spawns_format'|]. intros formatted.
  apply spawns_bind_l; [apply spawns_get_protocol|]. intros protocol.
  apply spawns_bind_ret. apply spawns_listdir.
Qed.

Lemma spawns__stat_gfal path not_exist_ok :
  spawns (fun cmd => is_listing cmd = false) 1 (_stat_gfal path not_exist_ok).
Proof.
  unfold _stat_gfal.
  apply spawns_bind_r; [now apply spawns_run_command|]. intros output.
  destruct output as [|lines|returncode].
  - apply spawns_bind_l; [apply spawns_lift|]. intros lines.
    apply spawns_bind_l; [apply spawns_lift|]. intros fields.
    apply spawns_lift.
  - apply spawns_bind_l; [apply spawns_lift|]. intros lines'.
    apply spawns_bind_l; [apply spawns_lift|]. intros fields.
    apply spawns_lift.
  - destruct (not_exist_ok && Z.eqb returncode 2);
      [apply spawns_ret | apply spawns_raise].
Qed.

(** The query that [walk] starts with spawns one command at most, and no
    listing. *)
Lemma spawns_is_file_or_dir path :
  spawns (fun cmd => is_listing cmd = false) 1 (is_file_or_dir path).
Proof.
  unfold is_file_or_dir.
  apply spawns_bind_l; [apply spawns_read_cache|]. intros val.
  destruct val; try (apply spawns_0, spawns_ret).
  apply spawns_bind_l; [apply spawns_use_xrootd_path|]. intros xrootd.
  apply spawns_bind_r.
  - destruct xrootd.
    + unfold _is_file_or_dir_xrootd.
      apply spawns_bind_l; [apply spawns_split_mgm'|]. intros [mgm lfn].
      apply spawns_bind_r; [now apply spawns_get_exitcode|]. intros status.
      repeat match goal with
             | |- spawns _ _ (if ?b then _ else _) => destruct b
             end; first [apply spawns_ret | apply spawns_raise].
    + unfold _is_file_or_dir_gfal.
      apply spawns_bind_r; [apply spawns__stat_gfal|]. intros statinfo.
      destruct statinfo; try apply spawns_ret; try apply spawns_raise.
      repeat match goal with
             | |- spawns _ _ (if ?b then _ else _) => destruct b
             end; apply spawns_ret.
  - intros v.
    apply spawns_bind_l; [apply spawns_write_cache|]. intros _.
    apply spawns_ret.
Qed.

(** ** The recursion budget of [walk] *)
Section Walk.

Context {St : Type} (c : consumer St) (stat : bool).






End Walk.

Section Budget.

Context {St : Type} (c : consumer St) (stat : bool).








End Budget.

Lemma filter_listing_none l :
  Forall (fun cmd => is_listing cmd = false) l -> List.filter is_listing l = [].
Proof.
  induction 1 as [|cmd l H _ IH]; [reflexivity|]. simpl. now rewrite H.
Qed.

Local Arguments _walk : simpl never.


(** ** The chunked merge *)

(** Whatever the body does, the directory is gone once
    [try: ... finally: shutil.rmtree(d)] is left. *)
Lemma finally_rmtree {A} (m : M A) d w :
  d ∉ dirs (snd (finally m (shutil_rmtree d) w)).
Proof.
  unfold finally. destruct (m w) as [r w1]. unfold shutil_rmtree.
  destruct (decide (d ∈ dirs w1)) as [Hin|Hout]; simpl.
  - intros [H _]%elem_of_filter. unfold under in H.
    rewrite String.eqb_refl in H. discriminate.
  - assumption.
Qed.

(** The chunked branch of [_hadd_chunks]. *)
Lemma _hadd_chunks_rec_chunked fuel root_files dst n_threads chunk_size tmpdir
    dry w :
  (0 < chunk_size <= length root_files)%nat ->
  let scratch :=
    PyText.osp_join (PyText.osp_join tmpdir "tmphadd") (uuid4 (uuids w)) in
  let func_args :=
    map (fun i_chunk =>
           (PyText.slice root_files (i_chunk * chunk_size)
              ((i_chunk + 1) * chunk_size),
            PyText.osp_join scratch ("chunk" +:+ pretty i_chunk +:+ ".root"),
            dry))
        (seq 0 (ceil_div (length root_files) chunk_size)) in
  (scratch ∉ dirs w) ->
  _hadd_chunks_rec fuel root_files dst n_threads chunk_size tmpdir dry w
  = finally
      (bind (if negb dry then pool_map n_threads _hadd_packed func_args
             else ret tt)
         (fun _ =>
            match fuel with
            | O => raise OutOfFuel
            | S fuel' =>
                _hadd_chunks_rec fuel' (map (fun a => snd (fst a)) func_args)
                  dst n_threads chunk_size scratch dry
            end))
      (shutil_rmtree scratch)
      (set_dirs (fun ds => ds ∪ list_to_set (parents scratch) ∪ {[scratch]})
         (set_uuids S w)).
Proof.
  intros Hsize scratch func_args Hfresh.
  destruct fuel; simpl.
  all: replace (Nat.eqb (length root_files) 0) with false
    by (symmetry; apply Nat.eqb_neq; lia).
  all: replace (Nat.ltb (length root_files) chunk_size) with false
    by (symmetry; apply Nat.ltb_ge; lia).
  all: replace (Nat.eqb chunk_size 0) with false
    by (symmetry; apply Nat.eqb_neq; lia).
  all: unfold bind at 1; unfold draw_uuid; unfold bind at 1;
    unfold os_makedirs; cbn [dirs set_uuids];
    fold scratch; destruct (decide (scratch ∈ dirs w)); [contradiction|];
    reflexivity.
Qed.

(** One [hadd] that succeeds. *)
Lemma _hadd_success root_files dst w output :
  DRYMODE w = false ->
  popen (spawned w) (["hadd"; "-f"; dst] ++ root_files) = Exited output 0 ->
  _hadd root_files dst false w
  = (Ok tt, set_spawned (fun l => l ++ [["hadd"; "-f"; dst] ++ root_files]) w).
Proof.
  intros Hd Hp. unfold _hadd. cbv iota.
  now rewrite (run_command_success _ _ _ _ _ Hd Hp).
Qed.

Lemma set_spawned_nil w : set_spawned (fun l => l ++ []) w = w.
Proof. destruct w. unfold set_spawned. cbn. now rewrite app_nil_r. Qed.

Lemma set_spawned_app w l1 l2 :
  set_spawned (fun l => l ++ l2) (set_spawned (fun l => l ++ l1) w)
  = set_spawned (fun l => l ++ (l1 ++ l2)) w.
Proof. destruct w. unfold set_spawned. cbn. now rewrite <- app_assoc. Qed.

(** The task that the pool starts next is one of those not yet started. *)
Lemma pool_next {A} (first : A) (rest : list A) history :
  let todo := first :: rest in
  let i := (next_task history (length todo) mod length todo)%nat in
  todo !! i = Some (default first (todo !! i)) /\
  todo ≡ₚ default first (todo !! i) :: delete i todo /\
  length (delete i todo) = length rest.
Proof.
  intros todo i.
  assert (Hi : (i < length todo)%nat)
    by (apply Nat.mod_upper_bound; discriminate).
  destruct (lookup_lt_is_Some_2 todo i Hi) as [task Ht].
  rewrite Ht. cbn [default]. split; [reflexivity|]. split.
  - now apply delete_Permutation.
  - rewrite length_delete by eauto. cbn. lia.
Qed.

(** The merges of a pool that all succeed: each of them is run, in the
    order the pool starts them. *)
Lemma pool_run_success fuel :
  forall (todo : list (list string * string * bool)) w,
  (length todo <= fuel)%nat ->
  DRYMODE w = false ->
  Forall (fun a => snd a = false) todo ->
  (forall history cmd, exists output,
      popen history ("hadd" :: cmd) = Exited output 0) ->
  exists merges,
    pool_run fuel _hadd_packed todo None w
    = (Ok tt, set_spawned (fun l => l ++ merges) w) /\
    merges ≡ₚ map (fun a => ["hadd"; "-f"; snd (fst a)] ++ fst (fst a)) todo.
Proof.
  induction fuel as [|fuel IH]; intros todo w Hlen Hd Hdry Hp.
  - destruct todo; [|cbn in Hlen; lia].
    exists []. cbn. now rewrite set_spawned_nil.
  - destruct todo as [|first rest].
    { exists []. cbn. now rewrite set_spawned_nil. }
    cbn [pool_run].
    destruct (pool_next first rest (spawned w)) as (Ht & Hperm & Hdel).
    set (i := (next_task (spawned w) (length (first :: rest))
               mod length (first :: rest))%nat) in *.
    set (task := default first ((first :: rest) !! i)) in *.
    assert (Htask : snd task = false).
    { apply (Forall_lookup_1 _ _ _ _ Hdry Ht). }
    destruct task as [[files dst] dry] eqn:Etask. cbn in Htask. subst dry.
    destruct (Hp (spawned w) ("-f" :: dst :: files)) as [output Ho].
    cbn [_hadd_packed]. rewrite (_hadd_success _ _ _ output Hd Ho).
    destruct (IH (delete i (first :: rest))
                (set_spawned (fun l => l ++ [["hadd"; "-f"; dst] ++ files]) w))
      as (merges & Hrun & Hm).
    + rewrite Hdel. cbn in Hlen. lia.
    + exact Hd.
    + now apply Forall_delete.
    + exact Hp.
    + exists ((["hadd"; "-f"; dst] ++ files) :: merges).
      rewrite Hrun, set_spawned_app. split; [reflexivity|].
      rewrite Hm. symmetry.
      apply (Permutation_map
               (fun a : list string * string * bool =>
                  ["hadd"; "-f"; snd (fst a)] ++ fst (fst a))) in Hperm.
      exact Hperm.
Qed.

Lemma pool_map_success n_threads (func_args : list (list string * string * bool)) w :
  n_threads <> O ->
  DRYMODE w = false ->
  Forall (fun a => snd a = false) func_args ->
  (forall history cmd, exists output,
      popen history ("hadd" :: cmd) = Exited output 0) ->
  exists merges,
    pool_map n_threads _hadd_packed func_args w
    = (Ok tt, set_spawned (fun l => l ++ merges) w) /\
    merges ≡ₚ map (fun a => ["hadd"; "-f"; snd (fst a)] ++ fst (fst a))
                func_args.
Proof.
  intros Hn Hd Hdry Hp. unfold pool_map.
  replace (Nat.eqb n_threads 0) with false by (symmetry; now apply Nat.eqb_neq).
  now apply pool_run_success.
Qed.

(** What every task keeps, the pool keeps. *)
Lemma pool_run_keeps {A} (R : world -> world -> Prop) (f : A -> M unit) :
  (forall w, R w w) ->
  (forall w1 w2 w3, R w1 w2 -> R w2 w3 -> R w1 w3) ->
  (forall a w, R w (snd (f a w))) ->
  forall fuel todo raised w, R w (snd (pool_run fuel f todo raised w)).
Proof.
  intros Hrefl Htrans Hf.
  induction fuel as [|fuel IH]; intros todo raised w;
    (destruct todo as [|first rest]; [apply Hrefl|]);
    cbn [pool_run];
    match goal with
    | |- context [if ?b then _ else _] => destruct b; [apply Hrefl|]
    end.
  - apply Hrefl.
  - match goal with
    | |- context [f ?task w] =>
        specialize (Hf task w); destruct (f task w) as [[u|e] w1]
    end; cbn [snd] in Hf; (eapply Htrans; [exact Hf | apply IH]).
Qed.

Lemma pool_map_keeps {A} (R : world -> world -> Prop) (f : A -> M unit) :
  (forall w, R w w) ->
  (forall w1 w2 w3, R w1 w2 -> R w2 w3 -> R w1 w3) ->
  (forall a w, R w (snd (f a w))) ->
  forall n_threads args w, R w (snd (pool_map n_threads f args w)).
Proof.
  intros Hrefl Htrans Hf n_threads args w. unfold pool_map.
  destruct (Nat.eqb n_threads 0); [apply Hrefl|].
  now apply pool_run_keeps.
Qed.

(** The last step of the recursion: fewer files than a chunk holds. *)
Lemma _hadd_chunks_rec_direct fuel root_files dst n_threads chunk_size tmpdir
    dry :
  (0 < length root_files < chunk_size)%nat ->
  _hadd_chunks_rec fuel root_files dst n_threads chunk_size tmpdir dry
  = _hadd root_files dst dry.
Proof.
  intros Hsize. destruct fuel; simpl.
  all: replace (Nat.eqb (length root_files) 0) with false
    by (symmetry; apply Nat.eqb_neq; lia).
  all: replace (Nat.ltb (length root_files) chunk_size) with true
    by (symmetry; apply Nat.ltb_lt; lia).
  all: reflexivity.
Qed.

Lemma slice_length {A} (l : list A) i j :
  length (PyText.slice l i j) = Nat.min (j - i) (length l - i).
Proof. unfold PyText.slice. now rewrite length_take, length_drop. Qed.

(** C6. [_hadd_chunks] over 450 files with [chunk_size=200] leaves no
    scratch directory behind, however the merges end; and when every [hadd]
    succeeds it runs exactly three chunk merges, over 200, 200 and 50 files,
    in the order the pool starts them, followed by the one merge of the
    three chunks into the destination. *)
Theorem hadd_chunks_450 root_files dst n_threads tmpdir w :
  length root_files = 450%nat ->
  n_threads <> O ->
  let scratch :=
    PyText.osp_join (PyText.osp_join tmpdir "tmphadd") (uuid4 (uuids w)) in
  let chunk (name : string) := PyText.osp_join scratch name in
  (scratch ∉ dirs w) ->
  (scratch ∉
     dirs (snd (_hadd_chunks root_files dst n_threads 200 tmpdir false w)))
  /\
  (DRYMODE w = false ->
   (forall history cmd, exists output,
       popen history ("hadd" :: cmd) = Exited output 0) ->
   exists w' merges,
     _hadd_chunks root_files dst n_threads 200 tmpdir false w = (Ok tt, w') /\
     spawned w'
     = spawned w ++ merges ++
       [["hadd"; "-f"; dst;
         chunk "chunk0.root"; chunk "chunk1.root"; chunk "chunk2.root"]] /\
     merges ≡ₚ
       [["hadd"; "-f"; chunk "chunk0.root"] ++ PyText.slice root_files 0 200;
        ["hadd"; "-f"; chunk "chunk1.root"] ++ PyText.slice root_files 200 400;
        ["hadd"; "-f"; chunk "chunk2.root"] ++ PyText.slice root_files 400 600]
     /\
     length (PyText.slice root_files 0 200) = 200%nat /\
     length (PyText.slice root_files 200 400) = 200%nat /\
     length (PyText.slice root_files 400 600) = 50%nat).
Proof.
  intros Hlen Hn scratch chunk Hfresh.
  unfold _hadd_chunks.
  rewrite _hadd_chunks_rec_chunked by (assumption || lia).
  fold scratch. split; [apply finally_rmtree|].
  intros Hd Hp. rewrite Hlen.
  change (ceil_div 450 200) with 3%nat.
  cbn [seq map negb fst snd Nat.mul Nat.add].
  change ("chunk" +:+ pretty 0%nat +:+ ".root") with "chunk0.root".
  change ("chunk" +:+ pretty 1%nat +:+ ".root") with "chunk1.root".
  change ("chunk" +:+ pretty 2%nat +:+ ".root") with "chunk2.root".
  fold (chunk "chunk0.root") (chunk "chunk1.root") (chunk "chunk2.root").
  set (w1 := set_dirs (fun ds => ds ∪ list_to_set (parents scratch) ∪ {[scratch]})
               (set_uuids S w)).
  unfold finally.
  match goal with
  | |- context [pool_map n_threads _hadd_packed ?args] =>
      destruct (pool_map_success n_threads args w1 Hn Hd) as (merges & Hpool & Hm);
      [repeat constructor | exact Hp |]
  end.
  cbn [map fst snd] in Hm.
  rewrite (bind_Ok _ _ _ _ _ Hpool).
  cbn [map fst snd].
  change 450%nat with (S 449).
  rewrite _hadd_chunks_rec_direct by (simpl; lia).
  set (w2 := set_spawned _ w1).
  destruct (Hp (spawned w2)
              ["-f"; dst; chunk "chunk0.root"; chunk "chunk1.root";
               chunk "chunk2.root"]) as [output Ho].
  rewrite (_hadd_success _ _ w2 output Hd Ho).
  unfold shutil_rmtree.
  set (w3 := set_spawned _ w2).
  destruct (decide (scratch ∈ dirs w3)) as [_|Hout].
  2:{ exfalso. apply Hout. simpl. set_solver. }
  eexists. exists merges. split; [reflexivity|].
  split.
  { simpl. rewrite <- app_assoc. reflexivity. }
  split; [exact Hm|].
  rewrite !slice_length, Hlen. repeat split.
Qed.

(** ** Answers from the cache *)
Section CacheHits.

Lemma bind_assoc {A B C} (m : M A) (f : A -> M B) (g : B -> M C) w :
  bind (bind m f) g w = bind m (fun a => bind (f a) g) w.
Proof. unfold bind. now destruct (m w) as [[a|e] w1]. Qed.

Lemma bind_ext {A B} (m : M A) (f g : A -> M B) w :
  (forall a w', f a w' = g a w') -> bind m f w = bind m g w.
Proof. intros H. unfold bind. now destruct (m w) as [[a|e] w1]. Qed.

(** Once a subcache is open, reading it changes nothing. *)
Lemma read_cache_open name key w (c : gmap string value) :
  USE_CACHE w = true ->
  CACHES w !! name = Some c ->
  read_cache name key w = (Ok (FileCache.get c key VNone), w).
Proof.
  intros Hu Hc. unfold read_cache, make_cache. rewrite Hu. simpl.
  now rewrite Hc, Hc.
Qed.

(** Reading opens the subcache. *)
Lemma read_cache_on name key w :
  USE_CACHE w = true ->
  exists (c : gmap string value) w0,
    read_cache name key w = (Ok (FileCache.get c key VNone), w0) /\
    USE_CACHE w0 = true /\
    CACHES w0 !! name = Some c /\
    spawned w0 = spawned w.
Proof.
  intros Hu. unfold read_cache, make_cache. rewrite Hu. simpl.
  destruct (CACHES w !! name) as [c|] eqn:Hc.
  - exists c, w. now rewrite Hc.
  - eexists _, _. simpl. rewrite lookup_insert_eq. simpl.
    repeat split; try reflexivity; [exact Hu|].
    cbn [CACHES set_CACHES]. apply lookup_insert_eq.
Qed.

(** Writing stores the value under the key. *)
Lemma write_cache_on name key v w :
  USE_CACHE w = true ->
  exists (c : gmap string value) w1,
    write_cache name key v w = (Ok tt, w1) /\
    USE_CACHE w1 = true /\
    CACHES w1 !! name = Some c /\
    FileCache.get c key VNone = v /\
    spawned w1 = spawned w.
Proof.
  intros Hu. unfold write_cache, make_cache. rewrite Hu. simpl.
  destruct (CACHES w !! name) as [c|] eqn:Hc; simpl.
  - eexists _, _. split; [reflexivity|]. simpl.
    rewrite lookup_insert_eq. repeat split; auto.
    unfold FileCache.get, FileCache.setitem. now rewrite lookup_insert_eq.
  - eexists _, _. split; [reflexivity|]. simpl.
    rewrite lookup_insert_eq. repeat split; auto.
    unfold FileCache.get, FileCache.setitem. now rewrite lookup_insert_eq.
Qed.

(** A query that returned a value that is no miss is answered from the
    cache from then on: the same value, and the world as it was, so that
    nothing is spawned. *)
Lemma cached_query_hit miss name key compute w v w1 :
  steady compute ->
  USE_CACHE w = true ->
  cached_query miss name key compute w = (Ok v, w1) ->
  miss v = false ->
  cached_query miss name key compute w1 = (Ok v, w1).
Proof.
  intros Hsteady Hu Hq Hv. unfold cached_query in *.
  destruct (read_cache_on name key w Hu) as (c & w0 & Hr & Hu0 & Hc0 & _).
  rewrite (bind_Ok _ _ _ _ _ Hr) in Hq.
  destruct (miss (FileCache.get c key VNone)) eqn:Hmiss.
  - (* the first call computed and stored the value *)
    unfold bind at 1 in Hq.
    assert (Hs := Hsteady w0).
    destruct (compute w0) as [[v'|e] w0']; [|discriminate]. simpl in Hs.
    destruct (write_cache_on name key v' w0') as (c1 & w1' & Hw & Hu1 & Hc1 & Hg & _);
      [congruence|].
    rewrite (bind_Ok _ _ _ _ _ Hw) in Hq. injection Hq as <- <-.
    rewrite (bind_Ok _ _ _ _ _ (read_cache_open _ key _ _ Hu1 Hc1)).
    now rewrite Hg, Hv.
  - (* the first call was a hit already *)
    injection Hq as <- <-.
    rewrite (bind_Ok _ _ _ _ _ (read_cache_open _ key _ _ Hu0 Hc0)).
    now rewrite Hmiss.
Qed.

(** *** The computations behind the queries leave the switch alone *)

Lemma steady_pure {A} (m : M A) : (forall w, snd (m w) = w) -> steady m.
Proof. intros H w. now rewrite H. Qed.

Lemma steady_ret {A} (a : A) : steady (ret a).
Proof. now apply steady_pure. Qed.

Lemma steady_raise {A} e : steady (@raise A e).
Proof. now apply steady_pure. Qed.

Lemma steady_lift {A} (r : result A) : steady (lift r).
Proof. now apply steady_pure. Qed.

Lemma steady_bind {A B} (m : M A) (f : A -> M B) :
  steady m -> (forall a, steady (f a)) -> steady (bind m f).
Proof.
  intros Hm Hf w. unfold bind. specialize (Hm w).
  destruct (m w) as [[a|e] w1]; simpl in *; [|assumption].
  now rewrite Hf.
Qed.

Lemma steady_run_command cmd dry ok n_retries :
  steady (run_command cmd dry ok n_retries).
Proof.
  intros w. unfold run_command.
  generalize (match dry with Some d => d | None => DRYMODE w end) as d.
  generalize 0%nat as i_attempt. generalize n_retries at 1 as fuel.
  intros fuel. revert w. induction fuel as [|fuel IH]; intros w i_attempt d;
    simpl; destruct d; try reflexivity;
    destruct (popen (spawned w) cmd) as [output returncode|errno];
    try reflexivity;
    destruct (Z.eqb returncode 0); try reflexivity;
    destruct ok; try reflexivity;
    destruct (Nat.ltb i_attempt n_retries); try reflexivity.
  now rewrite IH.
Qed.

Lemma steady_get_exitcode cmd : steady (get_exitcode cmd).
Proof.
  intros w. unfold get_exitcode. destruct (DRYMODE w); [reflexivity|].
  now destruct (popen (spawned w) cmd).
Qed.

Lemma steady_split_mgm' path mgm : steady (split_mgm' path mgm).
Proof. now apply steady_pure. Qed.

Lemma steady_format' path mgm : steady (format' path mgm).
Proof. now apply steady_pure. Qed.

Lemma steady_use_xrootd_path path : steady (use_xrootd_path path).
Proof. apply steady_pure. intros w. now rewrite use_xrootd_path_eq. Qed.

Lemma steady_get_world : steady get_world.
Proof. now apply steady_pure. Qed.

Lemma steady_read_cache name key : steady (read_cache name key).
Proof.
  intros w. unfold read_cache, make_cache.
  destruct (USE_CACHE w) eqn:E; simpl; [|assumption].
  now destruct (CACHES w !! name).
Qed.

Lemma steady_write_cache name key v : steady (write_cache name key v).
Proof.
  intros w. unfold write_cache, make_cache.
  destruct (USE_CACHE w) eqn:E; simpl; [|assumption].
  now destruct (CACHES w !! name).
Qed.

(** Takes a goal [steady m] apart along the structure of [m]. *)
Ltac steady :=
  repeat first
    [ apply steady_ret | apply steady_raise | apply steady_lift
    | apply steady_run_command | apply steady_get_exitcode
    | apply steady_split_mgm' | apply steady_format'
    | apply steady_use_xrootd_path | apply steady_get_world
    | apply steady_read_cache | apply steady_write_cache
    | apply steady_bind; [|intros ?]
    | match goal with
      | |- steady (let '(_, _) := ?r in _) => destruct r
      | |- steady (if ?b then _ else _) => destruct b
      | |- steady (match ?o with DryRun => _ | Output _ => _ | ExitCode _ => _ end) =>
          destruct o
      | |- steady (match ?v with VNone => _ | _ => _ end) => destruct v
      end ].

Lemma steady__stat_gfal path not_exist_ok : steady (_stat_gfal path not_exist_ok).
Proof. unfold _stat_gfal. steady. Qed.

Lemma steady__stat_xrootd path not_exist_ok :
  steady (_stat_xrootd path not_exist_ok).
Proof. unfold _stat_xrootd. steady. Qed.

Lemma steady_cached_query miss name key compute :
  steady compute -> steady (cached_query miss name key compute).
Proof. intros H. unfold cached_query. steady. exact H. Qed.

(** *** The five queries that test [val is None] *)

Lemma stat_cached path not_exist_ok w :
  stat path not_exist_ok w
  = cached_query is_none "seutils-cache.stat" (PyText.strip path)
      (xrootd <- use_xrootd_path path ;;
       if xrootd : bool then _stat_xrootd path not_exist_ok
       else _stat_gfal path not_exist_ok) w.
Proof.
  unfold stat, cached_query, bind.
  destruct (read_cache _ _ w) as [[[]|e] w0]; try reflexivity.
  simpl. now destruct (use_xrootd_path path w0) as [[x|e] w1].
Qed.

Lemma exists_cached path w :
  exists_ path w
  = cached_query is_none "seutils-cache.exists" (PyText.strip path)
      (xrootd <- use_xrootd_path path ;;
       if xrootd : bool then _exists_xrootd path else _exists_gfal path) w.
Proof.
  unfold exists_, cached_query, bind.
  destruct (read_cache _ _ w) as [[[]|e] w0]; try reflexivity.
  simpl. now destruct (use_xrootd_path path w0) as [[x|e] w1].
Qed.

Lemma isdir_cached directory w :
  isdir directory w
  = cached_query is_none "seutils-cache.isdir" (PyText.strip directory)
      (xrootd <- use_xrootd_path directory ;;
       if xrootd : bool then _isdir_xrootd directory
       else _isdir_gfal directory) w.
Proof.
  unfold isdir, cached_query, bind.
  destruct (read_cache _ _ w) as [[[]|e] w0]; try reflexivity.
  simpl. now destruct (use_xrootd_path directory w0) as [[x|e] w1].
Qed.

Lemma isfile_cached path w :
  isfile path w
  = cached_query is_none "seutils-cache.isfile" (PyText.strip path)
      (xrootd <- use_xrootd_path path ;;
       if xrootd : bool then _isfile_xrootd path else _isfile_gfal path) w.
Proof.
  unfold isfile, cached_query, bind.
  destruct (read_cache _ _ w) as [[[]|e] w0]; try reflexivity.
  simpl. now destruct (use_xrootd_path path w0) as [[x|e] w1].
Qed.

Lemma is_file_or_dir_cached path w :
  is_file_or_dir path w
  = cached_query is_none "seutils-cache.isfileordir" (PyText.strip path)
      (xrootd <- use_xrootd_path path ;;
       if xrootd : bool then _is_file_or_dir_xrootd path
       else _is_file_or_dir_gfal path) w.
Proof.
  unfold is_file_or_dir, cached_query, bind.
  destruct (read_cache _ _ w) as [[[]|e] w0]; try reflexivity.
  simpl. now destruct (use_xrootd_path path w0) as [[x|e] w1].
Qed.

Lemma steady_isdir directory : steady (isdir directory).
Proof.
  intros w. rewrite isdir_cached. revert w.
  apply steady_cached_query. unfold _isdir_xrootd, _isdir_gfal, attr_isdir.
  steady.
Qed.

Lemma listdir_cached directory stat assume_directory w :
  listdir directory stat assume_directory w
  = cached_query falsy "seutils-cache.listdir"
      (PyText.strip directory
       +:+ "___stat" +:+ (if stat then "True" else "False"))
      ((if negb assume_directory then
          d <- isdir directory ;;
          if falsy d then raise (RuntimeError "is not a valid directory")
          else ret tt
        else ret tt) ;;;
       xrootd <- use_xrootd_path directory ;;
       if xrootd : bool then _listdir_xrootd directory stat
       else _listdir_gfal directory stat) w.
Proof.
  unfold listdir, cached_query.
  apply bind_ext. intros val w0. destruct (falsy val); [|reflexivity].
  rewrite bind_assoc. apply bind_ext. intros u w1.
  now rewrite bind_assoc.
Qed.

(** X25. With the cache on, [stat], [exists], [isdir], [isfile] and
    [is_file_or_dir] answer a repeated query from the cache, whatever the
    value they returned first, as long as it is not [None]: the second call
    returns the same value and leaves the world, and with it the list of
    spawned commands, as it was. *)
Lemma is_none_queries_hit (query : M value) w v w1 :
  (exists path not_exist_ok, query = stat path not_exist_ok) \/
  (exists path, query = exists_ path) \/
  (exists path, query = isdir path) \/
  (exists path, query = isfile path) \/
  (exists path, query = is_file_or_dir path) ->
  USE_CACHE w = true ->
  query w = (Ok v, w1) ->
  v <> VNone ->
  query w1 = (Ok v, w1).
Proof.
  intros Hq Hu Hrun Hv.
  assert (Hmiss : is_none v = false) by (now destruct v).
  destruct Hq as [(path & neo & ->)|[(path & ->)|[(path & ->)|[(path & ->)|(path & ->)]]]].
  - rewrite stat_cached in Hrun |- *.
    eapply cached_query_hit; eauto.
    steady.
  - rewrite exists_cached in Hrun |- *.
    eapply cached_query_hit; eauto.
    unfold _exists_xrootd, _exists_gfal. steady.
  - rewrite isdir_cached in Hrun |- *.
    eapply cached_query_hit; eauto.
    unfold _isdir_xrootd, _isdir_gfal, attr_isdir.
    steady.
  - rewrite isfile_cached in Hrun |- *.
    eapply cached_query_hit; eauto.
    unfold _isfile_xrootd, _isfile_gfal, attr_isfile.
    steady.
  - rewrite is_file_or_dir_cached in Hrun |- *.
    eapply cached_query_hit; eauto.
    unfold _is_file_or_dir_xrootd, _is_file_or_dir_gfal.
    steady.
Qed.

(** X26. With the cache on, [listdir] answers a repeated query from the
    cache when the listing it returned first is not empty: the second call
    returns the same listing and leaves the world, and with it the list of
    spawned commands, as it was. *)
Lemma listdir_hit directory stat assume_directory w v w1 :
  USE_CACHE w = true ->
  listdir directory stat assume_directory w = (Ok v, w1) ->
  falsy v = false ->
  listdir directory stat assume_directory w1 = (Ok v, w1).
Proof.
  intros Hu Hrun Hv. rewrite listdir_cached in Hrun |- *.
  eapply cached_query_hit; eauto.
  apply steady_bind.
  - destruct assume_directory; simpl; [apply steady_ret|].
    apply steady_bind; [apply steady_isdir|]. intros d. steady.
  - intros _. unfold _listdir_xrootd, _listdir_gfal. steady.
Qed.

End CacheHits.

(** ** Joining a protocol, a server and a logical path *)

Lemma rstrip_char_slash s :
  Py.endswith (PyText.rstrip_char "/" s) "/" = false.
Proof.
  induction s as [|d s IH]; [reflexivity|].
  cbn [PyText.rstrip_char].
  destruct (PyText.rstrip_char "/" s) as [|e r] eqn:E.
  - destruct (Ascii.eqb_spec d "/") as [->|Hd]; [reflexivity|].
    rewrite endswith_single. now apply Ascii.eqb_neq.
  - rewrite endswith_slash_cons; [assumption | discriminate].
Qed.

Lemma count_remove_char c s : PyText.count c (PyText.remove_char c s) = 0%nat.
Proof.
  induction s as [|d s IH]; [reflexivity|].
  cbn [PyText.remove_char].
  destruct (Ascii.eqb_spec d c) as [->|Hd]; [assumption|].
  cbn [PyText.count]. rewrite IH.
  destruct (Ascii.eqb_spec c d); [congruence | reflexivity].
Qed.

(** The leftmost [://] of [p +:+ "://" +:+ r] is the one written out, when
    [p] holds no colon. *)
Lemma partition_protocol_at p r :
  PyText.count ":" p = 0%nat ->
  Py.partition "://" (p +:+ "://" +:+ r) = Some (p, r).
Proof.
  induction p as [|c p IH]; intros Hc.
  - reflexivity.
  - cbn [PyText.count] in Hc.
    destruct (Ascii.eqb_spec ":" c) as [<-|Hne]; [discriminate|].
    change (String c p +:+ "://" +:+ r) with (String c (p +:+ "://" +:+ r)).
    rewrite partition_cons, removeprefix_cons.
    replace (Ascii.eqb ":" c) with false by (symmetry; now apply Ascii.eqb_neq).
    now rewrite (IH Hc).
Qed.

(** X1. What [_join_protocol_server_lfn] puts together,
    [split_protocol_pfn] takes apart again: for a logical path that starts
    with a slash and a server that holds no double slash once its outer
    slashes are stripped, the joined name splits into the protocol without
    its colons, the stripped server and the logical path. *)
Theorem join_protocol_server_lfn_split protocol server lfn :
  Py.startswith lfn "/" = true ->
  Py.contains "//" (PyText.strip_char "/" server) = false ->
  exists filename,
    _join_protocol_server_lfn protocol server lfn = Ok filename /\
    split_protocol_pfn filename
    = Ok (PyText.remove_char ":" protocol, PyText.strip_char "/" server, lfn).
Proof.
  intros Hl Hno. unfold _join_protocol_server_lfn. rewrite Hl. cbn [negb].
  eexists; split; [reflexivity|].
  apply startswith_slash in Hl as [l ->].
  apply split_protocol_pfn_Ok.
  exists (PyText.strip_char "/" server +:+ "//" +:+ l), l.
  split; [|split; [|reflexivity]].
  - rewrite !append_assoc. apply partition_protocol_at, count_remove_char.
  - apply partition_dslash_at.
    + unfold Py.contains in Hno.
      now destruct (Py.partition "//" (PyText.strip_char "/" server)).
    + apply rstrip_char_slash.
Qed.

(** ** The most likely tree *)

Lemma is_standard_tree_elem t :
  is_standard_tree t = true <-> t ∈ standard_trees.
Proof.
  unfold is_standard_tree. rewrite existsb_exists. split.
  - intros (x & Hx & ->%String.eqb_eq). now apply list_elem_of_In.
  - intros H. exists t. split; [now apply list_elem_of_In | apply String.eqb_refl].
Qed.

(** X2. Of a list of trees that is not empty, [_select_most_likely_tree]
    returns the first one that is not a standard CMSSW tree, and the first
    tree of the list when all of them are standard. *)
Theorem select_most_likely_tree_first trees :
  trees <> [] ->
  exists tree pre post,
    _select_most_likely_tree trees = Ok tree /\
    trees = pre ++ tree :: post /\
    Forall (fun t => t ∈ standard_trees) pre /\
    (tree ∈ standard_trees ->
     pre = [] /\ Forall (fun t => t ∈ standard_trees) post).
Proof.
  intros Hne. unfold _select_most_likely_tree.
  induction trees as [|t trees IH]; [congruence|]. clear Hne.
  cbn [List.filter length].
  destruct (is_standard_tree t) eqn:Et; cbn [negb].
  - (* the first tree is standard *)
    destruct (List.filter (fun t => negb (is_standard_tree t)) trees)
      as [|t' filtered] eqn:Ef.
    + (* so are all the others *)
      exists t, [], trees. cbn. split; [reflexivity|].
      split; [reflexivity|]. split; [constructor|]. intros _.
      split; [reflexivity|].
      apply Forall_forall. intros x Hx.
      apply is_standard_tree_elem.
      destruct (is_standard_tree x) eqn:Ex; [reflexivity|].
      assert (In x (List.filter (fun t => negb (is_standard_tree t)) trees))
        as Hin.
      { apply filter_In. split; [now apply list_elem_of_In | now rewrite Ex]. }
      rewrite Ef in Hin. destruct Hin.
    + destruct trees as [|t1 trees1]; [discriminate|].
      destruct IH as (tree & pre & post & Hsel & Heq & Hpre & Hstd);
        [discriminate|].
      cbn in Hsel. injection Hsel as <-.
      exists t', (t :: pre), post. cbn.
      split; [reflexivity|]. split; [now rewrite Heq|].
      split; [constructor; [now apply is_standard_tree_elem | assumption]|].
      intros Ht'%is_standard_tree_elem. exfalso.
      assert (In t' (List.filter (fun t => negb (is_standard_tree t))
                       (t1 :: trees1))) as Hin by (rewrite Ef; now left).
      apply filter_In in Hin as [_ Hin]. now rewrite Ht' in Hin.
  - exists t, [], trees. cbn. split; [reflexivity|].
    split; [reflexivity|]. split; [constructor|].
    intros Ht%is_standard_tree_elem. congruence.
Qed.

(** ** Retries of the command runner *)

Lemma spawned_after_retries cmd k w :
  spawned (after_retries cmd k w) = spawned w ++ repeat cmd k.
Proof. reflexivity. Qed.

(** [k] failed attempts, each followed by a sleep, take the loop [k] rounds
    further. *)
Lemma run_command_attempts_failed cmd k :
  forall fuel n_retries i_attempt w,
  (i_attempt + fuel = n_retries)%nat ->
  (k <= fuel)%nat ->
  (forall i, (i < k)%nat -> exists output returncode,
      popen (spawned w ++ repeat cmd i) cmd = Exited output returncode /\
      returncode <> 0) ->
  run_command_attempts fuel cmd false false n_retries i_attempt w
  = run_command_attempts (fuel - k) cmd false false n_retries (i_attempt + k)
      (after_retries cmd k w).
Proof.
  induction k as [|k IH]; intros fuel n_retries i_attempt w Hfuel Hk Hfail.
  - now rewrite after_retries_0, Nat.sub_0_r, Nat.add_0_r.
  - destruct fuel as [|fuel]; [lia|].
    destruct (Hfail 0%nat) as (output & returncode & Hp & Hrc); [lia|].
    cbn [repeat] in Hp. rewrite app_nil_r in Hp.
    cbn [run_command_attempts]. rewrite Hp.
    apply Z.eqb_neq in Hrc. rewrite Hrc.
    replace (i_attempt <? n_retries)%nat with true
      by (symmetry; apply Nat.ltb_lt; lia).
    rewrite (IH fuel n_retries (i_attempt + 1)%nat); [| lia | lia |].
    + rewrite after_retries_S.
      replace (i_attempt + 1 + k)%nat with (i_attempt + S k)%nat by lia.
      reflexivity.
    + intros i Hi. destruct (Hfail (S i)) as (o & rc & Hp' & Hrc'); [lia|].
      exists o, rc. split; [|assumption].
      cbn [spawned set_slept set_spawned]. rewrite <- app_assoc. exact Hp'.
Qed.

(** X3. A command that fails [k] times, with [k] within the retries, and
    succeeds on the next attempt: [run_command] returns the output of that
    attempt, having spawned the command [k + 1] times and slept [k]
    times. *)
Theorem run_command_succeeds_on_retry cmd n_retries k w output :
  DRYMODE w = false ->
  (k <= n_retries)%nat ->
  (forall i, (i < k)%nat -> exists output returncode,
      popen (spawned w ++ repeat cmd i) cmd = Exited output returncode /\
      returncode <> 0) ->
  popen (spawned w ++ repeat cmd k) cmd = Exited output 0 ->
  run_command cmd None false n_retries w
  = (Ok (Output output),
     set_spawned (fun l => l ++ [cmd]) (after_retries cmd k w)).
Proof.
  intros Hdry Hk Hfail Hp. unfold run_command. rewrite Hdry.
  rewrite (run_command_attempts_failed cmd k); [| lia | lia | assumption].
  rewrite <- spawned_after_retries in Hp.
  destruct (n_retries - k)%nat; cbn [run_command_attempts]; now rewrite Hp.
Qed.

(** X4. A command that fails on each of its [n_retries + 1] attempts:
    [run_command] raises [CalledProcessError] with the exit code of the last
    attempt, having spawned the command [n_retries + 1] times and slept
    [n_retries] times. *)
Theorem run_command_gives_up cmd n_retries w output returncode :
  DRYMODE w = false ->
  (forall i, (i < n_retries)%nat -> exists output returncode,
      popen (spawned w ++ repeat cmd i) cmd = Exited output returncode /\
      returncode <> 0) ->
  popen (spawned w ++ repeat cmd n_retries) cmd = Exited output returncode ->
  returncode <> 0 ->
  run_command cmd None false n_retries w
  = (Raise (CalledProcessError cmd returncode),
     set_spawned (fun l => l ++ [cmd]) (after_retries cmd n_retries w)).
Proof.
  intros Hdry Hfail Hp Hrc. unfold run_command. rewrite Hdry.
  rewrite (run_command_attempts_failed cmd n_retries); [| lia | lia | assumption].
  rewrite <- spawned_after_retries in Hp. apply Z.eqb_neq in Hrc.
  rewrite Nat.sub_diag. cbn [run_command_attempts]. rewrite Hp, Hrc.
  replace (0 + n_retries <? n_retries)%nat with false
    by (symmetry; apply Nat.ltb_ge; lia).
  reflexivity.
Qed.

(** ** What the calls leave alone *)

Lemma frame_refl w : frame w w.
Proof. unfold frame. tauto. Qed.

Lemma frame_trans w1 w2 w3 : frame w1 w2 -> frame w2 w3 -> frame w1 w3.
Proof.
  unfold frame.
  intros (Hm1 & Hd1 & Hu1 & Hs1 & Hc1) (Hm2 & Hd2 & Hu2 & Hs2 & Hc2).
  repeat split; try congruence.
  - destruct Hs1 as [E1 _]; [assumption|].
    destruct Hs2 as [E2 _]; congruence.
  - destruct Hs1 as [_ E1]; [assumption|].
    destruct Hs2 as [_ E2]; congruence.
  - destruct Hc1 as [E1 _]; [assumption|].
    destruct Hc2 as [E2 _]; congruence.
  - destruct Hc1 as [_ E1]; [assumption|].
    destruct Hc2 as [_ E2]; congruence.
Qed.

Lemma quiet_pure {A} (m : M A) : (forall w, snd (m w) = w) -> quiet m.
Proof. intros H w. rewrite H. apply frame_refl. Qed.

Lemma quiet_ret {A} (a : A) : quiet (ret a).
Proof. now apply quiet_pure. Qed.

Lemma quiet_raise {A} e : quiet (@raise A e).
Proof. now apply quiet_pure. Qed.

Lemma quiet_lift {A} (r : result A) : quiet (lift r).
Proof. now apply quiet_pure. Qed.

Lemma quiet_get_world : quiet get_world.
Proof. now apply quiet_pure. Qed.

Lemma quiet_split_mgm' path mgm : quiet (split_mgm' path mgm).
Proof. now apply quiet_pure. Qed.

Lemma quiet_format' path mgm : quiet (format' path mgm).
Proof. now apply quiet_pure. Qed.

Lemma quiet_get_protocol path mgm : quiet (get_protocol path mgm).
Proof. apply quiet_pure. intros w. now rewrite get_protocol_eq. Qed.

Lemma quiet_use_xrootd_path path : quiet (use_xrootd_path path).
Proof. apply quiet_pure. intros w. now rewrite use_xrootd_path_eq. Qed.

Lemma quiet_bind {A B} (m : M A) (f : A -> M B) :
  quiet m -> (forall a, quiet (f a)) -> quiet (bind m f).
Proof.
  intros Hm Hf w. unfold bind. specialize (Hm w).
  destruct (m w) as [[a|e] w1]; simpl in *; [|assumption].
  eapply frame_trans; [eassumption | apply Hf].
Qed.

Lemma quiet_finally {A} (m : M A) (h : M unit) :
  quiet m -> quiet h -> quiet (finally m h).
Proof.
  intros Hm Hh w. unfold finally. specialize (Hm w).
  destruct (m w) as [r w1]. simpl in Hm. specialize (Hh w1).
  destruct (h w1) as [[u|e] w2]; simpl in *;
    eapply frame_trans; eassumption.
Qed.

Lemma quiet_for_each {A} (l : list A) (body : A -> M unit) :
  (forall a, quiet (body a)) -> quiet (for_each l body).
Proof.
  intros Hb. induction l as [|x l IH]; cbn [for_each].
  - apply quiet_ret.
  - apply quiet_bind; [apply Hb | intros _; exact IH].
Qed.

Lemma frame_spawned w (f : list (list string) -> list (list string)) :
  DRYMODE w = false -> frame w (set_spawned f w).
Proof. intros H. unfold frame. cbn. rewrite H. repeat split; discriminate. Qed.

Lemma frame_slept w (f : nat -> nat) :
  DRYMODE w = false -> frame w (set_slept f w).
Proof. intros H. unfold frame. cbn. rewrite H. repeat split; discriminate. Qed.

Lemma run_command_attempts_frame cmd ok n_retries fuel :
  forall i_attempt w,
  frame w (snd (run_command_attempts fuel cmd (DRYMODE w) ok n_retries
                  i_attempt w)).
Proof.
  induction fuel as [|fuel IH]; intros i_attempt w;
    cbn [run_command_attempts];
    destruct (DRYMODE w) eqn:Hdry; try apply frame_refl;
    destruct (popen (spawned w) cmd) as [output returncode|errno];
    try apply frame_refl;
    destruct (Z.eqb returncode 0); try (now apply frame_spawned);
    destruct ok; try (now apply frame_spawned);
    destruct (Nat.ltb i_attempt n_retries); try (now apply frame_spawned).
  eapply frame_trans; [now apply (frame_spawned w)|].
  eapply frame_trans; [now apply frame_slept|].
  specialize (IH (i_attempt + 1)%nat
                (set_slept S (set_spawned (fun l => l ++ [cmd]) w))).
  cbn [DRYMODE set_slept set_spawned] in IH. rewrite Hdry in IH. exact IH.
Qed.

Lemma quiet_run_command cmd ok n_retries :
  quiet (run_command cmd None ok n_retries).
Proof. intros w. unfold run_command. apply run_command_attempts_frame. Qed.

Lemma quiet_get_exitcode cmd : quiet (get_exitcode cmd).
Proof.
  intros w. unfold get_exitcode. destruct (DRYMODE w) eqn:Hdry;
    [apply frame_refl|].
  destruct (popen (spawned w) cmd); [now apply frame_spawned | apply frame_refl].
Qed.

Lemma quiet_read_cache name key : quiet (read_cache name key).
Proof.
  intros w. unfold read_cache, make_cache.
  destruct (USE_CACHE w) eqn:E; cbn [negb]; [|apply frame_refl].
  destruct (CACHES w !! name); cbn; unfold frame; cbn; rewrite E;
    repeat split; discriminate.
Qed.

Lemma quiet_write_cache name key v : quiet (write_cache name key v).
Proof.
  intros w. unfold write_cache, make_cache.
  destruct (USE_CACHE w) eqn:E; cbn [negb]; [|apply frame_refl].
  destruct (CACHES w !! name); cbn; unfold frame; cbn; rewrite E;
    repeat split; discriminate.
Qed.

Lemma quiet_os_makedirs d : quiet (os_makedirs d).
Proof.
  intros w. unfold os_makedirs. destruct (decide (d ∈ dirs w));
    [apply frame_refl|]. unfold frame. cbn. tauto.
Qed.

Lemma quiet_shutil_rmtree d : quiet (shutil_rmtree d).
Proof.
  intros w. unfold shutil_rmtree. destruct (decide (d ∈ dirs w));
    [|apply frame_refl]. unfold frame. cbn. tauto.
Qed.

Lemma quiet_draw_uuid : quiet draw_uuid.
Proof. intros w. unfold draw_uuid, frame. cbn. tauto. Qed.

(** Takes a goal [quiet m] apart along the structure of [m]. *)
Ltac quiet :=
  repeat first
    [ apply quiet_ret | apply quiet_raise | apply quiet_lift
    | apply quiet_run_command | apply quiet_get_exitcode
    | apply quiet_split_mgm' | apply quiet_format'
    | apply quiet_get_protocol
    | apply quiet_use_xrootd_path | apply quiet_get_world
    | apply quiet_read_cache | apply quiet_write_cache
    | apply quiet_os_makedirs | apply quiet_shutil_rmtree
    | apply quiet_draw_uuid
    | apply quiet_bind; [|intros ?]
    | match goal with
      | |- quiet (let '(_, _) := ?r in _) => destruct r
      | |- quiet (if ?b then _ else _) => destruct b
      | |- quiet (match ?o with DryRun => _ | Output _ => _ | ExitCode _ => _ end) =>
          destruct o
      | |- quiet (match ?v with VNone => _ | _ => _ end) => destruct v
      | |- quiet (match ?m with xrdcp => _ | gfal_copy => _ end) => destruct m
      | |- quiet (match ?m with Some _ => _ | None => _ end) => destruct m
      end ].

Lemma quiet__stat_gfal path not_exist_ok : quiet (_stat_gfal path not_exist_ok).
Proof. unfold _stat_gfal. quiet. Qed.

Lemma quiet__stat_xrootd path not_exist_ok :
  quiet (_stat_xrootd path not_exist_ok).
Proof. unfold _stat_xrootd. quiet. Qed.

Lemma quiet_stat path not_exist_ok : quiet (stat path not_exist_ok).
Proof.
  unfold stat. quiet; first [apply quiet__stat_xrootd | apply quiet__stat_gfal].
Qed.

Lemma quiet_exists path : quiet (exists_ path).
Proof. unfold exists_, _exists_xrootd, _exists_gfal. quiet. Qed.

Lemma quiet__isdir_xrootd directory : quiet (_isdir_xrootd directory).
Proof. unfold _isdir_xrootd. quiet. Qed.

Lemma quiet_isdir directory : quiet (isdir directory).
Proof.
  unfold isdir, _isdir_gfal, attr_isdir.
  quiet; first [apply quiet__isdir_xrootd | apply quiet__stat_gfal].
Qed.

Lemma quiet_isfile path : quiet (isfile path).
Proof.
  unfold isfile, _isfile_xrootd, _isfile_gfal, attr_isfile.
  quiet; apply quiet__stat_gfal.
Qed.

Lemma quiet_is_file_or_dir path : quiet (is_file_or_dir path).
Proof.
  unfold is_file_or_dir, _is_file_or_dir_xrootd, _is_file_or_dir_gfal.
  quiet; try apply quiet__stat_gfal.
Qed.

Lemma quiet_listdir directory stat assume_directory :
  quiet (listdir directory stat assume_directory).
Proof.
  unfold listdir, _listdir_xrootd, _listdir_gfal.
  quiet; apply quiet_isdir.
Qed.

Lemma quiet_ls path stat assume_directory no_expand_directory :
  quiet (ls path stat assume_directory no_expand_directory).
Proof.
  unfold ls, stat_function.
  quiet; first [apply quiet_is_file_or_dir | apply quiet_stat
               | apply quiet_listdir].
Qed.

Lemma quiet_mkdir directory : quiet (mkdir directory).
Proof. unfold mkdir, _mkdir_xrootd, _mkdir_gfal. quiet. Qed.

Lemma quiet_rm find_eos path recursive : quiet (rm find_eos path recursive).
Proof.
  unfold rm, _rm_eos, _rm_gfal. quiet; apply quiet__isdir_xrootd.
Qed.

Lemma quiet__rm_xrootd path recursive : quiet (_rm_xrootd path recursive).
Proof. unfold _rm_xrootd. quiet; apply quiet__isdir_xrootd. Qed.

Lemma quiet_cp src dst method kw : quiet (cp src dst method kw).
Proof. unfold cp, _cp_xrdcp, _cp_gfal. quiet. Qed.

Lemma quiet_cp_to_se src dst kw : quiet (cp_to_se src dst kw).
Proof. unfold cp_to_se. quiet; apply quiet_cp. Qed.

Lemma quiet_cp_from_se src dst kw : quiet (cp_from_se src dst kw).
Proof. unfold cp_from_se. quiet; apply quiet_cp. Qed.

Lemma walk_directories_frame {St}
    (step : string -> St -> nat -> world -> walking St) :
  (forall path s counter w, frame w (snd (step path s counter w))) ->
  forall directories s counter w,
    frame w (snd (walk_directories step directories s counter w)).
Proof.
  intros Hstep. induction directories as [|d directories IH];
    intros s counter w; cbn [walk_directories].
  - apply frame_refl.
  - specialize (Hstep (Inode.path d) s counter w).
    destruct (step (Inode.path d) s counter w) as [[[s'|e] counter'] w'];
      cbn [snd] in *; [|assumption].
    eapply frame_trans; [eassumption | apply IH].
Qed.

Lemma _walk_frame {St} limit (c : consumer St) stat fuel :
  forall path s counter w,
    frame w (snd (_walk limit fuel c stat path s counter w)).
Proof.
  induction fuel as [|fuel IH]; intros path s counter w;
    unfold _walk; fold (@_walk St);
    destruct (Nat.leb limit counter); try apply frame_refl.
  assert (Hls := quiet_ls path true true false w).
  destruct (ls path true true false w) as [[contents|e] w1];
    cbn [snd] in *; [|assumption].
  destruct (inodes_of contents) as [inodes|e]; [|assumption].
  match goal with
  | |- context [match ?y with Ok _ => _ | Raise _ => _ end] =>
      destruct y as [[s' directories]|e]
  end; [|assumption].
  eapply frame_trans; [eassumption|].
  apply walk_directories_frame. apply IH.
Qed.

Lemma quiet_walk {St} (c : consumer St) path stat s :
  quiet (walk c path stat s).
Proof.
  intros w. unfold walk, walk_with.
  assert (Hf := quiet_format' path None w).
  destruct (format' path None w) as [[formatted|e] w1]; cbn [snd] in *;
    [|assumption].
  assert (Hq := quiet_is_file_or_dir formatted w1).
  destruct (is_file_or_dir formatted w1) as [[status|e] w2]; cbn [snd] in *;
    [|eapply frame_trans; eassumption].
  destruct (negb (eq_int status 1)); cbn [snd];
    [eapply frame_trans; eassumption|].
  assert (Hw := _walk_frame MAX_RECURSION_DEPTH c stat
                  (S MAX_RECURSION_DEPTH) formatted s 0%nat w2).
  destruct (_walk MAX_RECURSION_DEPTH (S MAX_RECURSION_DEPTH) c stat
              formatted s 0%nat w2) as [[r counter] w3].
  cbn [snd] in *.
  eapply frame_trans; [eassumption|]. eapply frame_trans; eassumption.
Qed.

Lemma quiet_ls_wildcard pattern stat : quiet (ls_wildcard pattern stat).
Proof.
  unfold ls_wildcard.
  apply quiet_bind; [apply quiet_format'|]. intros formatted.
  destruct (negb (Py.contains "*" formatted)); [apply quiet_ls|].
  destruct (Py.rsplit1 "/" formatted) as [|head [|last [|x l]]];
    try apply quiet_raise.
  - destruct (negb stat && negb (Py.contains "*" head));
      [apply quiet_raise|].
    apply quiet_bind; [apply quiet_walk | intros ?; apply quiet_ret].
  - destruct (negb stat && negb (Py.contains "*" head)).
    + apply quiet_bind; [apply quiet_ls|]. intros contents.
      destruct (String.eqb last "*"); [apply quiet_ret|].
      apply quiet_bind; [apply quiet_lift|]. intros regex.
      destruct contents; try apply quiet_raise.
      apply quiet_bind; [apply quiet_lift | intros ?; apply quiet_ret].
    + apply quiet_bind; [apply quiet_walk | intros ?; apply quiet_ret].
  - destruct (negb stat && negb (Py.contains "*" head));
      [apply quiet_raise|].
    apply quiet_bind; [apply quiet_walk | intros ?; apply quiet_ret].
Qed.

Lemma quiet__hadd root_files dst dry : quiet (_hadd root_files dst dry).
Proof.
  unfold _hadd. destruct dry; [apply quiet_ret|].
  intros w.
  assert (H := quiet_run_command (["hadd"; "-f"; dst] ++ root_files) false 0 w).
  destruct (run_command _ None false 0 w) as [[o|e] w1]; cbn [snd] in *;
    [assumption|].
  destruct e; try assumption.
  now destruct (Z.eqb errno 2).
Qed.

Lemma quiet__hadd_chunks_rec fuel :
  forall root_files dst n_threads chunk_size tmpdir dry,
    quiet (_hadd_chunks_rec fuel root_files dst n_threads chunk_size tmpdir dry).
Proof.
  induction fuel as [|fuel IH]; intros root_files dst n_threads chunk_size
    tmpdir dry; cbn [_hadd_chunks_rec];
    (destruct (Nat.eqb (length root_files) 0); [apply quiet_raise|]);
    (destruct (Nat.ltb (length root_files) chunk_size); [apply quiet__hadd|]);
    (destruct (Nat.eqb chunk_size 0); [apply quiet_raise|]);
    (apply quiet_bind; [apply quiet_draw_uuid|]); intros u;
    (apply quiet_bind; [apply quiet_os_makedirs|]); intros _;
    (apply quiet_finally; [|apply quiet_shutil_rmtree]);
    (apply quiet_bind;
     [destruct (negb dry); [|apply quiet_ret];
      intros w0; apply (pool_map_keeps frame);
      [apply frame_refl | apply frame_trans
      |intros [[rf d] dr] w'; apply quiet__hadd]|]);
    intros _.
  - apply quiet_raise.
  - apply IH.
Qed.

Lemma frame_served r w : frame w (served r w).
Proof.
  destruct r; cbn [served].
  - apply quiet_mkdir.
  - apply quiet_rm.
  - apply quiet_cp.
  - apply quiet_cp_to_se.
  - apply quiet_cp_from_se.
  - apply quiet_stat.
  - apply quiet_exists.
  - apply quiet_isdir.
  - apply quiet_isfile.
  - apply quiet_is_file_or_dir.
  - apply quiet_listdir.
  - apply quiet_ls.
  - apply quiet_ls_wildcard.
  - apply quiet__hadd_chunks_rec.
Qed.


(** X6. With the cache off no call touches the caches: after each of the
    calls, and after a [walk] read to its end by any loop, the caches in
    memory and the stored ones are what they were. *)
Theorem cache_off_leaves_caches w :
  USE_CACHE w = false ->
  (forall r, CACHES (served r w) = CACHES w /\
             CACHEDIR (served r w) = CACHEDIR w)
  /\ (forall St (c : consumer St) path stat s,
         CACHES (snd (walk c path stat s w)) = CACHES w /\
         CACHEDIR (snd (walk c path stat s w)) = CACHEDIR w).
Proof.
  intros Hoff. split.
  - intros r. destruct (frame_served r w) as (_ & _ & _ & _ & H). now apply H.
  - intros St c path stat s.
    destruct (quiet_walk c path stat s w) as (_ & _ & _ & _ & H). now apply H.
Qed.

(** X7. No call changes the settings of the module: the default mgm, the
    dry mode and the cache switch are after each call, and after a [walk],
    what they were before. *)
Theorem settings_unchanged w :
  (forall r, DEFAULT_MGM (served r w) = DEFAULT_MGM w /\
             DRYMODE (served r w) = DRYMODE w /\
             USE_CACHE (served r w) = USE_CACHE w)
  /\ (forall St (c : consumer St) path stat s,
         DEFAULT_MGM (snd (walk c path stat s w)) = DEFAULT_MGM w /\
         DRYMODE (snd (walk c path stat s w)) = DRYMODE w /\
         USE_CACHE (snd (walk c path stat s w)) = USE_CACHE w).
Proof.
  split.
  - intros r. destruct (frame_served r w) as (? & ? & ? & _). auto.
  - intros St c path stat s.
    destruct (quiet_walk c path stat s w) as (? & ? & ? & _). auto.
Qed.

(** ** The flexible format of the command line *)

Lemma format_no_conflict D path mgm :
  (has_protocol path = true -> mgm = None) ->
  format D path mgm <> Raise ConflictingServer.
Proof.
  intros Hm. unfold format, split_mgm, _split_mgm_pfn, split_protocol_pfn,
    _join_mgm_lfn, get_default_mgm.
  destruct (has_protocol path).
  - rewrite (Hm eq_refl). cbn [negb].
    destruct (Py.split1 "://" path) as [|protocol [|rest [|x l]]];
      try discriminate.
    destruct (negb (Py.contains "//" rest)); [discriminate|].
    destruct (Py.split1 "//" rest) as [|server [|lfn [|x l]]];
      discriminate.
  - destruct mgm as [m|]; [|destruct D as [m|]; [|discriminate]];
      destruct (Py.startswith path "/") eqn:E; cbn [negb]; rewrite ?E;
      cbn [negb]; discriminate.
Qed.

(** X8. [cli_flexible_format] never raises the error of conflicting mgms:
    for a path that names its server it drops the mgm it was passed, where
    [format] compares the two. *)
Theorem cli_flexible_format_no_conflict USER lfn mgm w :
  fst (cli_flexible_format USER lfn mgm w) <> Raise ConflictingServer.
Proof.
  unfold cli_flexible_format.
  match goal with
  | |- context [has_protocol ?l'] =>
      match l' with
      | lfn => fail 1
      | _ => generalize l'
      end
  end.
  intros lfn'. destruct (has_protocol lfn') eqn:E; unfold format'; cbn [fst];
    apply format_no_conflict; [reflexivity | congruence].
Qed.

(** ** What a dry run answers *)

Lemma protocol_of_split D path protocol :
  protocol_of D path None = Ok protocol ->
  exists mgm lfn, split_mgm D path None = Ok (mgm, lfn).
Proof.
  unfold protocol_of, format.
  destruct (split_mgm D path None) as [[mgm lfn]|e]; [eauto | discriminate].
Qed.

(** X9. In dry mode, with the cache off, the queries on a path behind
    xrootd are answered without a question asked: the path exists, is a
    directory and no file, and its listing is empty, whatever the path; and
    [stat] raises, for want of a size in the output. The world stays as it
    is. *)
Theorem dry_mode_answers path w :
  DRYMODE w = true ->
  USE_CACHE w = false ->
  protocol_of (DEFAULT_MGM w) path None = Ok "root" ->
  exists_ path w = (Ok (VBool true), w) /\
  isdir path w = (Ok (VBool true), w) /\
  isfile path w = (Ok (VBool false), w) /\
  is_file_or_dir path w = (Ok (VInt 1), w) /\
  (forall stat assume_directory,
      listdir path stat assume_directory w = (Ok (VList []), w)) /\
  (forall not_exist_ok,
      stat path not_exist_ok w
      = (Raise (RuntimeError "Could not extract size from stat"), w)).
Proof.
  intros Hd Hc Hx.
  destruct (protocol_of_split _ _ _ Hx) as (mgm & lfn & Hs).
  assert (Hdir : isdir path w = (Ok (VBool true), w)).
  { unfold isdir.
    rewrite (bind_Ok _ _ _ _ _ (read_cache_off _ _ _ Hc)).
    erewrite bind_Ok; [|rewrite use_xrootd_path_eq, Hx; reflexivity].
    change (use_xrootd "root") with true. cbv iota.
    erewrite bind_Ok.
    2:{ unfold _isdir_xrootd.
        erewrite bind_Ok; [|rewrite split_mgm'_eq, Hs; reflexivity].
        cbv iota beta.
        erewrite bind_Ok; [|unfold get_exitcode; rewrite Hd; reflexivity].
        reflexivity. }
    now rewrite (bind_Ok _ _ _ _ _ (write_cache_off _ _ _ _ Hc)). }
  repeat split.
  - unfold exists_.
    rewrite (bind_Ok _ _ _ _ _ (read_cache_off _ _ _ Hc)).
    erewrite bind_Ok; [|rewrite use_xrootd_path_eq, Hx; reflexivity].
    change (use_xrootd "root") with true. cbv iota.
    erewrite bind_Ok.
    2:{ unfold _exists_xrootd.
        erewrite bind_Ok; [|rewrite split_mgm'_eq, Hs; reflexivity].
        cbv iota beta.
        erewrite bind_Ok; [|unfold get_exitcode; rewrite Hd; reflexivity].
        reflexivity. }
    now rewrite (bind_Ok _ _ _ _ _ (write_cache_off _ _ _ _ Hc)).
  - exact Hdir.
  - unfold isfile.
    rewrite (bind_Ok _ _ _ _ _ (read_cache_off _ _ _ Hc)).
    erewrite bind_Ok; [|rewrite use_xrootd_path_eq, Hx; reflexivity].
    change (use_xrootd "root") with true. cbv iota.
    erewrite bind_Ok.
    2:{ unfold _isfile_xrootd.
        erewrite bind_Ok; [|rewrite split_mgm'_eq, Hs; reflexivity].
        cbv iota beta.
        erewrite bind_Ok; [|unfold get_exitcode; rewrite Hd; reflexivity].
        reflexivity. }
    now rewrite (bind_Ok _ _ _ _ _ (write_cache_off _ _ _ _ Hc)).
  - unfold is_file_or_dir.
    rewrite (bind_Ok _ _ _ _ _ (read_cache_off _ _ _ Hc)).
    erewrite bind_Ok; [|rewrite use_xrootd_path_eq, Hx; reflexivity].
    change (use_xrootd "root") with true. cbv iota.
    erewrite bind_Ok.
    2:{ unfold _is_file_or_dir_xrootd.
        erewrite bind_Ok; [|rewrite split_mgm'_eq, Hs; reflexivity].
        cbv iota beta.
        erewrite bind_Ok; [|unfold get_exitcode; rewrite Hd; reflexivity].
        reflexivity. }
    now rewrite (bind_Ok _ _ _ _ _ (write_cache_off _ _ _ _ Hc)).
  - intros stat assume_directory. unfold listdir.
    rewrite (bind_Ok _ _ _ _ _ (read_cache_off _ _ _ Hc)).
    cbn [falsy].
    erewrite bind_Ok.
    2:{ destruct assume_directory; cbn [negb]; [reflexivity|].
        rewrite (bind_Ok _ _ _ _ _ Hdir). reflexivity. }
    erewrite bind_Ok; [|rewrite use_xrootd_path_eq, Hx; reflexivity].
    change (use_xrootd "root") with true. cbv iota.
    erewrite bind_Ok.
    2:{ unfold _listdir_xrootd.
        erewrite bind_Ok; [|rewrite split_mgm'_eq, Hs; reflexivity].
        cbv iota beta.
        erewrite bind_Ok; [|unfold run_command; rewrite Hd; reflexivity].
        reflexivity. }
    now rewrite (bind_Ok _ _ _ _ _ (write_cache_off _ _ _ _ Hc)).
  - intros not_exist_ok. unfold stat.
    rewrite (bind_Ok _ _ _ _ _ (read_cache_off _ _ _ Hc)).
    erewrite bind_Ok; [|rewrite use_xrootd_path_eq, Hx; reflexivity].
    change (use_xrootd "root") with true. cbv iota.
    erewrite bind_Raise; [reflexivity|].
    unfold _stat_xrootd.
    erewrite bind_Ok; [|rewrite split_mgm'_eq, Hs; reflexivity].
    cbv iota beta.
    erewrite bind_Ok; [|unfold run_command; rewrite Hd; reflexivity].
    reflexivity.
Qed.

(** ** A dry run with the cache on *)

Lemma isdir_xrootd_miss directory w :
  USE_CACHE w = true ->
  fst (read_cache "seutils-cache.isdir" (PyText.strip directory) w) = Ok VNone ->
  protocol_of (DEFAULT_MGM w) directory None = Ok "root" ->
  forall mgm lfn status w1,
  split_mgm (DEFAULT_MGM w) directory None = Ok (mgm, lfn) ->
  get_exitcode ["xrdfs"; mgm; "stat"; "-q"; "IsDir"; lfn]
    (snd (read_cache "seutils-cache.isdir" (PyText.strip directory) w))
  = (Ok status, w1) ->
  isdir directory w
  = (Ok (VBool (Z.eqb status 0)),
     snd (write_cache "seutils-cache.isdir" (PyText.strip directory)
            (VBool (Z.eqb status 0)) w1)).
Proof.
  intros Hu Hmiss Hx mgm lfn status w1 Hs Hg.
  unfold isdir.
  destruct (read_cache_on "seutils-cache.isdir" (PyText.strip directory) w Hu)
    as (c & w0 & Hr & Hu0 & Hc0 & _).
  rewrite Hr in Hmiss, Hg. cbn [fst snd] in Hmiss, Hg.
  injection Hmiss as Hmiss.
  rewrite (bind_Ok _ _ _ _ _ Hr), Hmiss.
  assert (Hm0 : DEFAULT_MGM w0 = DEFAULT_MGM w).
  { destruct (quiet_read_cache "seutils-cache.isdir" (PyText.strip directory) w)
      as [H _]. now rewrite Hr in H. }
  erewrite bind_Ok; [|rewrite use_xrootd_path_eq, Hm0, Hx; reflexivity].
  change (use_xrootd "root") with true. cbv iota.
  erewrite bind_Ok.
  2:{ unfold _isdir_xrootd.
      erewrite bind_Ok; [|rewrite split_mgm'_eq, Hm0, Hs; reflexivity].
      cbv iota beta.
      erewrite bind_Ok; [|exact Hg].
      reflexivity. }
  unfold bind.
  destruct (write_cache "seutils-cache.isdir" (PyText.strip directory)
              (VBool (Z.eqb status 0)) w1) as [[[]|e] w2] eqn:Hw;
    [reflexivity|].
  unfold write_cache in Hw. destruct (USE_CACHE w1); [|discriminate].
  destruct (make_cache "seutils-cache.isdir" w1). discriminate.
Qed.

Lemma read_cache_drymode name key flag w :
  read_cache name key (snd (drymode flag w))
  = (fst (read_cache name key w),
     snd (drymode flag (snd (read_cache name key w)))).
Proof.
  unfold read_cache, make_cache, drymode. cbn [snd USE_CACHE CACHES].
  destruct (USE_CACHE w) eqn:E; cbn [negb].
  - destruct (CACHES w !! name); cbn; now rewrite ?E.
  - cbn. now rewrite E.
Qed.

(** What is written is stored. *)
Lemma write_cache_stored name key v w :
  USE_CACHE w = true ->
  FileCache.get
    (FileCache.open name (CACHEDIR (snd (write_cache name key v w))))
    key VNone = v.
Proof.
  intros Hu. unfold write_cache, make_cache. rewrite Hu. cbn [negb].
  destruct (CACHES w !! name); simpl;
    unfold FileCache.open, FileCache.get, FileCache.setitem;
    rewrite lookup_insert_eq; simpl; now rewrite lookup_insert_eq.
Qed.

(** X10. A dry run with the cache on leaves its answer behind: [isdir] on a
    path behind xrootd that the cache does not hold answers [True] in dry
    mode and stores that; once dry mode is switched off the same call
    still answers [True], from the cache and without a command spawned,
    whatever the path is on the storage element. *)
Theorem dry_run_answer_is_served directory w :
  USE_CACHE w = true ->
  fst (read_cache "seutils-cache.isdir" (PyText.strip directory) w) = Ok VNone ->
  protocol_of (DEFAULT_MGM w) directory None = Ok "root" ->
  exists w1 w2,
    (drymode true ;;; isdir directory) w = (Ok (VBool true), w1) /\
    (drymode false ;;; isdir directory) w1 = (Ok (VBool true), w2) /\
    DRYMODE w2 = false /\
    spawned w2 = spawned w /\
    FileCache.get (FileCache.open "seutils-cache.isdir" (CACHEDIR w2))
      (PyText.strip directory) VNone = VBool true.
Proof.
  intros Hu Hmiss Hx.
  destruct (protocol_of_split _ _ _ Hx) as (mgm & lfn & Hs).
  set (name := "seutils-cache.isdir") in *.
  set (key := PyText.strip directory) in *.
  destruct (read_cache_on name key w Hu) as (c & w0 & Hr & Hu0 & _ & Hsp0).
  rewrite Hr in Hmiss. cbn [fst] in Hmiss.
  set (wr := snd (drymode true w0)).
  assert (Hrd : read_cache name key (snd (drymode true w)) = (Ok VNone, wr)).
  { rewrite read_cache_drymode, Hr. cbn [fst snd]. now rewrite Hmiss. }
  assert (Hur : USE_CACHE wr = true) by exact Hu0.
  assert (Hspr : spawned wr = spawned w) by exact Hsp0.
  assert (Hdr : DRYMODE wr = true) by reflexivity.
  assert (Hdry : isdir directory (snd (drymode true w))
                 = (Ok (VBool true), snd (write_cache name key (VBool true) wr))).
  { apply (isdir_xrootd_miss directory (snd (drymode true w)) Hu)
      with (mgm := mgm) (lfn := lfn) (status := 0); try assumption.
    - fold name key. now rewrite Hrd.
    - fold name key. rewrite Hrd. cbn [snd].
      unfold get_exitcode. now rewrite Hdr. }
  destruct (write_cache_on name key (VBool true) wr Hur)
    as (c1 & w1 & Hw & Hu1 & Hc1 & Hg1 & Hsp1).
  exists w1, (snd (drymode false w1)).
  assert (Hstored := write_cache_stored name key (VBool true) wr Hur).
  rewrite Hw in Hdry, Hstored. cbn [snd] in Hdry, Hstored.
  repeat split.
  - exact Hdry.
  - unfold bind at 1. cbn [drymode].
    unfold isdir. fold name key.
    erewrite bind_Ok.
    2:{ apply (read_cache_open name key _ c1); [exact Hu1 | exact Hc1]. }
    rewrite Hg1. reflexivity.
  - cbn. congruence.
  - exact Hstored.
Qed.

(** ** Removal *)

Lemma _isdir_xrootd_run path mgm lfn w status w' :
  split_mgm (DEFAULT_MGM w) path None = Ok (mgm, lfn) ->
  get_exitcode ["xrdfs"; mgm; "stat"; "-q"; "IsDir"; lfn] w = (Ok status, w') ->
  _isdir_xrootd path w = (Ok (VBool (Z.eqb status 0)), w').
Proof.
  intros Hs Hg. unfold _isdir_xrootd.
  erewrite bind_Ok; [|rewrite split_mgm'_eq, Hs; reflexivity].
  cbv iota beta. now rewrite (bind_Ok _ _ _ _ _ Hg).
Qed.

Lemma get_exitcode_dry cmd w :
  DRYMODE w = true -> get_exitcode cmd w = (Ok 0, w).
Proof. unfold get_exitcode. now intros ->. Qed.

(** What [_rm_eos] and [_rm_xrootd] do with a directory when the removal is
    not recursive. *)
Lemma rm_directory_refused path mgm lfn w w' :
  split_mgm (DEFAULT_MGM w) path None = Ok (mgm, lfn) ->
  get_exitcode ["xrdfs"; mgm; "stat"; "-q"; "IsDir"; lfn] w = (Ok 0, w') ->
  _rm_eos path false w
  = (Raise (RuntimeError "is a directory but rm instruction is not recursive"),
     w') /\
  _rm_xrootd path false w
  = (Raise (RuntimeError "is a directory but rm instruction is not recursive"),
     w').
Proof.
  intros Hs Hg.
  assert (Hd := _isdir_xrootd_run path mgm lfn w 0 w' Hs Hg).
  split.
  - unfold _rm_eos.
    erewrite bind_Ok; [|rewrite split_mgm'_eq, Hs; reflexivity].
    cbv iota beta. rewrite (bind_Ok _ _ _ _ _ Hd). reflexivity.
  - unfold _rm_xrootd.
    erewrite bind_Ok; [|rewrite split_mgm'_eq, Hs; reflexivity].
    cbv iota beta. rewrite (bind_Ok _ _ _ _ _ Hd). reflexivity.
Qed.

Lemma rm_with_eos path formatted recursive w :
  format (DEFAULT_MGM w) path None = Ok formatted ->
  protocol_of (DEFAULT_MGM w) formatted None = Ok "root" ->
  rm (Ok true) path recursive w = _rm_eos formatted recursive w.
Proof.
  intros Hf Hx. unfold rm.
  erewrite bind_Ok; [|rewrite format'_eq, Hf; reflexivity].
  erewrite bind_Ok; [|reflexivity].
  erewrite bind_Ok; [|rewrite use_xrootd_path_eq, Hx; reflexivity].
  reflexivity.
Qed.

(** X11. A removal that is not recursive refuses a directory: with the
    [eos] tool at hand, [rm] on a path behind xrootd that the server reports
    as a directory raises, and the query for the kind of the path is the one
    command it spawned; so does [_rm_xrootd]. *)
Theorem rm_refuses_directory path formatted mgm lfn w output :
  DRYMODE w = false ->
  format (DEFAULT_MGM w) path None = Ok formatted ->
  protocol_of (DEFAULT_MGM w) formatted None = Ok "root" ->
  split_mgm (DEFAULT_MGM w) formatted None = Ok (mgm, lfn) ->
  popen (spawned w) ["xrdfs"; mgm; "stat"; "-q"; "IsDir"; lfn]
  = Exited output 0 ->
  rm (Ok true) path false w
  = (Raise (RuntimeError "is a directory but rm instruction is not recursive"),
     set_spawned
       (fun l => l ++ [["xrdfs"; mgm; "stat"; "-q"; "IsDir"; lfn]]) w) /\
  _rm_xrootd formatted false w
  = (Raise (RuntimeError "is a directory but rm instruction is not recursive"),
     set_spawned
       (fun l => l ++ [["xrdfs"; mgm; "stat"; "-q"; "IsDir"; lfn]]) w).
Proof.
  intros Hd Hf Hx Hs Hp.
  rewrite (rm_with_eos _ _ _ _ Hf Hx).
  apply (rm_directory_refused formatted mgm lfn); [assumption|].
  now apply (get_exitcode_run _ _ output).
Qed.

(** X12. In dry mode every path behind xrootd counts as a directory, so
    that with the [eos] tool at hand a removal that is not recursive is
    refused, whatever the path. *)
Theorem rm_dry_mode_refuses path formatted w :
  DRYMODE w = true ->
  format (DEFAULT_MGM w) path None = Ok formatted ->
  protocol_of (DEFAULT_MGM w) formatted None = Ok "root" ->
  rm (Ok true) path false w
  = (Raise (RuntimeError "is a directory but rm instruction is not recursive"),
     w).
Proof.
  intros Hd Hf Hx.
  destruct (protocol_of_split _ _ _ Hx) as (mgm & lfn & Hs).
  rewrite (rm_with_eos _ _ _ _ Hf Hx).
  apply (rm_directory_refused formatted mgm lfn); [assumption|].
  now apply get_exitcode_dry.
Qed.

(** X13. The commands of a recursive removal that goes well. With the
    [eos] tool at hand and a path behind xrootd, [rm] asks for the kind of
    the path and spawns [eos mgm rm -r lfn]; without the tool it spawns
    [gfal-rm -r path] on the formatted path and asks nothing, whatever the
    protocol. *)
Theorem rm_recursive_commands path formatted w :
  DRYMODE w = false ->
  format (DEFAULT_MGM w) path None = Ok formatted ->
  (forall mgm lfn status o1 o2,
      protocol_of (DEFAULT_MGM w) formatted None = Ok "root" ->
      split_mgm (DEFAULT_MGM w) formatted None = Ok (mgm, lfn) ->
      popen (spawned w) ["xrdfs"; mgm; "stat"; "-q"; "IsDir"; lfn]
      = Exited o1 status ->
      popen (spawned w ++ [["xrdfs"; mgm; "stat"; "-q"; "IsDir"; lfn]])
        ["eos"; mgm; "rm"; "-r"; lfn] = Exited o2 0 ->
      rm (Ok true) path true w
      = (Ok tt,
         set_spawned
           (fun l => l ++ [["xrdfs"; mgm; "stat"; "-q"; "IsDir"; lfn];
                           ["eos"; mgm; "rm"; "-r"; lfn]]) w)) /\
  (forall o,
      popen (spawned w) ["gfal-rm"; "-r"; formatted] = Exited o 0 ->
      rm (Ok false) path true w
      = (Ok tt,
         set_spawned (fun l => l ++ [["gfal-rm"; "-r"; formatted]]) w)).
Proof.
  intros Hd Hf. split.
  - intros mgm lfn status o1 o2 Hx Hs Hp1 Hp2.
    rewrite (rm_with_eos _ _ _ _ Hf Hx). unfold _rm_eos.
    erewrite bind_Ok; [|rewrite split_mgm'_eq, Hs; reflexivity].
    cbv iota beta.
    erewrite bind_Ok.
    2:{ apply (_isdir_xrootd_run formatted mgm lfn w status); [assumption|].
        now apply (get_exitcode_run _ _ o1). }
    erewrite bind_Ok.
    2:{ destruct (negb (falsy (VBool (Z.eqb status 0)))); reflexivity. }
    cbn [PyText.insert_before_last].
    erewrite bind_Ok.
    2:{ apply (run_command_success _ _ _ _ o2); [exact Hd | exact Hp2]. }
    unfold ret, set_spawned. cbn. now rewrite <- app_assoc.
  - intros o Hp. unfold rm.
    erewrite bind_Ok; [|rewrite format'_eq, Hf; reflexivity].
    erewrite bind_Ok; [|reflexivity].
    erewrite bind_Ok; [|reflexivity].
    unfold _rm_gfal. cbn [PyText.insert_before_last].
    erewrite bind_Ok.
    2:{ apply (run_command_success _ _ _ _ o); [exact Hd | exact Hp]. }
    reflexivity.
Qed.

(** ** Copies *)

Lemma spawns_run_command_attempts (P : list string -> Prop) cmd dry ok
    n_retries fuel :
  P cmd ->
  forall i_attempt w, exists l,
    spawned (snd (run_command_attempts fuel cmd dry ok n_retries i_attempt w))
    = spawned w ++ l /\
    (length l <= S fuel)%nat /\ Forall P l.
Proof.
  intros Hc.
  assert (Hnone : forall (r : result cmd_output) w k, exists l,
             spawned (snd (r, w)) = spawned w ++ l /\
             (length l <= S k)%nat /\ Forall P l).
  { intros r w k. exists []. rewrite app_nil_r.
    repeat split; [cbn; lia | constructor]. }
  assert (Hone : forall (r : result cmd_output) w k, exists l,
             spawned (snd (r, set_spawned (fun l => l ++ [cmd]) w))
             = spawned w ++ l /\ (length l <= S k)%nat /\ Forall P l).
  { intros r w k. exists [cmd]. repeat split; [cbn; lia | auto]. }
  induction fuel as [|fuel IH]; intros i_attempt w;
    cbn [run_command_attempts];
    (destruct dry; [apply Hnone|]);
    (destruct (popen (spawned w) cmd) as [output returncode|errno];
     [|apply Hnone]);
    (destruct (Z.eqb returncode 0); [apply Hone|]);
    (destruct ok; [apply Hone|]);
    (destruct (Nat.ltb i_attempt n_retries); [|apply Hone]).
  - apply Hone.
  - destruct (IH (i_attempt + 1)%nat
                (set_slept S (set_spawned (fun l => l ++ [cmd]) w)))
      as (l & E & L & F).
    exists (cmd :: l). rewrite E. cbn [spawned set_slept set_spawned].
    rewrite <- app_assoc. repeat split; [cbn; lia | now constructor].
Qed.

Lemma spawns_run_command_retries (P : list string -> Prop) cmd dry ok n_retries :
  P cmd -> spawns P (S n_retries) (run_command cmd dry ok n_retries).
Proof.
  intros Hc w. unfold run_command. now apply spawns_run_command_attempts.
Qed.

(** X14. [cp] passes [src] and [dst] on as they are: each command it
    spawns is [xrdcp] or [gfal-copy], some flags, and then [src] and [dst]
    unchanged, with [-f] among the flags exactly when [force] is set; and it
    spawns [n_retries + 1] commands at most. *)
Theorem cp_commands src dst method kw :
  spawns (fun cmd => exists tool flags,
              cmd = tool :: flags ++ [src; dst] /\
              (tool = "xrdcp" \/ tool = "gfal-copy") /\
              ("-f" ∈ flags <-> kw_force kw = true))
    (S (kw_n_retries kw)) (cp src dst method kw).
Proof.
  assert (Hx : spawns (fun cmd => exists tool flags,
                 cmd = tool :: flags ++ [src; dst] /\
                 (tool = "xrdcp" \/ tool = "gfal-copy") /\
                 ("-f" ∈ flags <-> kw_force kw = true))
               (S (kw_n_retries kw)) (_cp_xrdcp src dst kw)).
  { unfold _cp_xrdcp. apply spawns_bind_r; [|intros; apply spawns_ret].
    apply spawns_run_command_retries.
    destruct kw as [n p v f]; cbn [kw_verbose kw_create_parent_directory
                                    kw_force kw_n_retries].
    exists "xrdcp",
      ((if f then ["-f"] else []) ++ (if p then ["-p"] else [])
       ++ (if negb v then ["-s"] else [])).
    destruct v, p, f; cbn [negb PyText.insert1 app];
      (split; [reflexivity|]); (split; [now left|]);
      (split;
       [intros H;
        first [reflexivity
              | exfalso;
                repeat (apply elem_of_cons in H as [H|H]; try discriminate);
                now apply elem_of_nil in H]
       |intros H; first [discriminate | apply elem_of_cons; now left]]). }
  assert (Hg : spawns (fun cmd => exists tool flags,
                 cmd = tool :: flags ++ [src; dst] /\
                 (tool = "xrdcp" \/ tool = "gfal-copy") /\
                 ("-f" ∈ flags <-> kw_force kw = true))
               (S (kw_n_retries kw)) (_cp_gfal src dst kw)).
  { unfold _cp_gfal. apply spawns_bind_r; [|intros; apply spawns_ret].
    apply spawns_run_command_retries.
    destruct kw as [n p v f]; cbn [kw_verbose kw_create_parent_directory
                                    kw_force kw_n_retries].
    exists "gfal-copy",
      ((if f then ["-f"] else []) ++ (if v then ["-v"] else [])
       ++ (if p then ["-p"] else []) ++ ["-t"; "180"]).
    destruct v, p, f; cbn [negb PyText.insert1 app];
      (split; [reflexivity|]); (split; [now right|]);
      (split;
       [intros H;
        first [reflexivity
              | exfalso;
                repeat (apply elem_of_cons in H as [H|H]; try discriminate);
                now apply elem_of_nil in H]
       |intros H; first [discriminate | apply elem_of_cons; now left]]). }
  unfold cp. apply spawns_bind_l.
  - destruct method as [m|]; [apply spawns_ret|].
    destruct (has_protocol src).
    + apply spawns_bind_l; [apply spawns_use_xrootd_path|].
      intros x. apply spawns_ret.
    + destruct (has_protocol dst); [|apply spawns_ret].
      apply spawns_bind_l; [apply spawns_use_xrootd_path|].
      intros x. apply spawns_ret.
  - intros [|]; assumption.
Qed.

(** ** The cost of a query *)

Lemma spawns_cached_query P k miss name key compute :
  spawns P k compute -> spawns P k (cached_query miss name key compute).
Proof.
  intros H. unfold cached_query.
  apply spawns_bind_l; [apply spawns_read_cache|]. intros val.
  destruct (miss val); [|apply spawns_0, spawns_ret].
  apply spawns_bind_r; [exact H|]. intros v.
  apply spawns_bind_l; [apply spawns_write_cache|]. intros _.
  apply spawns_ret.
Qed.

Lemma spawns_backend {A} P k path (xrootd gfal : M A) :
  spawns P k xrootd -> spawns P k gfal ->
  spawns P k (x <- use_xrootd_path path ;; if x : bool then xrootd else gfal).
Proof.
  intros Hx Hg. apply spawns_bind_l; [apply spawns_use_xrootd_path|].
  now intros [|].
Qed.

Lemma spawns__stat_xrootd path not_exist_ok :
  spawns (fun cmd => is_listing cmd = false) 1 (_stat_xrootd path not_exist_ok).
Proof.
  unfold _stat_xrootd.
  apply spawns_bind_l; [apply spawns_split_mgm'|]. intros [mgm lfn].
  apply spawns_bind_r; [now apply spawns_run_command|]. intros output.
  destruct output as [|lines|returncode].
  - apply spawns_bind_l; [apply spawns_lift|]. intros lines.
    apply spawns_bind_l; [apply spawns_lift|]. intros fields.
    apply spawns_lift.
  - apply spawns_bind_l; [apply spawns_lift|]. intros lines'.
    apply spawns_bind_l; [apply spawns_lift|]. intros fields.
    apply spawns_lift.
  - destruct (not_exist_ok && Z.eqb returncode 54);
      [apply spawns_ret | apply spawns_raise].
Qed.

Lemma spawns_xrootd_query {A} mgm args (k : Z -> M A) :
  (forall status, spawns (fun cmd => is_listing cmd = false) 0 (k status)) ->
  spawns (fun cmd => is_listing cmd = false) 1
    (status <- get_exitcode ("xrdfs" :: mgm :: "stat" :: args) ;; k status).
Proof.
  intros Hk. apply spawns_bind_r; [|exact Hk].
  now apply spawns_get_exitcode.
Qed.

Lemma spawns_stat path not_exist_ok :
  spawns (fun cmd => is_listing cmd = false) 1 (stat path not_exist_ok).
Proof.
  intros w. rewrite stat_cached. revert w.
  apply spawns_cached_query, spawns_backend;
    [apply spawns__stat_xrootd | apply spawns__stat_gfal].
Qed.

Lemma spawns_exists path :
  spawns (fun cmd => is_listing cmd = false) 1 (exists_ path).
Proof.
  intros w. rewrite exists_cached. revert w.
  apply spawns_cached_query, spawns_backend.
  - unfold _exists_xrootd.
    apply spawns_bind_l; [apply spawns_split_mgm'|]. intros [mgm lfn].
    apply spawns_xrootd_query. intros status. apply spawns_ret.
  - unfold _exists_gfal.
    apply spawns_bind_r; [now apply spawns_get_exitcode|].
    intros status. apply spawns_ret.
Qed.

Lemma spawns_isdir path :
  spawns (fun cmd => is_listing cmd = false) 1 (isdir path).
Proof.
  intros w. rewrite isdir_cached. revert w.
  apply spawns_cached_query, spawns_backend.
  - unfold _isdir_xrootd.
    apply spawns_bind_l; [apply spawns_split_mgm'|]. intros [mgm lfn].
    apply spawns_xrootd_query. intros status. apply spawns_ret.
  - unfold _isdir_gfal.
    apply spawns_bind_r; [apply spawns__stat_gfal|].
    intros statinfo. destruct statinfo; first [apply spawns_ret | apply spawns_lift].
Qed.

Lemma spawns_isfile path :
  spawns (fun cmd => is_listing cmd = false) 1 (isfile path).
Proof.
  intros w. rewrite isfile_cached. revert w.
  apply spawns_cached_query, spawns_backend.
  - unfold _isfile_xrootd.
    apply spawns_bind_l; [apply spawns_split_mgm'|]. intros [mgm lfn].
    apply spawns_xrootd_query. intros status. apply spawns_ret.
  - unfold _isfile_gfal.
    apply spawns_bind_r; [apply spawns__stat_gfal|].
    intros statinfo. destruct statinfo; first [apply spawns_ret | apply spawns_lift].
Qed.

Lemma spawns_any {A} (P Q : list string -> Prop) k (m : M A) :
  (forall cmd, P cmd -> Q cmd) -> spawns P k m -> spawns Q k m.
Proof.
  intros HPQ H w. destruct (H w) as (l & E & L & F).
  exists l. repeat split; auto. eapply Forall_impl; eauto.
Qed.

(** A listing asks first whether the path is a directory, unless told to
    assume so: two commands at most. *)
Lemma spawns_listdir_2 directory stat assume_directory :
  spawns (fun _ => True) 2 (listdir directory stat assume_directory).
Proof.
  unfold listdir.
  apply spawns_bind_l; [apply spawns_read_cache|]. intros val.
  destruct (falsy val); [|apply spawns_0, spawns_ret].
  apply (spawns_bind _ 1%nat 1%nat).
  - destruct assume_directory; cbn [negb]; [apply spawns_0, spawns_ret|].
    apply spawns_bind_r.
    + apply (spawns_any (fun cmd => is_listing cmd = false)); [auto|].
      apply spawns_isdir.
    + intros d. destruct (falsy d); [apply spawns_raise | apply spawns_ret].
  - intros _.
    apply spawns_bind_l; [apply spawns_use_xrootd_path|]. intros xrootd.
    apply spawns_bind_r.
    + apply (spawns_any (fun cmd => is_listing cmd = true)); [auto|].
      destruct xrootd; [apply spawns__listdir_xrootd
                       | apply spawns__listdir_gfal].
    + intros v.
      apply spawns_bind_l; [apply spawns_write_cache|]. intros _.
      apply spawns_ret.
Qed.

(** X15. What a query costs: [stat], [exists], [isdir], [isfile] and
    [is_file_or_dir] spawn one command at most, and never a listing;
    [listdir] and [ls] spawn two at most. *)
Theorem queries_spawn_little path :
  (forall not_exist_ok,
      spawns (fun cmd => is_listing cmd = false) 1 (stat path not_exist_ok)) /\
  spawns (fun cmd => is_listing cmd = false) 1 (exists_ path) /\
  spawns (fun cmd => is_listing cmd = false) 1 (isdir path) /\
  spawns (fun cmd => is_listing cmd = false) 1 (isfile path) /\
  spawns (fun cmd => is_listing cmd = false) 1 (is_file_or_dir path) /\
  (forall stat assume_directory,
      spawns (fun _ => True) 2 (listdir path stat assume_directory)) /\
  (forall stat assume_directory no_expand_directory,
      spawns (fun _ => True) 2
        (ls path stat assume_directory no_expand_directory)).
Proof.
  split; [intros; apply spawns_stat|].
  split; [apply spawns_exists|].
  split; [apply spawns_isdir|].
  split; [apply spawns_isfile|].
  split; [apply spawns_is_file_or_dir|].
  split; [intros; apply spawns_listdir_2|].
  intros stat assume_directory no_expand_directory. unfold ls.
  apply spawns_bind_l; [apply spawns_format'|]. intros formatted.
  apply spawns_bind_l; [apply spawns_get_protocol|]. intros protocol.
  apply (spawns_bind _ 1%nat 1%nat).
  - destruct assume_directory; [apply spawns_0, spawns_ret|].
    apply (spawns_any (fun cmd => is_listing cmd = false)); [auto|].
    apply spawns_is_file_or_dir.
  - intros status.
    assert (Hst : spawns (fun _ : list string => True) 1
                    (if stat
                     then i <- stat_function formatted false ;; ret (VList [i])
                     else ret (VList [VStr formatted]))).
    { destruct stat; [|apply spawns_0, spawns_ret].
      apply spawns_bind_r; [|intros; apply spawns_ret].
      apply (spawns_any (fun cmd => is_listing cmd = false)); [auto|].
      apply spawns_stat. }
    destruct (eq_int status 0); [apply spawns_0, spawns_raise|].
    destruct (eq_int status 1).
    + destruct no_expand_directory; [exact Hst|].
      apply (spawns_any (fun cmd => is_listing cmd = true)); [auto|].
      apply spawns_listdir.
    + destruct (eq_int status 2); [exact Hst | apply spawns_0, spawns_ret].
Qed.

(** ** Listings of what is no directory *)

(** X16. [listdir] that is not told to assume a directory asks first: on a
    path behind xrootd for which the query for a directory exits with
    another status than 0, it raises, with the cache off, and the query is
    the one command it spawned; no listing was asked for. *)
Theorem listdir_refuses_non_directory directory mgm lfn stat w output status :
  USE_CACHE w = false ->
  DRYMODE w = false ->
  protocol_of (DEFAULT_MGM w) directory None = Ok "root" ->
  split_mgm (DEFAULT_MGM w) directory None = Ok (mgm, lfn) ->
  popen (spawned w) ["xrdfs"; mgm; "stat"; "-q"; "IsDir"; lfn]
  = Exited output status ->
  status <> 0 ->
  listdir directory stat false w
  = (Raise (RuntimeError "is not a valid directory"),
     set_spawned
       (fun l => l ++ [["xrdfs"; mgm; "stat"; "-q"; "IsDir"; lfn]]) w).
Proof.
  intros Hc Hd Hx Hs Hp Hst.
  assert (Hdir : isdir directory w
                 = (Ok (VBool false),
                    set_spawned
                      (fun l => l ++ [["xrdfs"; mgm; "stat"; "-q"; "IsDir"; lfn]])
                      w)).
  { unfold isdir.
    rewrite (bind_Ok _ _ _ _ _ (read_cache_off _ _ _ Hc)).
    erewrite bind_Ok; [|rewrite use_xrootd_path_eq, Hx; reflexivity].
    change (use_xrootd "root") with true. cbv iota.
    erewrite bind_Ok.
    2:{ apply (_isdir_xrootd_run directory mgm lfn w status); [assumption|].
        now apply (get_exitcode_run _ _ output). }
    apply Z.eqb_neq in Hst. rewrite Hst.
    erewrite bind_Ok; [reflexivity|].
    apply write_cache_off. exact Hc. }
  unfold listdir.
  rewrite (bind_Ok _ _ _ _ _ (read_cache_off _ _ _ Hc)).
  cbn [falsy negb].
  erewrite bind_Raise; [reflexivity|].
  rewrite (bind_Ok _ _ _ _ _ Hdir). reflexivity.
Qed.

(** X17. [walk] asks what the path is before it lists anything: when the
    answer is not that of a directory it raises, whatever loop reads it, and
    what it has spawned is the one query at most, and no listing. *)
Theorem walk_refuses_non_directory {St} (c : consumer St) path stat s w
    formatted status w1 :
  format (DEFAULT_MGM w) path None = Ok formatted ->
  is_file_or_dir formatted w = (Ok status, w1) ->
  eq_int status 1 = false ->
  walk c path stat s w = (Raise (RuntimeError "is not a directory"), w1) /\
  exists l, spawned w1 = spawned w ++ l /\ (length l <= 1)%nat /\
            Forall (fun cmd => is_listing cmd = false) l.
Proof.
  intros Hf Hq Hst. split.
  - unfold walk, walk_with. rewrite format'_eq, Hf, Hq, Hst. reflexivity.
  - destruct (spawns_is_file_or_dir formatted w) as (l & E & L & F).
    rewrite Hq in E. eauto.
Qed.

(** ** Writing and reading the cache *)

Lemma read_cache_value name key w :
  USE_CACHE w = true ->
  fst (read_cache name key w)
  = Ok (FileCache.get
          (default (FileCache.open name (CACHEDIR w)) (CACHES w !! name))
          key VNone).
Proof.
  intros Hu. unfold read_cache, make_cache. rewrite Hu. cbn [negb].
  destruct (CACHES w !! name) as [c|] eqn:Hc; simpl.
  - now rewrite Hc.
  - now rewrite lookup_insert_eq.
Qed.

(** X18. With the cache on, what [write_cache] writes [read_cache] reads:
    the value under the key that was written, and under every other key, and
    in every other subcache, what was there before. *)
Theorem write_cache_read_cache name key v w :
  USE_CACHE w = true ->
  read_cache name key (snd (write_cache name key v w))
  = (Ok v, snd (write_cache name key v w)) /\
  (forall key', key' <> key ->
     fst (read_cache name key' (snd (write_cache name key v w)))
     = fst (read_cache name key' w)) /\
  (forall name' key', name' <> name ->
     fst (read_cache name' key' (snd (write_cache name key v w)))
     = fst (read_cache name' key' w)).
Proof.
  intros Hu.
  destruct (write_cache_on name key v w Hu) as (c & w1 & Hw & Hu1 & Hc1 & Hg & _).
  split; [|split].
  - rewrite Hw. cbn [snd].
    rewrite (read_cache_open name key w1 c Hu1 Hc1). now rewrite Hg.
  - intros key' Hk.
    assert (Hu1' : USE_CACHE (snd (write_cache name key v w)) = true)
      by now rewrite Hw.
    rewrite (read_cache_value _ _ _ Hu1'), (read_cache_value _ _ _ Hu).
    f_equal. unfold write_cache, make_cache. rewrite Hu. cbn [negb].
    destruct (CACHES w !! name) as [c0|] eqn:Hc0; simpl;
      rewrite !lookup_insert_eq; simpl;
      unfold FileCache.get, FileCache.setitem, FileCache.open;
      rewrite lookup_insert_ne by congruence; try rewrite Hc0;
      try rewrite lookup_insert_eq; reflexivity.
  - intros name' key' Hn.
    assert (Hu1' : USE_CACHE (snd (write_cache name key v w)) = true)
      by now rewrite Hw.
    rewrite (read_cache_value _ _ _ Hu1'), (read_cache_value _ _ _ Hu).
    f_equal. unfold write_cache, make_cache. rewrite Hu. cbn [negb].
    destruct (CACHES w !! name) as [c0|] eqn:Hc0; simpl;
      unfold FileCache.get, FileCache.setitem, FileCache.open;
      rewrite !lookup_insert_ne by congruence; reflexivity.
Qed.

(** ** The chunked merge, whatever the merges do *)

Lemma run_command_attempts_dirs cmd dry ok n_retries fuel :
  forall i_attempt w,
    dirs (snd (run_command_attempts fuel cmd dry ok n_retries i_attempt w))
    = dirs w.
Proof.
  induction fuel as [|fuel IH]; intros i_attempt w;
    cbn [run_command_attempts];
    destruct dry; try reflexivity;
    destruct (popen (spawned w) cmd) as [output returncode|errno];
    try reflexivity;
    destruct (Z.eqb returncode 0); try reflexivity;
    destruct ok; try reflexivity;
    destruct (Nat.ltb i_attempt n_retries); try reflexivity.
  now rewrite IH.
Qed.

Lemma _hadd_dirs root_files dst dry w :
  dirs (snd (_hadd root_files dst dry w)) = dirs w.
Proof.
  unfold _hadd. destruct dry; [reflexivity|].
  assert (H : dirs (snd (run_command (["hadd"; "-f"; dst] ++ root_files)
                           None false 0 w)) = dirs w)
    by apply run_command_attempts_dirs.
  destruct (run_command _ None false 0 w) as [[o|e] w1]; cbn [snd] in *;
    [assumption|].
  destruct e; try assumption. now destruct (Z.eqb errno 2).
Qed.

Lemma for_each_dirs {A} (body : A -> M unit) (l : list A) :
  (forall a w, dirs (snd (body a w)) = dirs w) ->
  forall w, dirs (snd (for_each l body w)) = dirs w.
Proof.
  intros Hb. induction l as [|x l IH]; intros w; cbn [for_each];
    [reflexivity|].
  unfold bind. specialize (Hb x w).
  destruct (body x w) as [[u|e] w1]; cbn [snd] in *; [|assumption].
  now rewrite IH.
Qed.

Lemma pool_map_dirs n_threads (func_args : list (list string * string * bool)) w :
  dirs (snd (pool_map n_threads _hadd_packed func_args w)) = dirs w.
Proof.
  apply (pool_map_keeps (fun w w' => dirs w' = dirs w));
    [reflexivity | intros; congruence
    |intros [[rf d] dr] w'; apply _hadd_dirs].
Qed.

Lemma ceil_div_lt n c : (2 <= c)%nat -> (c <= n)%nat -> (ceil_div n c < n)%nat.
Proof.
  intros Hc Hn. unfold ceil_div.
  apply Nat.Div0.div_lt_upper_bound. nia.
Qed.

Lemma _hadd_total root_files dst dry w :
  fst (_hadd root_files dst dry w) <> Raise OutOfFuel.
Proof.
  unfold _hadd. destruct dry; [discriminate|].
  assert (H := run_command_total (["hadd"; "-f"; dst] ++ root_files)
                 None false 0 w).
  destruct (run_command _ None false 0 w) as [[o|e] w1]; cbn [fst] in *;
    [discriminate|].
  destruct e; cbn [fst]; try discriminate;
    [destruct (Z.eqb errno 2); discriminate | now contradiction H].
Qed.

Lemma for_each_total {A} (body : A -> M unit) (l : list A) :
  (forall a w, fst (body a w) <> Raise OutOfFuel) ->
  forall w, fst (for_each l body w) <> Raise OutOfFuel.
Proof.
  intros Hb. induction l as [|x l IH]; intros w; cbn [for_each];
    [discriminate|].
  unfold bind. specialize (Hb x w).
  destruct (body x w) as [[u|e] w1]; cbn [fst] in *; [apply IH | assumption].
Qed.

Lemma pool_run_total {A} (f : A -> M unit) :
  (forall a w, fst (f a w) <> Raise OutOfFuel) ->
  forall fuel todo raised w,
    (length todo <= fuel)%nat ->
    raised <> Some OutOfFuel ->
    fst (pool_run fuel f todo raised w) <> Raise OutOfFuel.
Proof.
  intros Hf.
  assert (Hres : forall raised,
             raised <> Some OutOfFuel -> pool_result raised <> Raise OutOfFuel).
  { intros [e|] H; [cbn; congruence | discriminate]. }
  induction fuel as [|fuel IH]; intros todo raised w Hlen Hr.
  - destruct todo; [|cbn in Hlen; lia]. now apply Hres.
  - destruct todo as [|first rest]; [now apply Hres|].
    cbn [pool_run].
    match goal with
    | |- context [if ?b then _ else _] => destruct b; [now apply Hres|]
    end.
    destruct (pool_next first rest (spawned w)) as (_ & _ & Hdel).
    match goal with
    | |- context [f ?task w] =>
        specialize (Hf task w); destruct (f task w) as [[u|e] w1]
    end; cbn [fst] in Hf.
    + apply IH; [|assumption]. rewrite Hdel. cbn in Hlen. lia.
    + apply IH; [rewrite Hdel; cbn in Hlen; lia|].
      destruct raised as [e0|]; simpl; [exact Hr|].
      intros [= ->]. now apply Hf.
Qed.

Lemma pool_map_total n_threads (func_args : list (list string * string * bool)) w :
  fst (pool_map n_threads _hadd_packed func_args w) <> Raise OutOfFuel.
Proof.
  unfold pool_map. destruct (Nat.eqb n_threads 0); [discriminate|].
  apply pool_run_total; [|lia|discriminate].
  intros [[rf d] dr] w'. apply _hadd_total.
Qed.

Lemma finally_rmtree_total {A} (m : M A) d w :
  fst (m w) <> Raise OutOfFuel ->
  fst (finally m (shutil_rmtree d) w) <> Raise OutOfFuel.
Proof.
  unfold finally. destruct (m w) as [r w1]. cbn [fst]. intros H.
  unfold shutil_rmtree. destruct (decide (d ∈ dirs w1)); [exact H | discriminate].
Qed.

Lemma _hadd_chunks_rec_taken fuel root_files dst n_threads chunk_size tmpdir
    dry w :
  (0 < chunk_size <= length root_files)%nat ->
  PyText.osp_join (PyText.osp_join tmpdir "tmphadd") (uuid4 (uuids w))
  ∈ dirs w ->
  _hadd_chunks_rec fuel root_files dst n_threads chunk_size tmpdir dry w
  = (Raise (OSError 17), set_uuids S w).
Proof.
  intros Hsize Hin.
  destruct fuel; simpl.
  all: replace (Nat.eqb (length root_files) 0) with false
    by (symmetry; apply Nat.eqb_neq; lia).
  all: replace (Nat.ltb (length root_files) chunk_size) with false
    by (symmetry; apply Nat.ltb_ge; lia).
  all: replace (Nat.eqb chunk_size 0) with false
    by (symmetry; apply Nat.eqb_neq; lia).
  all: unfold bind at 1; unfold draw_uuid; unfold bind at 1;
    unfold os_makedirs; cbn [dirs set_uuids];
    match goal with
    | |- context [decide ?P] => destruct (decide P); [reflexivity|contradiction]
    end.
Qed.

Lemma _hadd_chunks_rec_fuel chunk_size dst n_threads dry :
  (2 <= chunk_size)%nat ->
  forall fuel1 fuel2 root_files tmpdir w,
    (length root_files <= fuel1)%nat ->
    (length root_files <= fuel2)%nat ->
    _hadd_chunks_rec fuel1 root_files dst n_threads chunk_size tmpdir dry w
    = _hadd_chunks_rec fuel2 root_files dst n_threads chunk_size tmpdir dry w
    /\ fst (_hadd_chunks_rec fuel1 root_files dst n_threads chunk_size tmpdir
              dry w) <> Raise OutOfFuel.
Proof.
  intros Hc. induction fuel1 as [|fuel1 IH];
    intros fuel2 root_files tmpdir w H1 H2.
  - destruct root_files; [|cbn in H1; lia].
    destruct fuel2; cbn; split; first [reflexivity | discriminate].
  - destruct fuel2 as [|fuel2].
    { destruct root_files; [|cbn in H2; lia].
      cbn; split; first [reflexivity | discriminate]. }
    destruct (Nat.eq_dec (length root_files) 0%nat) as [Hz|Hnz].
    { destruct root_files; [|discriminate].
      cbn; split; first [reflexivity | discriminate]. }
    destruct (Nat.ltb_spec (length root_files) chunk_size) as [Hlt|Hge].
    { rewrite !_hadd_chunks_rec_direct by lia.
      split; [reflexivity | apply _hadd_total]. }
    set (scratch := PyText.osp_join (PyText.osp_join tmpdir "tmphadd")
                      (uuid4 (uuids w))).
    destruct (decide (scratch ∈ dirs w)) as [Hin|Hout].
    { rewrite !_hadd_chunks_rec_taken by (first [lia | exact Hin]).
      split; [reflexivity | discriminate]. }
    rewrite !_hadd_chunks_rec_chunked by (first [lia | exact Hout]).
    fold scratch.
    set (w2 := set_dirs (fun ds => ds ∪ list_to_set (parents scratch) ∪ {[scratch]})
                 (set_uuids S w)).
    set (func_args :=
           map (fun i_chunk =>
                  (PyText.slice root_files (i_chunk * chunk_size)
                     ((i_chunk + 1) * chunk_size),
                   PyText.osp_join scratch
                     ("chunk" +:+ pretty i_chunk +:+ ".root"),
                   dry))
               (seq 0 (ceil_div (length root_files) chunk_size))).
    assert (Hlen : (length (map (fun a : list string * string * bool =>
                                   snd (fst a)) func_args)
                    < length root_files)%nat).
    { subst func_args. rewrite !length_map, length_seq.
      now apply ceil_div_lt. }
    assert (Hbody : forall w3,
               _hadd_chunks_rec fuel1
                 (map (fun a => snd (fst a)) func_args) dst n_threads
                 chunk_size scratch dry w3
               = _hadd_chunks_rec fuel2
                   (map (fun a => snd (fst a)) func_args) dst n_threads
                   chunk_size scratch dry w3
               /\ fst (_hadd_chunks_rec fuel1
                         (map (fun a => snd (fst a)) func_args) dst n_threads
                         chunk_size scratch dry w3) <> Raise OutOfFuel).
    { intros w3. apply IH; lia. }
    split.
    + unfold finally, bind.
      destruct ((if negb dry
                 then pool_map n_threads _hadd_packed func_args
                 else ret tt) w2) as [[u|e] w3]; [|reflexivity].
      now rewrite (proj1 (Hbody w3)).
    + apply finally_rmtree_total. unfold bind.
      assert (Hp : fst ((if negb dry
                         then pool_map n_threads _hadd_packed func_args
                         else ret tt) w2) <> Raise OutOfFuel)
        by (destruct (negb dry); [apply pool_map_total | discriminate]).
      destruct ((if negb dry
                 then pool_map n_threads _hadd_packed func_args
                 else ret tt) w2) as [[u|e] w3]; cbn [fst] in *;
        [apply Hbody | assumption].
Qed.

(** X20. With a chunk size of two or more the recursion of [_hadd_chunks]
    ends: the depth that the number of files allows is never used up, and
    any deeper bound gives the same outcome. *)
Theorem hadd_chunks_terminates root_files dst n_threads chunk_size tmpdir dry
    w fuel :
  (2 <= chunk_size)%nat ->
  (length root_files <= fuel)%nat ->
  _hadd_chunks_rec fuel root_files dst n_threads chunk_size tmpdir dry w
  = _hadd_chunks root_files dst n_threads chunk_size tmpdir dry w /\
  fst (_hadd_chunks root_files dst n_threads chunk_size tmpdir dry w)
  <> Raise OutOfFuel.
Proof.
  intros Hc Hf. unfold _hadd_chunks. split.
  - now apply _hadd_chunks_rec_fuel.
  - now apply (_hadd_chunks_rec_fuel chunk_size dst n_threads dry Hc
                 (length root_files) (length root_files)).
Qed.

(** X21. With a chunk size of one the recursion of [_hadd_chunks] has no
    end: every level hands as many files to the next one as it was given,
    and no bound on the depth, however large, lets the call return. *)
Theorem hadd_chunks_of_one_never_returns fuel :
  forall root_files dst n_threads tmpdir dry w,
    root_files <> [] ->
    is_ok (fst (_hadd_chunks_rec fuel root_files dst n_threads 1 tmpdir dry w))
    = false.
Proof.
  induction fuel as [|fuel IH]; intros root_files dst n_threads tmpdir dry w Hne;
    (destruct root_files as [|f root_files]; [congruence|]);
    cbn [_hadd_chunks_rec length Nat.eqb Nat.ltb Nat.leb];
    unfold bind at 1; unfold draw_uuid;
    unfold bind at 1; unfold os_makedirs; cbn [dirs set_uuids];
    (destruct (decide (_ ∈ dirs w)); [reflexivity|]);
    unfold finally;
    match goal with
    | |- context [let '(r, w') := ?body ?w2 in _] =>
        assert (Hbody : is_ok (fst (body w2)) = false);
        [|destruct (body w2) as [[u|e] w3]; [discriminate|];
          destruct (shutil_rmtree _ w3) as [[u'|e'] w4]; reflexivity]
    end;
    unfold bind;
    match goal with
    | |- context [match ?p ?w2 with _ => _ end] =>
        destruct (p w2) as [[u|e] w3]; [|reflexivity]
    end.
  - reflexivity.
  - apply IH. unfold ceil_div.
    replace (S (length root_files) + 1 - 1)%nat with (S (length root_files))
      by lia.
    rewrite Nat.div_1_r. cbn [seq map]. discriminate.
Qed.

(** *** Paths and the directories above them *)

Lemma append_length s t :
  String.length (s +:+ t) = (String.length s + String.length t)%nat.
Proof. induction s as [|c s IH]; simpl; [reflexivity | now rewrite IH]. Qed.

Lemma append_eq_append a b c d :
  a +:+ b = c +:+ d ->
  exists k, (a = c +:+ k /\ d = k +:+ b) \/ (c = a +:+ k /\ b = k +:+ d).
Proof.
  revert c. induction a as [|x a IH]; intros c H.
  - exists c. right. split; [reflexivity | exact H].
  - destruct c as [|y c].
    + exists (String x a). left. split; [reflexivity | exact (eq_sym H)].
    + simpl in H. injection H as -> H.
      destruct (IH c H) as [k [[-> ->]|[-> ->]]]; exists k; [left | right];
        split; reflexivity.
Qed.

Lemma prefixes_at_slash_spec p d :
  p ∈ prefixes_at_slash d <-> exists r, d = p +:+ "/" +:+ r.
Proof.
  revert p. induction d as [|c d IH]; intros p; cbn [prefixes_at_slash].
  - split; [intros H; inversion H|]. intros [r H]. now destruct p.
  - rewrite elem_of_app, list_elem_of_fmap. split.
    + intros [H|(p' & -> & H)].
      * destruct (Ascii.eqb_spec c "/") as [->|]; [|inversion H].
        apply list_elem_of_singleton in H as ->. now exists d.
      * apply IH in H as [r ->]. now exists r.
    + intros [r H]. destruct p as [|x p].
      * left. simpl in H. injection H as -> _.
        rewrite Ascii.eqb_refl. now apply list_elem_of_singleton.
      * right. simpl in H. injection H as -> H.
        exists p. split; [reflexivity|]. apply IH. now exists r.
Qed.

Lemma parents_spec p d :
  p ∈ parents d <->
  (exists r, d = p +:+ "/" +:+ r) /\ p <> "" /\ Py.endswith p "/" = false.
Proof.
  unfold parents. rewrite list_elem_of_In, filter_In, <- list_elem_of_In.
  rewrite prefixes_at_slash_spec, andb_true_iff, !negb_true_iff.
  rewrite String.eqb_neq. tauto.
Qed.

Lemma parents_shorter p d :
  p ∈ parents d -> (String.length p < String.length d)%nat.
Proof.
  intros [[r ->] _]%parents_spec. rewrite !append_length. simpl. lia.
Qed.

Lemma under_length d x :
  under d x = true -> (String.length d <= String.length x)%nat.
Proof.
  unfold under. intros [H|H]%orb_true_iff.
  - apply String.eqb_eq in H as ->. lia.
  - unfold Py.startswith in H.
    destruct (Py.removeprefix (d +:+ "/") x) as [r|] eqn:E; [|discriminate].
    apply removeprefix_length in E. rewrite append_length in E. lia.
Qed.

(** What is above a path below [s] is above [s], or [s], or below [s]. *)
Lemma parents_below s t p :
  p ∈ parents (s +:+ "/" +:+ t) -> under s p = true \/ p ∈ parents s.
Proof.
  intros [[r H] [Hne Hend]]%parents_spec.
  apply append_eq_append in H as [k [[Hs Hk]|[Hp Hk]]].
  - destruct k as [|c k].
    + left. rewrite append_nil_r in Hs. subst s. unfold under.
      now rewrite String.eqb_refl.
    + right. simpl in Hk. injection Hk as <- _.
      apply parents_spec. split; [now exists k | now split].
  - left. destruct k as [|c k].
    + rewrite append_nil_r in Hp. subst p. unfold under.
      now rewrite String.eqb_refl.
    + simpl in Hk. injection Hk as <- _. subst p.
      unfold under, Py.startswith.
      replace (s +:+ String "/" k) with ((s +:+ "/") +:+ k)
        by (now rewrite append_assoc).
      rewrite removeprefix_app. apply orb_true_r.
Qed.

Lemma endswith_contains u :
  Py.endswith u "/" = true -> Py.contains "/" u = true.
Proof.
  unfold Py.contains. induction u as [|c u IH]; [discriminate|].
  change (Py.endswith (String c u) "/")
    with (String.eqb (String c u) "/" || Py.endswith u "/").
  intros [H|H]%orb_true_iff.
  - apply String.eqb_eq in H. now rewrite H.
  - rewrite partition_cons.
    destruct (Py.removeprefix "/" (String c u)); [reflexivity|].
    specialize (IH H). now destruct (Py.partition "/" u) as [[a b]|].
Qed.

Lemma startswith_contains u :
  Py.startswith u "/" = true -> Py.contains "/" u = true.
Proof. intros [l ->]%startswith_slash. reflexivity. Qed.

Lemma osp_join_length a b :
  Py.startswith b "/" = false ->
  (String.length a + String.length b <= String.length (PyText.osp_join a b))%nat.
Proof.
  intros H. unfold PyText.osp_join. rewrite H.
  destruct (String.eqb a "" || Py.endswith a "/"); rewrite !append_length;
    simpl; lia.
Qed.

(** A name that holds no slash, joined to a directory. *)
Lemma osp_join_name a u :
  u <> "" -> Py.contains "/" u = false ->
  PyText.osp_join a u <> "" /\
  Py.endswith (PyText.osp_join a u) "/" = false /\
  (String.length a < String.length (PyText.osp_join a u))%nat.
Proof.
  intros Hne Hno.
  assert (Hs : Py.startswith u "/" = false).
  { destruct (Py.startswith u "/") eqn:E; [|reflexivity].
    apply startswith_contains in E. congruence. }
  assert (He : Py.endswith u "/" = false).
  { destruct (Py.endswith u "/") eqn:E; [|reflexivity].
    apply endswith_contains in E. congruence. }
  assert (Hl : (0 < String.length u)%nat) by (destruct u; [congruence | simpl; lia]).
  assert (Hlen := osp_join_length a u Hs).
  split; [|split; [|lia]].
  - intros E. rewrite E in Hlen. simpl in Hlen. lia.
  - unfold PyText.osp_join. rewrite Hs.
    destruct (String.eqb a "" || Py.endswith a "/").
    + now rewrite endswith_slash_app.
    + rewrite endswith_slash_app by discriminate.
      change ("/" +:+ u) with (String "/" u).
      now rewrite endswith_slash_cons.
Qed.

(** The scratch directory of the next level lies below the one of this
    level. *)
Lemma scratch_below s u :
  s <> "" -> Py.endswith s "/" = false ->
  u <> "" -> Py.contains "/" u = false ->
  PyText.osp_join (PyText.osp_join s "tmphadd") u
  = s +:+ "/" +:+ ("tmphadd/" +:+ u).
Proof.
  intros Hs He Hu Hno.
  assert (Hu' : Py.startswith u "/" = false).
  { destruct (Py.startswith u "/") eqn:E; [|reflexivity].
    apply startswith_contains in E. congruence. }
  assert (H1 : PyText.osp_join s "tmphadd" = s +:+ "/tmphadd").
  { unfold PyText.osp_join. change (Py.startswith "tmphadd" "/") with false.
    cbv iota. apply String.eqb_neq in Hs. now rewrite Hs, He. }
  rewrite H1. unfold PyText.osp_join. rewrite Hu'.
  replace (String.eqb (s +:+ "/tmphadd") "") with false
    by (symmetry; apply String.eqb_neq; destruct s; [congruence|discriminate]).
  rewrite endswith_slash_app by discriminate.
  change (Py.endswith "/tmphadd" "/") with false. cbn [orb].
  now rewrite !append_assoc.
Qed.

Lemma _hadd_chunks_rec_plain fuel root_files dst n_threads chunk_size tmpdir
    dry w :
  ~ (0 < chunk_size <= length root_files)%nat ->
  dirs (snd (_hadd_chunks_rec fuel root_files dst n_threads chunk_size tmpdir
               dry w)) = dirs w.
Proof.
  intros H. destruct fuel; cbn [_hadd_chunks_rec];
    (destruct (Nat.eqb_spec (length root_files) 0); [reflexivity|]);
    (destruct (Nat.ltb_spec (length root_files) chunk_size);
     [apply _hadd_dirs|]);
    (destruct (Nat.eqb_spec chunk_size 0); [reflexivity|]); lia.
Qed.

(** One level of the merge: what its body leaves, and what its cleanup
    takes away. *)
Lemma finally_rmtree_scratch {A} (body : M A) tmpdir u w :
  u <> "" -> Py.contains "/" u = false ->
  let scratch := PyText.osp_join (PyText.osp_join tmpdir "tmphadd") u in
  let w2 :=
    set_dirs (fun ds => ds ∪ list_to_set (parents scratch) ∪ {[scratch]})
      (set_uuids S w) in
  (forall x, x ∈ dirs (snd (body w2)) ->
     x ∈ dirs w2 \/ x ∈ parents scratch \/ under scratch x = true) ->
  (forall x, x ∈ dirs w2 ->
     (String.length x <= String.length scratch)%nat ->
     x ∈ dirs (snd (body w2))) ->
  (forall x,
      x ∈ dirs (snd (finally body (shutil_rmtree scratch) w2)) ->
      x ∈ dirs w \/ x ∈ parents scratch) /\
  (forall x,
      x ∈ dirs w -> (String.length x <= String.length tmpdir)%nat ->
      x ∈ dirs (snd (finally body (shutil_rmtree scratch) w2))).
Proof.
  intros Hne Hno scratch w2 HA HB.
  destruct (osp_join_name (PyText.osp_join tmpdir "tmphadd") u Hne Hno)
    as (Hs1 & Hs2 & Hs3).
  fold scratch in Hs1, Hs2, Hs3.
  assert (Hlt : (String.length tmpdir < String.length scratch)%nat)
    by (assert (H7 := osp_join_length tmpdir "tmphadd" eq_refl); lia).
  assert (Hw2 : forall x, x ∈ dirs w2 ->
                  x ∈ dirs w \/ x ∈ parents scratch \/ under scratch x = true).
  { intros x Hx. apply elem_of_union in Hx as [Hx|Hx].
    - apply elem_of_union in Hx as [Hx|Hx];
        [now left | right; left; now apply elem_of_list_to_set in Hx].
    - apply elem_of_singleton in Hx. subst x. right. right.
      unfold under. now rewrite String.eqb_refl. }
  assert (Hw2' : forall x, x ∈ dirs w -> x ∈ dirs w2)
    by (intros x H; apply elem_of_union_l, elem_of_union_l, H).
  assert (Hsc : scratch ∈ dirs w2)
    by (apply elem_of_union_r, elem_of_singleton; reflexivity).
  unfold finally.
  destruct (body w2) as [r w3]. cbn [snd] in HA, HB.
  unfold shutil_rmtree.
  destruct (decide (scratch ∈ dirs w3)) as [Hin3|Hout3];
    [|exfalso; apply Hout3, HB; [exact Hsc | lia]].
  cbn [snd dirs set_dirs]. split.
  - intros x [Hx Hd]%elem_of_filter.
    destruct (HA x Hd) as [H|[H|H]]; [|now right | congruence].
    destruct (Hw2 x H) as [H'|[H'|H']]; [now left | now right | congruence].
  - intros x Hx Hl. apply elem_of_filter. split.
    + destruct (under scratch x) eqn:E; [|reflexivity].
      apply under_length in E. lia.
    + apply HB; [now apply Hw2' | lia].
Qed.

Lemma _hadd_chunks_rec_scratch dst n_threads chunk_size dry :
  (forall n, uuid4 n <> "" /\ Py.contains "/" (uuid4 n) = false) ->
  forall fuel root_files tmpdir w,
    (forall x,
        x ∈ dirs (snd (_hadd_chunks_rec fuel root_files dst n_threads
                         chunk_size tmpdir dry w)) ->
        x ∈ dirs w \/
        x ∈ parents (PyText.osp_join (PyText.osp_join tmpdir "tmphadd")
                       (uuid4 (uuids w)))) /\
    (forall x,
        x ∈ dirs w ->
        (String.length x <= String.length tmpdir)%nat ->
        x ∈ dirs (snd (_hadd_chunks_rec fuel root_files dst n_threads
                         chunk_size tmpdir dry w))).
Proof.
  intros Hu.
  assert (Hpool : forall (func_args : list (list string * string * bool)) w2,
             dirs (snd ((if negb dry
                         then pool_map n_threads _hadd_packed func_args
                         else ret tt) w2)) = dirs w2)
    by (intros fa w2; destruct (negb dry); [apply pool_map_dirs | reflexivity]).
  induction fuel as [|fuel IH]; intros root_files tmpdir w.
  - destruct (decide (0 < chunk_size <= length root_files)%nat)
      as [Hsize|Hsize];
      [|rewrite _hadd_chunks_rec_plain by exact Hsize; split; auto].
    destruct (decide (PyText.osp_join (PyText.osp_join tmpdir "tmphadd")
                        (uuid4 (uuids w)) ∈ dirs w)) as [Hin|Hout];
      [rewrite _hadd_chunks_rec_taken by assumption; split; auto|].
    rewrite _hadd_chunks_rec_chunked by assumption.
    destruct (Hu (uuids w)) as [Hne Hno].
    apply finally_rmtree_scratch; try assumption.
    + intros x. unfold bind.
      match goal with
      | |- context [match ?p ?w2 with _ => _ end] =>
          assert (Hp := Hpool _ w2 : dirs (snd (p w2)) = dirs w2);
          destruct (p w2) as [[u|e] w3]
      end; cbn [snd raise] in *; rewrite Hp; auto.
    + intros x. unfold bind.
      match goal with
      | |- context [match ?p ?w2 with _ => _ end] =>
          assert (Hp := Hpool _ w2 : dirs (snd (p w2)) = dirs w2);
          destruct (p w2) as [[u|e] w3]
      end; cbn [snd raise] in *; rewrite Hp; auto.
  - destruct (decide (0 < chunk_size <= length root_files)%nat)
      as [Hsize|Hsize];
      [|rewrite _hadd_chunks_rec_plain by exact Hsize; split; auto].
    destruct (decide (PyText.osp_join (PyText.osp_join tmpdir "tmphadd")
                        (uuid4 (uuids w)) ∈ dirs w)) as [Hin|Hout];
      [rewrite _hadd_chunks_rec_taken by assumption; split; auto|].
    rewrite _hadd_chunks_rec_chunked by assumption.
    destruct (Hu (uuids w)) as [Hne Hno].
    destruct (osp_join_name (PyText.osp_join tmpdir "tmphadd")
                (uuid4 (uuids w)) Hne Hno) as (Hs1 & Hs2 & _).
    apply finally_rmtree_scratch; try assumption.
    + intros x. unfold bind.
      match goal with
      | |- context [match ?p ?w2 with _ => _ end] =>
          assert (Hp := Hpool _ w2 : dirs (snd (p w2)) = dirs w2);
          destruct (p w2) as [[u|e] w3]
      end; cbn [snd] in *; [|rewrite Hp; auto].
      destruct (Hu (uuids w3)) as [Hne3 Hno3].
      match goal with
      | |- context [_hadd_chunks_rec fuel ?rf dst n_threads chunk_size ?sc
                      dry w3] =>
          destruct (IH rf sc w3) as [Ia _]
      end.
      rewrite (scratch_below _ (uuid4 (uuids w3)) Hs1 Hs2 Hne3 Hno3) in Ia.
      rewrite Hp in Ia. intros Hx.
      destruct (Ia x Hx) as [H|H]; [now left|].
      apply parents_below in H as [H|H]; [right; now right | right; now left].
    + intros x. unfold bind.
      match goal with
      | |- context [match ?p ?w2 with _ => _ end] =>
          assert (Hp := Hpool _ w2 : dirs (snd (p w2)) = dirs w2);
          destruct (p w2) as [[u|e] w3]
      end; cbn [snd] in *; [|rewrite Hp; auto].
      match goal with
      | |- context [_hadd_chunks_rec fuel ?rf dst n_threads chunk_size ?sc
                      dry w3] =>
          destruct (IH rf sc w3) as [_ Ib]
      end.
      rewrite Hp in Ib. exact (Ib x).
Qed.

(** X19. The chunked merge leaves no scratch directory behind, at any
    level of the recursion and however the merges end. Of the directories
    that exist after [_hadd_chunks], each one existed before or is one that
    [os.makedirs] made above the scratch directory of the first level (such
    as [tmpdir/tmphadd]): the scratch directories, which are named by a
    UUID that holds no slash, and all that lies below them are gone. *)
Theorem hadd_chunks_leaves_no_scratch root_files dst n_threads chunk_size
    tmpdir dry w x :
  (forall n, uuid4 n <> "" /\ Py.contains "/" (uuid4 n) = false) ->
  x ∈ dirs (snd (_hadd_chunks root_files dst n_threads chunk_size tmpdir dry
                   w)) ->
  x ∈ dirs w \/
  (x ∈ parents (PyText.osp_join (PyText.osp_join tmpdir "tmphadd")
                  (uuid4 (uuids w))) /\
   under (PyText.osp_join (PyText.osp_join tmpdir "tmphadd")
            (uuid4 (uuids w))) x = false).
Proof.
  intros Hu Hx. unfold _hadd_chunks in Hx.
  destruct (_hadd_chunks_rec_scratch dst n_threads chunk_size dry Hu
              (length root_files) root_files tmpdir w) as [Ha _].
  destruct (Ha x Hx) as [H|H]; [now left|]. right. split; [exact H|].
  apply parents_shorter in H.
  match goal with
  | |- under ?d x = false =>
      destruct (under d x) eqn:E; [|reflexivity];
      apply under_length in E; lia
  end.
Qed.

(** X22. [_hadd] takes a missing [hadd] lightly: when the command cannot
    be started for want of the executable (errno 2) the call returns as if
    it had merged, and nothing was spawned; any other failure to start is
    raised. *)
Theorem hadd_missing_executable root_files dst w errno :
  DRYMODE w = false ->
  popen (spawned w) (["hadd"; "-f"; dst] ++ root_files) = NotSpawned errno ->
  _hadd root_files dst false w
  = (if Z.eqb errno 2 then Ok tt else Raise (OSError errno), w).
Proof.
  intros Hd Hp. unfold _hadd, run_command. rewrite Hd.
  cbn [run_command_attempts]. rewrite Hp.
  now destruct (Z.eqb errno 2).
Qed.

(** ** The chunks of the merge *)

Lemma ceil_div_covers n c : (0 < c)%nat -> (n <= ceil_div n c * c)%nat.
Proof.
  intros Hc. unfold ceil_div.
  assert (H := Nat.div_mod_eq (n + c - 1) c).
  assert (H' := Nat.mod_upper_bound (n + c - 1) c). nia.
Qed.

Lemma ceil_div_tight n c i :
  (0 < c)%nat -> (i < ceil_div n c)%nat -> (i * c < n)%nat.
Proof.
  intros Hc. unfold ceil_div. intros Hi.
  assert (H := Nat.div_mod_eq (n + c - 1) c).
  assert (H' := Nat.mod_upper_bound (n + c - 1) c). nia.
Qed.

Lemma concat_slices {A} (l : list A) c k :
  concat (map (fun i => PyText.slice l (i * c) ((i + 1) * c)) (seq 0 k))
  = take (k * c) l.
Proof.
  induction k as [|k IH]; [reflexivity|].
  rewrite seq_S, map_app, concat_app, IH. cbn [map concat Nat.add].
  rewrite app_nil_r. unfold PyText.slice.
  replace ((k + 1) * c - k * c)%nat with c by lia.
  rewrite take_take_drop. f_equal. lia.
Qed.

Lemma imap_map_seq {A B} (f : nat -> A -> B) (g : nat -> A) k :
  forall s,
    imap (fun i => f (s + i)%nat) (map g (seq s k))
    = map (fun i => f i (g i)) (seq s k).
Proof.
  induction k as [|k IH]; intros s; [reflexivity|].
  cbn [seq map imap]. rewrite Nat.add_0_r. f_equal.
  rewrite <- IH. apply imap_ext. intros i x _. cbn. f_equal. lia.
Qed.

Lemma run_command_appends cmd dry ok n_retries w :
  exists l, spawned (snd (run_command cmd dry ok n_retries w)) = spawned w ++ l.
Proof.
  destruct (spawns_run_command_retries (fun _ => True) cmd dry ok n_retries I w)
    as (l & E & _). eauto.
Qed.

Lemma _hadd_appends root_files dst dry w :
  exists l, spawned (snd (_hadd root_files dst dry w)) = spawned w ++ l.
Proof.
  unfold _hadd. destruct dry; [exists []; now rewrite app_nil_r|].
  destruct (run_command_appends (["hadd"; "-f"; dst] ++ root_files)
              None false 0 w) as [l E].
  exists l.
  destruct (run_command _ None false 0 w) as [[o|e] w1]; cbn [snd] in *;
    [assumption|].
  destruct e; try assumption. now destruct (Z.eqb errno 2).
Qed.

Lemma for_each_appends {A} (body : A -> M unit) (l : list A) :
  (forall a w, exists l', spawned (snd (body a w)) = spawned w ++ l') ->
  forall w, exists l', spawned (snd (for_each l body w)) = spawned w ++ l'.
Proof.
  intros Hb. induction l as [|x l IH]; intros w; cbn [for_each].
  - exists []. now rewrite app_nil_r.
  - unfold bind. destruct (Hb x w) as [l1 E1].
    destruct (body x w) as [[u|e] w1]; cbn [snd] in *; [|eauto].
    destruct (IH w1) as [l2 E2]. exists (l1 ++ l2).
    now rewrite E2, E1, app_assoc.
Qed.

Lemma _hadd_chunks_rec_appends fuel :
  forall root_files dst n_threads chunk_size tmpdir dry w,
  exists l,
    spawned (snd (_hadd_chunks_rec fuel root_files dst n_threads chunk_size
                    tmpdir dry w)) = spawned w ++ l.
Proof.
  induction fuel as [|fuel IH];
    intros root_files dst n_threads chunk_size tmpdir dry w;
    cbn [_hadd_chunks_rec];
    (destruct (Nat.eqb (length root_files) 0);
     [exists []; now rewrite app_nil_r|]);
    (destruct (Nat.ltb (length root_files) chunk_size);
     [apply _hadd_appends|]);
    (destruct (Nat.eqb chunk_size 0); [exists []; now rewrite app_nil_r|]);
    unfold bind at 1; unfold draw_uuid;
    unfold bind at 1; unfold os_makedirs; cbn [dirs set_uuids];
    set (scratch := PyText.osp_join (PyText.osp_join tmpdir "tmphadd")
                      (uuid4 (uuids w)));
    (destruct (decide (scratch ∈ dirs w)); [exists []; now rewrite app_nil_r|]);
    set (w2 := set_dirs (fun ds => ds ∪ list_to_set (parents scratch) ∪ {[scratch]})
                 (set_uuids S w));
    unfold finally;
    match goal with
    | |- context [let '(r, w') := ?body w2 in _] =>
        assert (Hbody : exists l, spawned (snd (body w2)) = spawned w ++ l);
        [|destruct Hbody as [l E]; exists l;
          destruct (body w2) as [r w3]; cbn [snd] in E;
          unfold shutil_rmtree; destruct (decide (scratch ∈ dirs w3)); exact E]
    end;
    unfold bind;
    match goal with
    | |- context [match ?p w2 with _ => _ end] =>
        assert (Hp : exists l, spawned (snd (p w2)) = spawned w2 ++ l)
          by (destruct (negb dry);
              [apply (pool_map_keeps
                        (fun w w' => exists l, spawned w' = spawned w ++ l));
               [intros w0; exists []; now rewrite app_nil_r
               |intros wa wb wc [la Ea] [lb Eb]; exists (la ++ lb);
                now rewrite Eb, Ea, app_assoc
               |intros [[rf d] dr] w'; apply _hadd_appends]
              |exists []; now rewrite app_nil_r]);
        destruct Hp as [l1 E1];
        destruct (p w2) as [[u|e] w3]; cbn [snd] in E1; [|eauto]
    end.
  - exists l1. exact E1.
  - match goal with
    | |- context [_hadd_chunks_rec fuel ?rf ?d ?n ?c ?t ?dr w3] =>
        destruct (IH rf d n c t dr w3) as [l2 E2]
    end.
    exists (l1 ++ l2). now rewrite E2, E1, app_assoc.
Qed.

(** X23. The first thing the chunked merge does, when every [hadd] goes
    well: it merges the files chunk by chunk, each chunk into its own file
    of the scratch directory, in the order the pool starts these merges;
    the chunks put end to end are the files it was given, none of them is
    empty and none holds more than [chunk_size] files, so that each file
    goes into exactly one of these merges. *)
Theorem hadd_chunks_partition fuel root_files dst n_threads chunk_size tmpdir w :
  (0 < chunk_size <= length root_files)%nat ->
  n_threads <> 0%nat ->
  DRYMODE w = false ->
  PyText.osp_join (PyText.osp_join tmpdir "tmphadd") (uuid4 (uuids w))
  ∉ dirs w ->
  (forall history cmd, exists output,
      popen history ("hadd" :: cmd) = Exited output 0) ->
  exists chunks merges rest,
    spawned (snd (_hadd_chunks_rec fuel root_files dst n_threads chunk_size
                    tmpdir false w))
    = spawned w ++ merges ++ rest /\
    merges ≡ₚ
      imap (fun i chunk =>
              ["hadd"; "-f";
               PyText.osp_join
                 (PyText.osp_join (PyText.osp_join tmpdir "tmphadd")
                    (uuid4 (uuids w)))
                 ("chunk" +:+ pretty i +:+ ".root")] ++ chunk) chunks /\
    concat chunks = root_files /\
    length chunks = ceil_div (length root_files) chunk_size /\
    Forall (fun chunk => (0 < length chunk <= chunk_size)%nat) chunks.
Proof.
  intros Hsize Hn Hd Hfresh Hp.
  set (scratch := PyText.osp_join (PyText.osp_join tmpdir "tmphadd")
                    (uuid4 (uuids w))) in *.
  set (k := ceil_div (length root_files) chunk_size).
  set (sl := fun i => PyText.slice root_files (i * chunk_size)
                        ((i + 1) * chunk_size)).
  exists (map sl (seq 0 k)).
  rewrite (_hadd_chunks_rec_chunked fuel root_files dst n_threads chunk_size
             tmpdir false w Hsize Hfresh).
  fold scratch k.
  set (w2 := set_dirs (fun ds => ds ∪ list_to_set (parents scratch) ∪ {[scratch]})
                 (set_uuids S w)).
  set (func_args :=
         map (fun i_chunk =>
                (PyText.slice root_files (i_chunk * chunk_size)
                   ((i_chunk + 1) * chunk_size),
                 PyText.osp_join scratch
                   ("chunk" +:+ pretty i_chunk +:+ ".root"),
                 false))
             (seq 0 k)).
  destruct (pool_map_success n_threads func_args w2 Hn Hd)
    as (merges & Hpool & Hm); [|exact Hp|].
  { subst func_args. apply Forall_map, Forall_forall. reflexivity. }
  assert (Hcmds :
            map (fun a : list string * string * bool =>
                   ["hadd"; "-f"; snd (fst a)] ++ fst (fst a)) func_args
            = imap (fun i chunk =>
                      ["hadd"; "-f";
                       PyText.osp_join scratch
                         ("chunk" +:+ pretty i +:+ ".root")] ++ chunk)
                (map sl (seq 0 k))).
  { subst func_args. rewrite map_map. cbn [fst snd].
    symmetry.
    apply (imap_map_seq
             (fun i chunk =>
                ["hadd"; "-f";
                 PyText.osp_join scratch ("chunk" +:+ pretty i +:+ ".root")]
                ++ chunk) sl k 0%nat). }
  rewrite Hcmds in Hm. clear Hcmds.
  exists merges.
  cbn [negb]. unfold finally.
  match goal with
  | |- context [let '(r, w') := ?body w2 in _] => set (m := body)
  end.
  assert (Hrest : exists rest,
             spawned (snd (m w2)) = spawned w ++ merges ++ rest).
  { subst m. unfold bind. rewrite Hpool.
    destruct fuel as [|fuel].
    - exists []. now rewrite app_nil_r.
    - match goal with
      | |- context [_hadd_chunks_rec fuel ?rf ?d ?n ?c ?t ?dr ?w3] =>
          destruct (_hadd_chunks_rec_appends fuel rf d n c t dr w3) as [l E]
      end.
      exists l. rewrite E. cbn [spawned set_spawned]. now rewrite app_assoc. }
  destruct Hrest as [rest Hrest]. exists rest.
  split; [|split; [|split; [|split]]].
  - destruct (m w2) as [r w4]. cbn [snd] in Hrest.
    unfold shutil_rmtree. destruct (decide (scratch ∈ dirs w4)); exact Hrest.
  - exact Hm.
  - subst sl. rewrite concat_slices. apply take_ge.
    subst k. apply ceil_div_covers. lia.
  - now rewrite length_map, length_seq.
  - apply Forall_map, Forall_forall. intros i Hi%elem_of_seq.
    subst sl. cbn beta. rewrite slice_length.
    assert (Ht := ceil_div_tight (length root_files) chunk_size i).
    fold k in Ht. nia.
Qed.

(** ** Pruning a traversal *)

(** X24. What the loop removes from the yielded list of directories is
    not descended into: a loop that empties the list at the first
    directory ends the traversal there, and [walk] has spawned two commands
    at most, of which one listing. *)
Theorem walk_pruned_stops {St} (c : consumer St) path stat s w :
  (forall s p ds fs s' ds', on_inodes c s p ds fs = Ok (s', ds') -> ds' = []) ->
  (forall s p ds fs s' ds', on_paths c s p ds fs = Ok (s', ds') -> ds' = []) ->
  exists l,
    spawned (snd (walk c path stat s w)) = spawned w ++ l /\
    (length l <= 2)%nat /\
    (length (List.filter is_listing l) <= 1)%nat.
Proof.
  intros Hi Hp. unfold walk, walk_with. rewrite format'_eq.
  destruct (format (DEFAULT_MGM w) path None) as [formatted|e]; cbn [snd].
  2:{ exists []. rewrite app_nil_r. cbn. repeat split; lia. }
  destruct (spawns_is_file_or_dir formatted w) as (l1 & E1 & L1 & F1).
  destruct (is_file_or_dir formatted w) as [[status|e] w1]; cbn [snd] in *.
  2:{ exists l1. rewrite (filter_listing_none _ F1). cbn. repeat split; auto; lia. }
  destruct (negb (eq_int status 1)); cbn [snd].
  { exists l1. rewrite (filter_listing_none _ F1). cbn. repeat split; auto; lia. }
  unfold _walk; fold (@_walk St).
  change (Nat.leb MAX_RECURSION_DEPTH 0) with false. cbv iota.
  destruct (spawns_ls formatted true w1) as (l2 & E2 & L2 & F2).
  assert (Hend : exists l, spawned w1 ++ l2 = spawned w ++ l /\
                           (length l <= 2)%nat /\
                           (length (List.filter is_listing l) <= 1)%nat).
  { exists (l1 ++ l2).
    rewrite E1, app_assoc, List.filter_app, !length_app.
    rewrite (filter_listing_none _ F1). cbn [length].
    assert (Hf := List.filter_length_le is_listing l2).
    repeat split; lia. }
  destruct (ls formatted true true false w1) as [[contents|e] w2];
    cbn [snd] in E2; [|cbn [snd]; now rewrite E2].
  destruct (inodes_of contents) as [inodes|e]; [|cbn [snd]; now rewrite E2].
  match goal with
  | |- context [match ?y with Ok _ => _ | Raise _ => _ end] =>
      destruct y as [[s' directories]|e] eqn:Hy
  end; [|cbn [snd]; now rewrite E2].
  assert (directories = []) as ->.
  { destruct stat.
    - eapply Hi. exact Hy.
    - destruct (on_paths c s formatted _ _) as [[s'' dirnames]|e] eqn:Hq;
        [|discriminate].
      injection Hy as <- <-. rewrite (Hp _ _ _ _ _ _ Hq). cbn [existsb].
      match goal with
      | |- List.filter _ ?ds = [] =>
          generalize ds; intros ds0;
          induction ds0 as [|a ds' IH]; [reflexivity | exact IH]
      end. }
  cbn [walk_directories snd]. now rewrite E2.
Qed.

End SE.

(** ** The theorems at work on the test storage element *)

Lemma run_command_non_zero_exitcode_ok_witness :
  run_command Fake.popen
    ["xrdfs"; Fake.mgm; "stat"; "-q"; "IsDir"; "/nowhere"] None true 0
    Fake.world0
  = (Raise (NameError "return_code"),
     set_spawned
       (fun l => l ++ [["xrdfs"; Fake.mgm; "stat"; "-q"; "IsDir"; "/nowhere"]])
       Fake.world0).
Proof.
  apply (run_command_non_zero_exitcode_ok Fake.popen _ 0 Fake.world0 [] 54);
    [reflexivity | reflexivity | discriminate].
Defined.

Lemma stat_non_zero_exit_witness :
  fst (stat Fake.popen Fake.strptime Fake.py_int
         "root://se.example.org//nowhere" false Fake.world0)
  = Raise (CalledProcessError
             ["xrdfs"; "root://se.example.org"; "stat"; "/nowhere"] 54) /\
  fst (stat Fake.popen Fake.strptime Fake.py_int
         "root://se.example.org//nowhere" true Fake.world0)
  = Raise (NameError "return_code").
Proof.
  apply (stat_non_zero_exit Fake.popen Fake.strptime Fake.py_int
           "root://se.example.org//nowhere" Fake.world0 true
           ["xrdfs"; "root://se.example.org"; "stat"; "/nowhere"]
           ["[ERROR] Query response negative: No such file"] 54);
    [reflexivity | reflexivity | reflexivity | reflexivity | reflexivity
    | discriminate].
Defined.

Lemma is_file_or_dir_xrootd_exit_codes_witness :
  let query := ["xrdfs"; Fake.mgm; "stat"; "-q"; "IsDir"; "/a/b/x.txt"] in
  let w' := set_spawned (fun l => l ++ [query]) Fake.world0 in
  (55 = 0 -> _is_file_or_dir_xrootd Fake.popen "/a/b/x.txt" Fake.world0
             = (Ok (VInt 1), w')) /\
  (55 = 54 -> _is_file_or_dir_xrootd Fake.popen "/a/b/x.txt" Fake.world0
              = (Ok (VInt 0), w')) /\
  (55 = 55 -> _is_file_or_dir_xrootd Fake.popen "/a/b/x.txt" Fake.world0
              = (Ok (VInt 2), w')) /\
  (55 <> 0 -> 55 <> 54 -> 55 <> 55 ->
   exists msg, _is_file_or_dir_xrootd Fake.popen "/a/b/x.txt" Fake.world0
               = (Raise (RuntimeError msg), w')) /\
  (exists b, _isfile_xrootd Fake.popen "/a/b/x.txt" Fake.world0
             = (Ok (VBool b), w') /\ (b = true <-> 55 = 55)).
Proof.
  intros query w'.
  apply (is_file_or_dir_xrootd_exit_codes Fake.popen "/a/b/x.txt" Fake.mgm
           "/a/b/x.txt" Fake.world0 55 w'); reflexivity.
Defined.

Lemma ls_wildcard_last_segment_witness :
  fst (ls_wildcard Fake.popen Fake.strptime Fake.py_int "/a/b/*.txt" false
         Fake.world0)
  = Ok (VList [VStr "root://se.example.org//a/b/x.txt"]).
Proof.
  apply (ls_wildcard_last_segment Fake.popen Fake.strptime Fake.py_int
           Fake.world0 []); try reflexivity; intros history; reflexivity.
Defined.


Lemma hadd_chunks_450_witness :
  let chunk (name : string) := PyText.osp_join "/tmp/tmphadd/uuid-0" name in
  length Fake.root_files = 450%nat /\
  ("/tmp/tmphadd/uuid-0" ∉
     dirs (snd (_hadd_chunks Fake.popen Fake.uuid4 Fake.next_task Fake.keeps_on
                  Fake.root_files "merged.root" 6 200 "/tmp" false
                  Fake.world0))) /\
  exists w' merges,
    _hadd_chunks Fake.popen Fake.uuid4 Fake.next_task Fake.keeps_on
      Fake.root_files "merged.root" 6 200 "/tmp" false Fake.world0
    = (Ok tt, w') /\
    spawned w'
    = spawned Fake.world0 ++ merges ++
      [["hadd"; "-f"; "merged.root";
        chunk "chunk0.root"; chunk "chunk1.root"; chunk "chunk2.root"]] /\
    merges ≡ₚ
      [["hadd"; "-f"; chunk "chunk0.root"]
       ++ PyText.slice Fake.root_files 0 200;
       ["hadd"; "-f"; chunk "chunk1.root"]
       ++ PyText.slice Fake.root_files 200 400;
       ["hadd"; "-f"; chunk "chunk2.root"]
       ++ PyText.slice Fake.root_files 400 600] /\
    length (PyText.slice Fake.root_files 0 200) = 200%nat /\
    length (PyText.slice Fake.root_files 200 400) = 200%nat /\
    length (PyText.slice Fake.root_files 400 600) = 50%nat.
Proof.
  intros chunk.
  split; [reflexivity|].
  destruct (hadd_chunks_450 Fake.popen Fake.strptime Fake.py_int Fake.uuid4
              Fake.next_task Fake.keeps_on Fake.root_files
              "merged.root" 6 "/tmp" Fake.world0) as [Hclean Hrun];
    [reflexivity | discriminate | apply not_elem_of_empty |].
  split; [exact Hclean|].
  apply Hrun; [reflexivity|].
  intros history cmd. exists []. reflexivity.
Defined.

(** C3. With the cache on, a second identical [listdir] of a directory whose
    listing is empty is not answered from the cache: the list that the first
    call stored is empty, [if not val] takes it for a miss, and the listing
    command is spawned again. *)
Theorem listdir_empty_listing_spawns_again :
  let query :=
    listdir Fake.popen Fake.strptime Fake.py_int
      "root://se.example.org//empty" false true in
  let cmd := ["xrdfs"; "root://se.example.org"; "ls"; "/empty"] in
  let w1 := snd (query Fake.world_cached) in
  let w2 := snd (query w1) in
  USE_CACHE Fake.world_cached = true /\
  fst (query Fake.world_cached) = Ok (VList []) /\
  fst (query w1) = Ok (VList []) /\
  CACHES w2 = CACHES w1 /\
  spawned w1 = [cmd] /\
  spawned w2 = [cmd; cmd].
Proof. repeat split; vm_compute; reflexivity. Qed.

Lemma join_protocol_server_lfn_split_witness :
  exists filename,
    _join_protocol_server_lfn "root:" "/cmseos.fnal.gov/" "/store/user"
    = Ok filename /\
    split_protocol_pfn filename
    = Ok (PyText.remove_char ":" "root:",
          PyText.strip_char "/" "/cmseos.fnal.gov/", "/store/user").
Proof.
  apply (join_protocol_server_lfn_split "root:" "/cmseos.fnal.gov/"
           "/store/user"); reflexivity.
Defined.

Lemma select_most_likely_tree_first_witness :
  exists tree pre post,
    _select_most_likely_tree ["MetaData"; "Events"; "Runs"] = Ok tree /\
    ["MetaData"; "Events"; "Runs"] = pre ++ tree :: post /\
    Forall (fun t => t ∈ standard_trees) pre /\
    (tree ∈ standard_trees ->
     pre = [] /\ Forall (fun t => t ∈ standard_trees) post).
Proof.
  apply (select_most_likely_tree_first ["MetaData"; "Events"; "Runs"]).
  discriminate.
Defined.

Lemma run_command_succeeds_on_retry_witness :
  run_command Fake.popen_flaky ["xrdcp"; "a"; "b"] None false 3 Fake.world0
  = (Ok (Output ["done"]),
     set_spawned (fun l => l ++ [["xrdcp"; "a"; "b"]])
       (after_retries ["xrdcp"; "a"; "b"] 2 Fake.world0)).
Proof.
  apply (run_command_succeeds_on_retry Fake.popen_flaky ["xrdcp"; "a"; "b"]
           3 2 Fake.world0 ["done"]).
  - reflexivity.
  - lia.
  - intros i Hi. exists ["busy"], 1. split; [|discriminate].
    destruct i as [|[|i]]; [reflexivity | reflexivity | lia].
  - reflexivity.
Defined.

Lemma run_command_gives_up_witness :
  run_command Fake.popen
    ["xrdfs"; Fake.mgm; "stat"; "-q"; "IsDir"; "/nowhere"] None false 2
    Fake.world0
  = (Raise (CalledProcessError
              ["xrdfs"; Fake.mgm; "stat"; "-q"; "IsDir"; "/nowhere"] 54),
     set_spawned
       (fun l => l ++ [["xrdfs"; Fake.mgm; "stat"; "-q"; "IsDir"; "/nowhere"]])
       (after_retries ["xrdfs"; Fake.mgm; "stat"; "-q"; "IsDir"; "/nowhere"]
          2 Fake.world0)).
Proof.
  apply (run_command_gives_up Fake.popen
           ["xrdfs"; Fake.mgm; "stat"; "-q"; "IsDir"; "/nowhere"] 2
           Fake.world0 [] 54).
  - reflexivity.
  - intros i Hi. exists [], 54. split; [reflexivity | discriminate].
  - reflexivity.
  - discriminate.
Defined.


Lemma cache_off_leaves_caches_witness :
  (forall r,
      CACHES (served Fake.popen Fake.strptime Fake.py_int Fake.uuid4
                 Fake.next_task Fake.keeps_on r
                Fake.world0) = CACHES Fake.world0 /\
      CACHEDIR (served Fake.popen Fake.strptime Fake.py_int Fake.uuid4
                 Fake.next_task Fake.keeps_on r
                  Fake.world0) = CACHEDIR Fake.world0)
  /\ (forall St (c : consumer St) path stat s,
         CACHES (snd (walk Fake.popen Fake.strptime Fake.py_int c path stat s
                        Fake.world0)) = CACHES Fake.world0 /\
         CACHEDIR (snd (walk Fake.popen Fake.strptime Fake.py_int c path stat
                          s Fake.world0)) = CACHEDIR Fake.world0).
Proof.
  apply (cache_off_leaves_caches Fake.popen Fake.strptime Fake.py_int
           Fake.uuid4 Fake.next_task Fake.keeps_on Fake.world0).
  reflexivity.
Defined.

Lemma dry_mode_answers_witness :
  exists_ Fake.popen "/a/b/x.txt" Fake.world_dry
  = (Ok (VBool true), Fake.world_dry) /\
  isdir Fake.popen Fake.strptime Fake.py_int "/a/b/x.txt" Fake.world_dry
  = (Ok (VBool true), Fake.world_dry) /\
  isfile Fake.popen Fake.strptime Fake.py_int "/a/b/x.txt" Fake.world_dry
  = (Ok (VBool false), Fake.world_dry) /\
  is_file_or_dir Fake.popen Fake.strptime Fake.py_int "/a/b/x.txt"
    Fake.world_dry = (Ok (VInt 1), Fake.world_dry) /\
  (forall stat assume_directory,
      listdir Fake.popen Fake.strptime Fake.py_int "/a/b/x.txt" stat
        assume_directory Fake.world_dry = (Ok (VList []), Fake.world_dry)) /\
  (forall not_exist_ok,
      stat Fake.popen Fake.strptime Fake.py_int "/a/b/x.txt" not_exist_ok
        Fake.world_dry
      = (Raise (RuntimeError "Could not extract size from stat"),
         Fake.world_dry)).
Proof.
  apply (dry_mode_answers Fake.popen Fake.strptime Fake.py_int "/a/b/x.txt"
           Fake.world_dry); reflexivity.
Defined.

Lemma dry_run_answer_is_served_witness :
  exists w1 w2,
    bind (drymode true)
      (fun _ => isdir Fake.popen Fake.strptime Fake.py_int "/nowhere")
      Fake.world_cached = (Ok (VBool true), w1) /\
    bind (drymode false)
      (fun _ => isdir Fake.popen Fake.strptime Fake.py_int "/nowhere") w1
    = (Ok (VBool true), w2) /\
    DRYMODE w2 = false /\
    spawned w2 = spawned Fake.world_cached /\
    FileCache.get (FileCache.open "seutils-cache.isdir" (CACHEDIR w2))
      (PyText.strip "/nowhere") VNone = VBool true.
Proof.
  apply (dry_run_answer_is_served Fake.popen Fake.strptime Fake.py_int
           "/nowhere" Fake.world_cached);
    [reflexivity | vm_compute; reflexivity | reflexivity].
Defined.

Lemma rm_refuses_directory_witness :
  rm Fake.popen (Ok true) "/a" false Fake.world0
  = (Raise (RuntimeError "is a directory but rm instruction is not recursive"),
     set_spawned
       (fun l => l ++ [["xrdfs"; Fake.mgm; "stat"; "-q"; "IsDir"; "/a"]])
       Fake.world0) /\
  _rm_xrootd Fake.popen "root://se.example.org//a" false Fake.world0
  = (Raise (RuntimeError "is a directory but rm instruction is not recursive"),
     set_spawned
       (fun l => l ++ [["xrdfs"; Fake.mgm; "stat"; "-q"; "IsDir"; "/a"]])
       Fake.world0).
Proof.
  apply (rm_refuses_directory Fake.popen "/a" "root://se.example.org//a"
           Fake.mgm "/a" Fake.world0 []); reflexivity.
Defined.

Lemma rm_dry_mode_refuses_witness :
  rm Fake.popen (Ok true) "/a/b/x.txt" false Fake.world_dry
  = (Raise (RuntimeError "is a directory but rm instruction is not recursive"),
     Fake.world_dry).
Proof.
  apply (rm_dry_mode_refuses Fake.popen "/a/b/x.txt"
           "root://se.example.org//a/b/x.txt" Fake.world_dry); reflexivity.
Defined.

Lemma rm_recursive_commands_witness :
  rm Fake.popen_ok (Ok true) "/a" true Fake.world0
  = (Ok tt,
     set_spawned
       (fun l => l ++ [["xrdfs"; Fake.mgm; "stat"; "-q"; "IsDir"; "/a"];
                       ["eos"; Fake.mgm; "rm"; "-r"; "/a"]]) Fake.world0) /\
  rm Fake.popen_ok (Ok false) "/a" true Fake.world0
  = (Ok tt,
     set_spawned
       (fun l => l ++ [["gfal-rm"; "-r"; "root://se.example.org//a"]])
       Fake.world0).
Proof.
  destruct (rm_recursive_commands Fake.popen_ok "/a"
              "root://se.example.org//a" Fake.world0) as [Heos Hgfal];
    [reflexivity | reflexivity |].
  split.
  - apply (Heos Fake.mgm "/a" 0 [] []); reflexivity.
  - apply (Hgfal []); reflexivity.
Defined.

Lemma listdir_refuses_non_directory_witness :
  listdir Fake.popen Fake.strptime Fake.py_int "/a/b/x.txt" false false
    Fake.world0
  = (Raise (RuntimeError "is not a valid directory"),
     set_spawned
       (fun l => l ++ [["xrdfs"; Fake.mgm; "stat"; "-q"; "IsDir"; "/a/b/x.txt"]])
       Fake.world0).
Proof.
  apply (listdir_refuses_non_directory Fake.popen Fake.strptime Fake.py_int
           "/a/b/x.txt" Fake.mgm "/a/b/x.txt" false Fake.world0 [] 55);
    try reflexivity.
  discriminate.
Defined.

Lemma walk_refuses_non_directory_witness :
  let w1 :=
    set_spawned
      (fun l => l ++ [["xrdfs"; Fake.mgm; "stat"; "-q"; "IsDir"; "/a/b/x.txt"]])
      Fake.world0 in
  walk Fake.popen Fake.strptime Fake.py_int
    (passive (fun seen path => seen ++ [path])) "/a/b/x.txt" false []
    Fake.world0
  = (Raise (RuntimeError "is not a directory"), w1) /\
  exists l, spawned w1 = spawned Fake.world0 ++ l /\ (length l <= 1)%nat /\
            Forall (fun cmd => is_listing cmd = false) l.
Proof.
  intros w1.
  apply (walk_refuses_non_directory Fake.popen Fake.strptime Fake.py_int
           (passive (fun seen path => seen ++ [path])) "/a/b/x.txt" false []
           Fake.world0 "root://se.example.org//a/b/x.txt" (VInt 2) w1);
    reflexivity.
Defined.

Lemma write_cache_read_cache_witness :
  let w1 := snd (write_cache "seutils-cache.isdir" "/a" (VBool true)
                   Fake.world_cached) in
  read_cache "seutils-cache.isdir" "/a" w1 = (Ok (VBool true), w1) /\
  (forall key', key' <> "/a" ->
     fst (read_cache "seutils-cache.isdir" key' w1)
     = fst (read_cache "seutils-cache.isdir" key' Fake.world_cached)) /\
  (forall name' key', name' <> "seutils-cache.isdir" ->
     fst (read_cache name' key' w1)
     = fst (read_cache name' key' Fake.world_cached)).
Proof.
  intros w1.
  apply (write_cache_read_cache "seutils-cache.isdir" "/a" (VBool true)
           Fake.world_cached).
  reflexivity.
Defined.

Lemma hadd_chunks_leaves_no_scratch_witness :
  let w1 := snd (_hadd_chunks Fake.popen Fake.uuid4_plain Fake.next_task
                   Fake.keeps_on ["a.root"; "b.root"; "c.root"]
                   "merged.root" 6 2 "/tmp" false Fake.world0) in
  "/tmp/tmphadd" ∈ dirs w1 /\
  ("/tmp/tmphadd" ∈ dirs Fake.world0 \/
   ("/tmp/tmphadd" ∈ parents "/tmp/tmphadd/u" /\
    under "/tmp/tmphadd/u" "/tmp/tmphadd" = false)).
Proof.
  intros w1.
  assert (Hin : "/tmp/tmphadd" ∈ dirs w1) by (vm_compute; reflexivity).
  split; [exact Hin|].
  apply (hadd_chunks_leaves_no_scratch Fake.popen Fake.strptime Fake.py_int
           Fake.uuid4_plain Fake.next_task Fake.keeps_on ["a.root"; "b.root"; "c.root"]
           "merged.root" 6 2 "/tmp" false Fake.world0 "/tmp/tmphadd");
    [|exact Hin].
  intros n. split; [destruct n; discriminate|].
  induction n as [|n IH]; [reflexivity|].
  unfold Py.contains in *. cbn [Fake.uuid4_plain].
  rewrite partition_cons. cbn [Py.removeprefix].
  now destruct (Py.partition "/" (Fake.uuid4_plain n)) as [[a b]|].
Defined.

Lemma hadd_chunks_terminates_witness :
  _hadd_chunks_rec Fake.popen Fake.uuid4 Fake.next_task Fake.keeps_on 10
    ["a.root"; "b.root"; "c.root"]
    "merged.root" 6 2 "/tmp" false Fake.world0
  = _hadd_chunks Fake.popen Fake.uuid4 Fake.next_task Fake.keeps_on
      ["a.root"; "b.root"; "c.root"]
      "merged.root" 6 2 "/tmp" false Fake.world0 /\
  fst (_hadd_chunks Fake.popen Fake.uuid4 Fake.next_task Fake.keeps_on
         ["a.root"; "b.root"; "c.root"]
         "merged.root" 6 2 "/tmp" false Fake.world0)
  <> Raise OutOfFuel.
Proof.
  apply (hadd_chunks_terminates Fake.popen Fake.uuid4 Fake.next_task
           Fake.keeps_on
           ["a.root"; "b.root"; "c.root"] "merged.root" 6 2 "/tmp" false
           Fake.world0 10); simpl; lia.
Defined.

Lemma hadd_chunks_of_one_never_returns_witness :
  is_ok (fst (_hadd_chunks_rec Fake.popen Fake.uuid4 Fake.next_task
                Fake.keeps_on 5 ["a.root"; "b.root"]
                "merged.root" 6 1 "/tmp" false Fake.world0))
  = false.
Proof.
  apply (hadd_chunks_of_one_never_returns Fake.popen Fake.uuid4
           Fake.next_task Fake.keeps_on 5
           ["a.root"; "b.root"] "merged.root" 6 "/tmp" false Fake.world0).
  discriminate.
Defined.

Lemma hadd_missing_executable_witness :
  _hadd Fake.popen_bare ["a.root"; "b.root"] "merged.root" false Fake.world0
  = (if Z.eqb 2 2 then Ok tt else Raise (OSError 2), Fake.world0).
Proof.
  apply (hadd_missing_executable Fake.popen_bare ["a.root"; "b.root"]
           "merged.root" Fake.world0 2); reflexivity.
Defined.

Lemma hadd_chunks_partition_witness :
  exists chunks merges rest,
    spawned (snd (_hadd_chunks_rec Fake.popen Fake.uuid4 Fake.next_task
                    Fake.keeps_on 3 ["a.root"; "b.root"; "c.root"]
                    "merged.root" 6 2 "/tmp" false Fake.world0))
    = spawned Fake.world0 ++ merges ++ rest /\
    merges ≡ₚ
      imap (fun i chunk =>
              ["hadd"; "-f";
               PyText.osp_join
                 (PyText.osp_join (PyText.osp_join "/tmp" "tmphadd")
                    (Fake.uuid4 (uuids Fake.world0)))
                 ("chunk" +:+ pretty i +:+ ".root")] ++ chunk) chunks /\
    concat chunks = ["a.root"; "b.root"; "c.root"] /\
    length chunks = ceil_div (length ["a.root"; "b.root"; "c.root"]) 2 /\
    Forall (fun chunk => (0 < length chunk <= 2)%nat) chunks.
Proof.
  apply (hadd_chunks_partition Fake.popen Fake.uuid4 Fake.next_task
           Fake.keeps_on 3 ["a.root"; "b.root"; "c.root"] "merged.root" 6 2
           "/tmp" Fake.world0).
  - simpl. lia.
  - discriminate.
  - reflexivity.
  - apply not_elem_of_empty.
  - intros history cmd. exists []. reflexivity.
Defined.

Lemma walk_pruned_stops_witness :
  exists l,
    spawned (snd (walk Fake.popen Fake.strptime Fake.py_int
                    (Consumer (list string)
                       (fun seen path _ _ => Ok (seen ++ [path], []))
                       (fun seen path _ _ => Ok (seen ++ [path], [])))
                    "/a" false [] Fake.world0))
    = spawned Fake.world0 ++ l /\
    (length l <= 2)%nat /\
    (length (List.filter is_listing l) <= 1)%nat.
Proof.
  apply (walk_pruned_stops Fake.popen Fake.strptime Fake.py_int
           (Consumer (list string)
              (fun seen path _ _ => Ok (seen ++ [path], []))
              (fun seen path _ _ => Ok (seen ++ [path], [])))
           "/a" false [] Fake.world0).
  - intros s p ds fs s' ds' H. simpl in H. now injection H as _ <-.
  - intros s p ds fs s' ds' H. simpl in H. now injection H as _ <-.
Defined.

Lemma is_none_queries_hit_witness :
  let query := isdir Fake.popen Fake.strptime Fake.py_int "/a" in
  let w1 := snd (query Fake.world_cached) in
  query w1 = (Ok (VBool true), w1).
Proof.
  intros query w1.
  apply (is_none_queries_hit Fake.popen Fake.strptime Fake.py_int query
           Fake.world_cached (VBool true) w1).
  - right. right. left. exists "/a". reflexivity.
  - reflexivity.
  - vm_compute. reflexivity.
  - discriminate.
Defined.

Lemma listdir_hit_witness :
  let query := listdir Fake.popen Fake.strptime Fake.py_int "/a" false true in
  let w1 := snd (query Fake.world_cached) in
  query w1 = (Ok (VList [VStr "root://se.example.org//a/b"]), w1).
Proof.
  intros query w1.
  apply (listdir_hit Fake.popen Fake.strptime Fake.py_int "/a" false true
           Fake.world_cached (VList [VStr "root://se.example.org//a/b"]) w1).
  - reflexivity.
  - vm_compute. reflexivity.
  - reflexivity.
Defined.
